(** * ArrayPilot: the five array generators of [array_pilot.py]

    A shallow embedding of [create_hexagonal_array],
    [create_rectangular_array], [create_sunflower_array],
    [create_circular_array] and [create_octagonal_array], and the
    properties of the grids they return.

    Modelling conventions
    - Python [int]s are [Z].
    - A float is the real number it denotes ([R] of the Standard Library);
      the float arguments [radius], [side_length] and [empty_fraction] are
      finite.  Every floating-point operation of the rectangular, hexagonal,
      circular and octagonal generators and of the window rounds its exact
      result to binary64, to nearest with ties to even ([fl64]); a result
      beyond the binary64 range stands for the [inf] the source gets, and is
      recognised where the source tells the two apart ([int]).  An [int]
      that meets a float is converted by the same rounding; in the product
      [int * float] an [int] beyond the float range is an [OverflowError].
    - The sunflower generator only ever computes its first spiral point,
      whose coordinates [0], [1] and [grid_size // 2] are binary64 numbers;
      its arithmetic is written over the reals.
    - A numpy array of floats holding only [nan], [1] and [0] is a
      [list (list cell)].  An array of any size can be allocated: the
      limits of memory and of numpy's machine integers are not modelled.
    - The process-wide numpy random generator is an explicit state of an
      abstract type with the two operations the program uses.
    - Exceptions are the [Raise] results of a state-and-error monad. *)

From Stdlib Require Import Reals Lra Lia ZArith.
From stdpp Require Import list strings.

Open Scope Z_scope.

(** ** Cells and grids *)

(** The three values a cell of a returned array holds:
    [np.nan] (air), [1] (active element) and [0] (passive element). *)
Inductive cell : Set :=
  | Empty
  | Active
  | Passive.

#[global] Instance cell_eq_dec : EqDecision cell.
Proof. solve_decision. Defined.

Abbreviation grid := (list (list cell)).

(** The Python exceptions the generators can run into. *)
Inductive exn : Set :=
  | ValueError
  | IndexError
  | OverflowError.

Inductive result (A : Type) : Type :=
  | Ok (a : A)
  | Raise (e : exn).
Arguments Ok {A} a.
Arguments Raise {A} e.

Definition raises {A} (r : result A) : Prop :=
  match r with Raise _ => True | Ok _ => False end.

(** A grid has shape [n] x [m]. *)
Definition has_shape (gr : grid) (n m : Z) : Prop :=
  Z.of_nat (length gr) = n ∧ Forall (λ row, Z.of_nat (length row) = m) gr.

(** Reading [gr[i, j]] for non-negative indices ([None] out of range). *)
Definition cell_at (gr : grid) (i j : Z) : option cell :=
  if (i <? 0) || (j <? 0) then None
  else row ← gr !! Z.to_nat i; row !! Z.to_nat j.

(** Number of cells of the grid that are not [Empty]. *)
Definition count_non_empty (gr : grid) : nat :=
  length (filter (λ c, c ≠ Empty) (mjoin gr)).

(** ** Python and numpy primitives *)

(** [range(n)] and [range(a, b)]. *)
Definition range (n : Z) : list Z := seqZ 0 n.
Definition range2 (a b : Z) : list Z := seqZ a (b - a).

(** [np.full((rows, columns), v)]; numpy raises [ValueError] on a negative
    dimension. *)
Definition np_full (rows columns : Z) (v : cell) : result grid :=
  if (rows <? 0) || (columns <? 0) then Raise ValueError
  else Ok (replicate (Z.to_nat rows) (replicate (Z.to_nat columns) v)).

(** [np.ones((rows, columns))]. *)
Definition np_ones (rows columns : Z) : result grid :=
  np_full rows columns Active.

(** Index normalisation of numpy and of Python lists: a negative index
    counts from the end, anything outside [-len, len) is an [IndexError]. *)
Definition norm_index (len : nat) (i : Z) : result nat :=
  if (0 <=? i) && (i <? Z.of_nat len) then Ok (Z.to_nat i)
  else if (- Z.of_nat len <=? i) && (i <? 0) then Ok (Z.to_nat (Z.of_nat len + i))
  else Raise IndexError.

(** [gr[i, j] = v]. *)
Definition setitem (gr : grid) (i j : Z) (v : cell) : result grid :=
  match norm_index (length gr) i with
  | Raise e => Raise e
  | Ok r =>
      match gr !! r with
      | None => Raise IndexError
      | Some row =>
          match norm_index (length row) j with
          | Raise e => Raise e
          | Ok c => Ok (<[r := <[c := v]> row]> gr)
          end
      end
  end.

(** A bound of a slice [a:b] on a sequence of length [len], as
    [slice.indices] computes it for step 1. *)
Definition slice_bound (len : nat) (x : Z) : nat :=
  if x <? 0 then Z.to_nat (Z.max 0 (x + Z.of_nat len))
  else Z.to_nat (Z.min x (Z.of_nat len)).

(** [gr[i, a:b] = v]: the row index is checked, the slice is clamped. *)
Definition setslice (gr : grid) (i a b : Z) (v : cell) : result grid :=
  match norm_index (length gr) i with
  | Raise e => Raise e
  | Ok r =>
      match gr !! r with
      | None => Raise IndexError
      | Some row =>
          let lo := slice_bound (length row) a in
          let hi := slice_bound (length row) b in
          Ok (<[r := imap (λ k x, if bool_decide (lo ≤ k < hi)%nat then v else x) row]> gr)
      end
  end.

(** [xs[i]] on a Python list. *)
Definition list_getitem {A} (xs : list A) (i : Z) : result A :=
  match norm_index (length xs) i with
  | Raise e => Raise e
  | Ok k => match xs !! k with Some x => Ok x | None => Raise IndexError end
  end.

(** Comparisons of floats as booleans. *)
Definition Rleb (x y : R) : bool := if Rle_dec x y then true else false.
Definition Rltb (x y : R) : bool := if Rlt_dec x y then true else false.

(** [int(x)] on a float: truncation towards zero. *)
Definition py_int (x : R) : Z :=
  if Rle_dec 0 x then Int_part x else - Int_part (- x).

(** [round(x)] on a float: to the nearest integer, ties to the even one. *)
Definition py_round (x : R) : Z :=
  let n := Int_part x in
  let d := (x - IZR n)%R in
  if Rlt_dec d (1 / 2) then n
  else if Rlt_dec (1 / 2) d then n + 1
  else if Z.even n then n else n + 1.

(** ** Binary64 arithmetic

    [fl64 x] is the binary64 number nearest to [x], ties to the even
    mantissa (IEEE 754 roundTiesToEven).  The magnitude of [x] is taken in
    units of [2^-1074], the smallest positive binary64 number; its last
    place is [2^q] units, with [q = 0] below [2^53] units (the subnormal
    numbers and the first binade of normal ones) and one more for every
    further binade, so that the mantissa [units / 2^q] is below [2^53]; the
    mantissa is rounded to an integer, half to even, which is what
    [py_round] computes.  The exponent is not bounded above: a result of
    magnitude [2^1024] or more is the image of an overflow, [inf] in the
    source. *)
Definition ulp_exponent (units : R) : Z :=
  Z.max 0 (Z.log2 (Int_part units) - 52).

Definition round_units (units : R) : Z :=
  py_round (units / IZR (2 ^ ulp_exponent units)) * 2 ^ ulp_exponent units.

Definition fl64 (x : R) : R :=
  let v := (IZR (round_units (Rabs x * IZR (2 ^ 1074))) / IZR (2 ^ 1074))%R in
  if Rlt_dec x 0 then (- v)%R else v.

(** The numbers [m * 2^e] with [|m| < 2^53] and [e >= -1074]: the finite
    binary64 numbers, and beyond [2^1024] the values that stand for an
    overflow. *)
Definition binary64 (x : R) : Prop :=
  ∃ m q, 0 ≤ q ∧ Z.abs m < 2 ^ 53 ∧ x = (IZR (m * 2 ^ q) / IZR (2 ^ 1074))%R.

(** The conversion of an [int] that meets a float, and the operations
    [*], [+], [/] and [np.sqrt] on floats. *)
Definition float_of_int (z : Z) : R := fl64 (IZR z).
Definition float_mul (x y : R) : R := fl64 (x * y).
Definition float_add (x y : R) : R := fl64 (x + y).
Definition float_div (x y : R) : R := fl64 (x / y).
Definition np_sqrt (x : R) : R := fl64 (sqrt x).

(** [a / b] on two [int]s: Python rounds the exact quotient. *)
Definition int_truediv (a b : Z) : R := fl64 (IZR a / IZR b).

(** [int(x)] on the result of a float operation: an [OverflowError] on
    [inf], else truncation. *)
Definition isinf (x : R) : bool := Rleb (IZR (2 ^ 1024)) (Rabs x).

Definition int_of_float (x : R) : result Z :=
  if isinf x then Raise OverflowError else Ok (py_int x).

(** [n * x] for an [int] and a float: Python converts the [int], with an
    [OverflowError] when it is too large for a float, and multiplies. *)
Definition int_mul_float (n : Z) (x : R) : result R :=
  if isinf (float_of_int n) then Raise OverflowError
  else Ok (float_mul (float_of_int n) x).

(** ** The random source

    [np.random.rand()] draws a float in [[0, 1)]; [np.random.permutation(n)]
    shuffles [arange(n)].  Both advance the generator's state. *)
Class RandomSource (G : Type) : Type := {
  random_sample : G → R * G;
  permutation : Z → G → list Z * G;
  random_sample_range : ∀ g, (0 <= (random_sample g).1 < 1)%R;
  permutation_perm : ∀ n g, (permutation n g).1 ≡ₚ range n
}.

(** ** The monad of the generators: random state and exceptions *)

Definition M (G A : Type) : Type := G → result (A * G).

Section Monad.
Context {G : Type}.

Definition ret {A} (a : A) : M G A := λ g, Ok (a, g).

Definition bind {A B} (m : M G A) (k : A → M G B) : M G B :=
  λ g, match m g with
       | Ok (a, g') => k a g'
       | Raise e => Raise e
       end.

Definition lift {A} (r : result A) : M G A :=
  λ g, match r with
       | Ok a => Ok (a, g)
       | Raise e => Raise e
       end.

End Monad.

Notation "x <- m ;; k" := (bind m (λ x, k))
  (at level 100, m at next level, right associativity, only parsing).

(** A loop body either falls through to the next iteration or executes a
    [return] statement. *)
Inductive ctl (S V : Type) : Type :=
  | Next (s : S)
  | Return (v : V).
Arguments Next {S V} s.
Arguments Return {S V} v.

Section ForLoops.
Context {G : Type}.

(** [for i in l: s = body i s]. *)
Fixpoint for_each {I S} (l : list I) (body : I → S → M G S) (s : S) : M G S :=
  match l with
  | [] => ret s
  | i :: l' => s' <- body i s;; for_each l' body s'
  end.

Fixpoint for_each_ctl {I S V} (l : list I) (body : I → S → M G (ctl S V))
    (s : S) : M G (ctl S V) :=
  match l with
  | [] => ret (Next s)
  | i :: l' =>
      c <- body i s;;
      match c with
      | Next s' => for_each_ctl l' body s'
      | Return v => ret (Return v)
      end
  end.

End ForLoops.

(** ** The generators *)

Section Generators.
Context {G : Type} `{RandomSource G}.

(** [np.random.rand()]. *)
Definition rand : M G R := λ g, Ok (random_sample g).

(** [np.random.choice(a, size, replace=False)] for an integer [a]:
    numpy checks the arguments and returns [permutation(a)[:size]]. *)
Definition choice (a size : Z) : M G (list Z) :=
  if (a <=? 0) && negb (size =? 0) then lift (Raise ValueError)
  else if a <? size then lift (Raise ValueError)
  else if size <? 0 then lift (Raise ValueError)
  else λ g, let '(p, g') := permutation a g in Ok (take (Z.to_nat size) p, g').

(** The value a demoted cell receives: [0 if passive else np.nan]. *)
Definition demoted (passive : bool) : cell :=
  if passive then Passive else Empty.

(** [create_hexagonal_array]: a square of side [2 * radius + 1] holding
    the hexagon, filled row by row; the positions filled are recorded and,
    with [randomize], a fixed number of them is sampled and demoted.  The
    number is [int(len(cell_positions) * empty_fraction)]: the length is
    converted to a float, the product is rounded, and [int] truncates it. *)
Definition create_hexagonal_array
    (radius : Z) (randomize : bool) (empty_fraction : R) (passive : bool)
  : M G grid :=
  let size := 2 * radius + 1 in
  hex_array <- lift (np_full size size Empty);;
  let center := radius in
  let cell_positions : list (Z * Z) := [] in
  st <-
    for_each (range size) (λ i '(hex_array, cell_positions),
      let start := Z.max 0 (radius - i) in
      let end_ := size - Z.max 0 (i - radius) in
      hex_array <- lift (setslice hex_array i start end_ Active);;
      ret (hex_array, cell_positions ++ ((λ j, (i, j)) <$> range2 start end_)))
    (hex_array, cell_positions);;
  let '(hex_array, cell_positions) := st in
  if randomize then
    product <-
      lift (int_mul_float (Z.of_nat (length cell_positions)) empty_fraction);;
    num_empty_cells <- lift (int_of_float product);;
    empty_positions <-
      choice (Z.of_nat (length cell_positions)) num_empty_cells;;
    for_each empty_positions (λ idx hex_array,
      p <- lift (list_getitem cell_positions idx);;
      let '(i, j) := p in
      lift (setitem hex_array i j (demoted passive)))
    hex_array
  else ret hex_array.

(** [create_rectangular_array]: all cells Active; with [randomize] a
    fixed number of flat indices is sampled and demoted.  The number is
    [int(num_cells * empty_fraction)], a binary64 product truncated. *)
Definition create_rectangular_array
    (rows columns : Z) (randomize : bool) (empty_fraction : R) (passive : bool)
  : M G grid :=
  rect_array <- lift (np_ones rows columns);;
  if randomize then
    let num_cells := rows * columns in
    product <- lift (int_mul_float num_cells empty_fraction);;
    num_empty_cells <- lift (int_of_float product);;
    empty_positions <- choice num_cells num_empty_cells;;
    for_each empty_positions (λ pos rect_array,
      let '(i, j) := (pos `div` columns, pos `mod` columns) in
      lift (setitem rect_array i j (demoted passive)))
    rect_array
  else ret rect_array.

(** [np.pi * (3 - np.sqrt(5))]. *)
Definition golden_angle : R := (PI * (3 - sqrt 5))%R.

(** The value written for a placed sunflower point:
    [0 if randomize and np.random.rand() < empty_fraction and passive else 1].
    [and] evaluates left to right, so a number is drawn exactly when
    [randomize] is set. *)
Definition sunflower_point_value
    (randomize : bool) (empty_fraction : R) (passive : bool) : M G cell :=
  if randomize then
    u <- rand;;
    ret (if Rltb u empty_fraction && passive then Passive else Active)
  else ret Active.

(** [create_sunflower_array]: points of a Fermat spiral on a square grid.
    The [return] statement is the last statement of the loop body, so the
    function returns at the end of the first iteration; when the loop does
    not run at all the function ends without a [return] and yields [None]. *)
Definition create_sunflower_array
    (n_points : Z) (radius : R) (grid_size : Z)
    (randomize : bool) (empty_fraction : R) (passive : bool)
  : M G (option grid) :=
  grid <- lift (np_full grid_size grid_size Empty);;
  let center := grid_size `div` 2 in
  c <- for_each_ctl (range n_points) (λ i grid,
        let r := (radius * sqrt (IZR i / IZR n_points))%R in
        let theta := (IZR i * golden_angle)%R in
        let x := (r * cos theta)%R in
        let y := (r * sin theta)%R in
        let row := py_round (IZR center + y) in
        let col := py_round (IZR center + x) in
        grid <-
          (if (0 <=? row) && (row <? grid_size) && (0 <=? col) && (col <? grid_size)
           then
             v <- sunflower_point_value randomize empty_fraction passive;;
             lift (setitem grid row col v)
           else ret grid);;
        ret (Return grid))
      grid;;
  match c with
  | Return grid => ret (Some grid)
  | Next _ => ret None
  end.

(** The test [randomize and np.random.rand() < empty_fraction] of the
    circular and octagonal generators: [and] evaluates left to right, so a
    number is drawn only when [randomize] is set. *)
Definition draw_gap (randomize : bool) (empty_fraction : R) : M G bool :=
  if randomize then u <- rand;; ret (Rltb u empty_fraction) else ret false.

(** [create_circular_array]: every cell whose distance to the centre, as
    [np.sqrt] returns it, is at most [radius] is written, with one draw per
    cell when [randomize] is set. *)
Definition create_circular_array
    (grid_size : Z) (radius : R)
    (randomize : bool) (empty_fraction : R) (passive : bool)
  : M G grid :=
  grid <- lift (np_full grid_size grid_size Empty);;
  let center := grid_size `div` 2 in
  for_each (range grid_size) (λ i grid,
    for_each (range grid_size) (λ j grid,
      let distance :=
        np_sqrt (float_of_int ((i - center) ^ 2 + (j - center) ^ 2)) in
      if Rleb distance radius then
        gap <- draw_gap randomize empty_fraction;;
        if gap then lift (setitem grid i j (demoted passive))
        else lift (setitem grid i j Active)
      else ret grid)
    grid)
  grid.

(** [create_octagonal_array]: as the circular generator, with the
    intersection of a diamond and a square as the shape.  The two bounds
    are binary64 products; the integer distances are converted to floats
    for the comparisons. *)
Definition create_octagonal_array
    (grid_size : Z) (side_length : R)
    (randomize : bool) (empty_fraction : R) (passive : bool)
  : M G grid :=
  grid <- lift (np_full grid_size grid_size Empty);;
  let center := grid_size `div` 2 in
  let max_dist_from_center :=
    float_mul side_length
      (float_add 1 (float_div (np_sqrt (float_of_int 2)) 2)) in
  for_each (range grid_size) (λ i grid,
    for_each (range grid_size) (λ j grid,
      let x_dist := Z.abs (i - center) in
      let y_dist := Z.abs (j - center) in
      if Rleb (float_of_int (x_dist + y_dist)) max_dist_from_center
         && Rleb (float_of_int (Z.max x_dist y_dist))
              (float_mul side_length (np_sqrt (float_of_int 2)))
      then
        gap <- draw_gap randomize empty_fraction;;
        if gap then lift (setitem grid i j (demoted passive))
        else lift (setitem grid i j Active)
      else ret grid)
    grid)
  grid.

End Generators.

(** ** Notions used in the statements *)

(** All positions of an [n] x [m] grid, row by row. *)
Definition positions (n m : Z) : list (Z * Z) :=
  range n ≫= λ i, (λ j, (i, j)) <$> range m.

(** The cell at a position, [Empty] outside the grid. *)
Definition cell_or_empty (gr : grid) (p : Z * Z) : cell :=
  default Empty (cell_at gr p.1 p.2).

(** Number of [Active] cells of the grid. *)
Definition count_active (gr : grid) : nat :=
  length (filter (λ c, c = Active) (mjoin gr)).

(** The distance of cell [(i, j)] to the centre as the circular generator
    computes it: the binary64 square root of the squared distance. *)
Definition computed_distance (grid_size i j : Z) : R :=
  np_sqrt
    (float_of_int ((i - grid_size `div` 2) ^ 2 + (j - grid_size `div` 2) ^ 2)).

(** Cell [(i, j)] passes the test of the circular generator. *)
Definition in_circle (grid_size : Z) (radius : R) (i j : Z) : Prop :=
  (computed_distance grid_size i j <= radius)%R.

(** The two bounds of the octagonal generator as it computes them:
    [side_length * (1 + np.sqrt(2) / 2)] and [side_length * np.sqrt(2)]. *)
Definition diamond_bound (side_length : R) : R :=
  float_mul side_length (float_add 1 (float_div (np_sqrt (float_of_int 2)) 2)).

Definition square_bound (side_length : R) : R :=
  float_mul side_length (np_sqrt (float_of_int 2)).

(** Cell [(i, j)] passes the two tests of the octagonal generator: the
    diamond bound and the square bound. *)
Definition in_octagon (grid_size : Z) (side_length : R) (i j : Z) : Prop :=
  (float_of_int (Z.abs (i - grid_size `div` 2) + Z.abs (j - grid_size `div` 2))
   <= diamond_bound side_length)%R ∧
  (float_of_int
     (Z.max (Z.abs (i - grid_size `div` 2)) (Z.abs (j - grid_size `div` 2)))
   <= square_bound side_length)%R.

(** The number of cells the rectangular and the hexagonal generator
    demote among [N]: [int(N * empty_fraction)]. *)
Definition demotion_count (N : Z) (empty_fraction : R) : Z :=
  py_int (float_mul (float_of_int N) empty_fraction).

(** The same with the errors of its two steps, the product and [int]. *)
Definition sample_size (N : Z) (empty_fraction : R) : result Z :=
  match int_mul_float N empty_fraction with
  | Raise e => Raise e
  | Ok product => int_of_float product
  end.

#[global] Instance in_circle_dec gs radius i j : Decision (in_circle gs radius i j).
Proof. unfold in_circle. apply Rle_dec. Defined.

#[global] Instance in_octagon_dec gs side i j : Decision (in_octagon gs side i j).
Proof. unfold in_octagon. apply and_dec; apply Rle_dec. Defined.

(** The cells the circular and the octagonal generator write. *)
Definition circle_inside (grid_size : Z) (radius : R) (p : Z * Z) : bool :=
  bool_decide (in_circle grid_size radius p.1 p.2).

Definition octagon_inside (grid_size : Z) (side_length : R) (p : Z * Z) : bool :=
  bool_decide (in_octagon grid_size side_length p.1 p.2).

(** The number of cells inside a shape among the positions [l], and among
    those that come before [p] in [l]. *)
Definition inside_count (inside : Z * Z → bool) (l : list (Z * Z)) : nat :=
  length (filter (λ q, inside q = true) l).

Fixpoint inside_before (inside : Z * Z → bool) (l : list (Z * Z)) (p : Z * Z)
  : nat :=
  match l with
  | [] => 0
  | q :: l' =>
      if bool_decide (q = p) then 0%nat
      else ((if inside q then 1 else 0) + inside_before inside l' p)%nat
  end.

(** The column range [[hex_start, hex_end)] of row [i]. *)
Definition hex_start (radius i : Z) : Z := Z.max 0 (radius - i).
Definition hex_end (radius i : Z) : Z := (2 * radius + 1) - Z.max 0 (i - radius).

(** The positions inside the hexagon, row by row: the list
    [cell_positions] that the generator builds. *)
Definition hex_cells (radius : Z) : list (Z * Z) :=
  range (2 * radius + 1) ≫=
    λ i, (λ j, (i, j)) <$> range2 (hex_start radius i) (hex_end radius i).

Section Outcomes.
Context {G : Type} `{RandomSource G}.

(** The value written for a placed point and the random state afterwards. *)
Definition sunflower_cell (randomize : bool) (empty_fraction : R)
    (passive : bool) (g : G) : cell * G :=
  if randomize then
    let '(u, g') := random_sample g in
    (if Rltb u empty_fraction && passive then Passive else Active, g')
  else (Active, g).

(** The indices [np.random.choice(N, k, replace=False)] returns. *)
Definition sample (N k : Z) (g : G) : list Z :=
  take (Z.to_nat k) (permutation N g).1.

(** The cells the rectangular generator demotes: the sampled flat
    indices, converted by [divmod(pos, columns)]. *)
Definition rect_picked (rows columns : Z) (f : R) (g : G) : list (Z * Z) :=
  (λ pos, (pos `div` columns, pos `mod` columns)) <$>
    sample (rows * columns) (demotion_count (rows * columns) f) g.

(** The cells the hexagonal generator demotes: the sampled indices into
    [cell_positions]. *)
Definition hex_picked (radius : Z) (f : R) (g : G) : list (Z * Z) :=
  let N := Z.of_nat (length (hex_cells radius)) in
  (λ idx, hex_cells radius !!! Z.to_nat idx) <$>
    sample N (demotion_count N f) g.

(** The random state after [k] calls of [np.random.rand()], and the number
    the call that follows them returns. *)
Fixpoint after_draws (k : nat) (g : G) : G :=
  match k with
  | O => g
  | S k' => (random_sample (after_draws k' g)).2
  end.

Definition nth_draw (k : nat) (g : G) : R :=
  (random_sample (after_draws k g)).1.

End Outcomes.

(** ** The generators without randomisation *)

(** A loop whose body never touches the random state runs in the error
    monad alone. *)
Fixpoint for_each_pure {I S} (l : list I) (body : I → S → result S) (s : S)
  : result S :=
  match l with
  | [] => Ok s
  | i :: l' =>
      match body i s with
      | Ok s' => for_each_pure l' body s'
      | Raise e => Raise e
      end
  end.

(** The result of a run with the final random state dropped. *)
Definition value_of {A G} (r : result (A * G)) : result A :=
  match r with
  | Ok (a, _) => Ok a
  | Raise e => Raise e
  end.

(** A run that succeeds leaves the random state as it was. *)
Definition state_unchanged {A G} (g : G) (r : result (A * G)) : Prop :=
  match r with
  | Ok (_, g') => g' = g
  | Raise _ => True
  end.

(** What each generator computes when [randomize] is [False], as a
    function of the shape parameters alone. *)
Definition hexagonal_pure (radius : Z) : result grid :=
  let size := 2 * radius + 1 in
  match np_full size size Empty with
  | Raise e => Raise e
  | Ok hex_array =>
      match
        for_each_pure (range size) (λ i '(hex_array, cell_positions),
          let start := Z.max 0 (radius - i) in
          let end_ := size - Z.max 0 (i - radius) in
          match setslice hex_array i start end_ Active with
          | Raise e => Raise e
          | Ok hex_array =>
              Ok (hex_array,
                  cell_positions ++ ((λ j, (i, j)) <$> range2 start end_))
          end)
        (hex_array, ([] : list (Z * Z)))
      with
      | Raise e => Raise e
      | Ok (hex_array, _) => Ok hex_array
      end
  end.

Definition rectangular_pure (rows columns : Z) : result grid :=
  np_ones rows columns.

Definition sunflower_pure (n_points : Z) (radius : R) (grid_size : Z)
  : result (option grid) :=
  match np_full grid_size grid_size Empty with
  | Raise e => Raise e
  | Ok grid =>
      let center := grid_size `div` 2 in
      match range n_points with
      | [] => Ok None
      | i :: _ =>
          let r := (radius * sqrt (IZR i / IZR n_points))%R in
          let theta := (IZR i * golden_angle)%R in
          let row := py_round (IZR center + r * sin theta) in
          let col := py_round (IZR center + r * cos theta) in
          if (0 <=? row) && (row <? grid_size) && (0 <=? col) && (col <? grid_size)
          then match setitem grid row col Active with
               | Raise e => Raise e
               | Ok grid => Ok (Some grid)
               end
          else Ok (Some grid)
      end
  end.

Definition circular_pure (grid_size : Z) (radius : R) : result grid :=
  match np_full grid_size grid_size Empty with
  | Raise e => Raise e
  | Ok grid =>
      let center := grid_size `div` 2 in
      for_each_pure (range grid_size) (λ i grid,
        for_each_pure (range grid_size) (λ j grid,
          if Rleb (np_sqrt (float_of_int ((i - center) ^ 2 + (j - center) ^ 2)))
               radius
          then setitem grid i j Active else Ok grid)
        grid)
      grid
  end.

Definition octagonal_pure (grid_size : Z) (side_length : R) : result grid :=
  match np_full grid_size grid_size Empty with
  | Raise e => Raise e
  | Ok grid =>
      let center := grid_size `div` 2 in
      for_each_pure (range grid_size) (λ i grid,
        for_each_pure (range grid_size) (λ j grid,
          if Rleb (float_of_int (Z.abs (i - center) + Z.abs (j - center)))
               (float_mul side_length
                  (float_add 1 (float_div (np_sqrt (float_of_int 2)) 2)))
             && Rleb (float_of_int
                        (Z.max (Z.abs (i - center)) (Z.abs (j - center))))
                  (float_mul side_length (np_sqrt (float_of_int 2)))
          then setitem grid i j Active else Ok grid)
        grid)
      grid
  end.

(** ** The window: [ArrayGeneratorUI]

    The widgets are modelled by the values the handlers read from them, the
    graphics scene by the list of the items added to it, and [print] by the
    list of the values printed. *)

(** The entries of the array-type combo box. *)
Inductive array_kind : Set :=
  | Rectangular
  | Circular
  | Octagonal
  | Hexagonal
  | Sunflower.

(** The values [self.array] takes: the list [[]] set by [__init__] and
    [update_inputs], an array returned by a generator, or the [None] the
    sunflower generator can return. *)
Inductive py_array : Type :=
  | PyEmptyList
  | NdArray (gr : grid)
  | PyNone.

(** [Qt.red] and [Qt.blue]. *)
Inductive colour : Set :=
  | Red
  | Blue.

(** [QGraphicsEllipseItem(x, y, w, h)] with its brush. *)
Record ellipse : Set := Ellipse {
  ellipse_x : Z;
  ellipse_y : Z;
  ellipse_w : Z;
  ellipse_h : Z;
  ellipse_brush : colour
}.

(** The window: [self.array], the values of the widgets the handlers read,
    [self.component_file_path] and the items of the scene.  A handler reads
    only the spin boxes that [update_inputs] builds for the selected array
    type; the record keeps a value for the other spin boxes as well. *)
Record ui : Type := Ui {
  array : py_array;
  array_type_combo : array_kind;
  randomize_check : bool;
  passive_cell_radio : bool;
  empty_fraction_slider : Z;
  radius_spin : Z;
  rows_spin : Z;
  columns_spin : Z;
  n_points_spin : Z;
  grid_size_spin : Z;
  side_length_spin : Z;
  component_file_path : option string;
  version_combo : string;
  non_graphical_mode_check : bool;
  graphics_scene : list ellipse
}.

(** [self.array = a] and the replacement of the scene's items. *)
Definition with_array (a : py_array) (u : ui) : ui :=
  Ui a (array_type_combo u) (randomize_check u) (passive_cell_radio u)
    (empty_fraction_slider u) (radius_spin u) (rows_spin u) (columns_spin u)
    (n_points_spin u) (grid_size_spin u) (side_length_spin u)
    (component_file_path u) (version_combo u) (non_graphical_mode_check u)
    (graphics_scene u).

Definition with_scene (scene : list ellipse) (u : ui) : ui :=
  Ui (array u) (array_type_combo u) (randomize_check u) (passive_cell_radio u)
    (empty_fraction_slider u) (radius_spin u) (rows_spin u) (columns_spin u)
    (n_points_spin u) (grid_size_spin u) (side_length_spin u)
    (component_file_path u) (version_combo u) (non_graphical_mode_check u)
    scene.

(** The ranges the source gives its widgets: [setRange(1, 500)] for every
    spin box and [setRange(0, 100)] for the slider. *)
Definition widgets_in_range (u : ui) : Prop :=
  0 ≤ empty_fraction_slider u ≤ 100 ∧
  1 ≤ radius_spin u ≤ 500 ∧
  1 ≤ rows_spin u ≤ 500 ∧
  1 ≤ columns_spin u ≤ 500 ∧
  1 ≤ n_points_spin u ≤ 500 ∧
  1 ≤ grid_size_spin u ≤ 500 ∧
  1 ≤ side_length_spin u ≤ 500.

(** The exceptions a handler can end with: those of the array library, and
    the [TypeError] and [AttributeError] of the interpreter. *)
Inductive ui_exn : Set :=
  | LibraryError (e : exn)
  | TypeError
  | AttributeError.

Inductive uresult (A : Type) : Type :=
  | UOk (a : A)
  | URaise (e : ui_exn).
Arguments UOk {A} a.
Arguments URaise {A} e.

(** What a handler prints. *)
Inductive printed : Type :=
  | ComponentLine (path : option string)
  | VersionLine (version : string) (non_graphical : bool)
  | ArrayLine (a : py_array).

(** The outcome of a handler: the window after it, what it printed and the
    random state; or the exception it ended with and the window as the
    exception left it. *)
Inductive handled (G : Type) : Type :=
  | Handled (u : ui) (out : list printed) (g : G)
  | Failed (e : ui_exn) (u : ui).
Arguments Handled {G} u out g.
Arguments Failed {G} e u.

(** A value passed as a keyword argument. *)
Inductive py_value : Type :=
  | PyBool (b : bool)
  | PyFloat (x : R).

(** The optional parameters every generator declares:
    [randomize=False, empty_fraction=0.1, passive=False]. *)
Definition option_names : list string :=
  ["randomize"; "empty_fraction"; "passive"]%string.

Fixpoint keyword (name : string) (keywords : list (string * py_value))
  : option py_value :=
  match keywords with
  | [] => None
  | (k, v) :: keywords' =>
      if bool_decide (k = name) then Some v else keyword name keywords'
  end.

(** Binding the keyword arguments of a call to the optional parameters: a
    keyword that names no parameter is a [TypeError], a parameter without a
    keyword takes its default. *)
Definition bind_options (keywords : list (string * py_value))
  : uresult (bool * R * bool) :=
  if forallb (λ kv, bool_decide (kv.1 ∈ option_names)) keywords then
    UOk (match keyword "randomize" keywords with
         | Some (PyBool b) => b | _ => false end,
         match keyword "empty_fraction" keywords with
         | Some (PyFloat x) => x | _ => (1 / 10)%R end,
         match keyword "passive" keywords with
         | Some (PyBool b) => b | _ => false end)
  else URaise TypeError.

(** [len(a)]. *)
Definition py_len (a : py_array) : uresult Z :=
  match a with
  | PyEmptyList => UOk 0
  | NdArray gr => UOk (Z.of_nat (length gr))
  | PyNone => URaise TypeError
  end.

(** [a.shape]: a list and [None] have no such attribute.  The number of
    columns of an array without rows is not kept by the model; no loop reads
    it then. *)
Definition py_shape (a : py_array) : uresult (Z * Z) :=
  match a with
  | NdArray gr =>
      UOk (Z.of_nat (length gr),
           match gr with [] => 0 | row :: _ => Z.of_nat (length row) end)
  | _ => URaise AttributeError
  end.

(** Reading [gr[i, j]]. *)
Definition getitem (gr : grid) (i j : Z) : result cell :=
  match norm_index (length gr) i with
  | Raise e => Raise e
  | Ok r =>
      match gr !! r with
      | None => Raise IndexError
      | Some row =>
          match norm_index (length row) j with
          | Raise e => Raise e
          | Ok c =>
              match row !! c with
              | None => Raise IndexError
              | Some v => Ok v
              end
          end
      end
  end.

(** The drawing loop of [preview_array]: a red ellipse for a cell equal to
    [1], a blue one for a cell equal to [0], nothing for [nan]. *)
Definition draw_cells (gr : grid) (shape : Z * Z) (scene : list ellipse)
  : result (list ellipse) :=
  for_each_pure (range shape.1) (λ i scene,
    for_each_pure (range shape.2) (λ j scene,
      match getitem gr i j with
      | Raise e => Raise e
      | Ok Empty => Ok scene
      | Ok Active => Ok (scene ++ [Ellipse (j * 10) (i * 10) 8 8 Red])
      | Ok Passive => Ok (scene ++ [Ellipse (j * 10) (i * 10) 8 8 Blue])
      end)
    scene)
  scene.

(** The ellipse drawn for a non-Empty cell. *)
Definition ellipse_of (i j : Z) (c : cell) : ellipse :=
  Ellipse (j * 10) (i * 10) 8 8 (if decide (c = Passive) then Blue else Red).

(** The items a grid of shape [n] x [m] is drawn with, row by row. *)
Definition cell_items (gr : grid) (p : Z * Z) : list ellipse :=
  match cell_or_empty gr p with
  | Empty => []
  | c => [ellipse_of p.1 p.2 c]
  end.

Definition scene_of (gr : grid) (n m : Z) : list ellipse :=
  positions n m ≫= cell_items gr.

(** The shape of the array each array type is previewed with. *)
Definition expected_shape (u : ui) : Z * Z :=
  match array_type_combo u with
  | Rectangular => (rows_spin u, columns_spin u)
  | Hexagonal => (2 * radius_spin u + 1, 2 * radius_spin u + 1)
  | Circular | Octagonal | Sunflower => (grid_size_spin u, grid_size_spin u)
  end.

(** [update_inputs]: the form is rebuilt for the selected array type, each
    new spin box showing the minimum of its range, and [self.array] is
    emptied. *)
Definition update_inputs (u : ui) : ui :=
  let u := with_array PyEmptyList u in
  match array_type_combo u with
  | Hexagonal =>
      Ui (array u) (array_type_combo u) (randomize_check u) (passive_cell_radio u)
        (empty_fraction_slider u) 1 (rows_spin u) (columns_spin u)
        (n_points_spin u) (grid_size_spin u) (side_length_spin u)
        (component_file_path u) (version_combo u) (non_graphical_mode_check u)
        (graphics_scene u)
  | Rectangular =>
      Ui (array u) (array_type_combo u) (randomize_check u) (passive_cell_radio u)
        (empty_fraction_slider u) (radius_spin u) 1 1
        (n_points_spin u) (grid_size_spin u) (side_length_spin u)
        (component_file_path u) (version_combo u) (non_graphical_mode_check u)
        (graphics_scene u)
  | Sunflower =>
      Ui (array u) (array_type_combo u) (randomize_check u) (passive_cell_radio u)
        (empty_fraction_slider u) 1 (rows_spin u) (columns_spin u)
        1 1 (side_length_spin u)
        (component_file_path u) (version_combo u) (non_graphical_mode_check u)
        (graphics_scene u)
  | Circular =>
      Ui (array u) (array_type_combo u) (randomize_check u) (passive_cell_radio u)
        (empty_fraction_slider u) 1 (rows_spin u) (columns_spin u)
        (n_points_spin u) 1 (side_length_spin u)
        (component_file_path u) (version_combo u) (non_graphical_mode_check u)
        (graphics_scene u)
  | Octagonal =>
      Ui (array u) (array_type_combo u) (randomize_check u) (passive_cell_radio u)
        (empty_fraction_slider u) (radius_spin u) (rows_spin u) (columns_spin u)
        (n_points_spin u) 1 1
        (component_file_path u) (version_combo u) (non_graphical_mode_check u)
        (graphics_scene u)
  end.

(** The window as [__init__] leaves it: the first array type selected,
    nothing checked, the slider at 0, no component file, the form built by
    [update_inputs].  A spin box that is not built yet is given the value a
    new one shows. *)
Definition initial_window : ui :=
  update_inputs
    (Ui PyEmptyList Rectangular false false 0 1 1 1 1 1 1 None "2024.1" false []).

(** Reads the fields of a window written with [Ui], [with_array],
    [with_scene] or [update_inputs]. *)
Ltac ui_fields :=
  cbn [array array_type_combo randomize_check passive_cell_radio
       empty_fraction_slider radius_spin rows_spin columns_spin n_points_spin
       grid_size_spin side_length_spin component_file_path version_combo
       non_graphical_mode_check graphics_scene with_scene with_array
       update_inputs expected_shape fst snd] in *.

Section Handlers.
Context {G : Type} `{RandomSource G}.

(** A call [create_..._array(..., k1=v1, k2=v2, ...)]: the keywords are
    bound, then the generator runs. *)
Definition call_generator {A} (keywords : list (string * py_value))
    (generator : bool → R → bool → M G A) (wrap : A → py_array) (g : G)
  : uresult (py_array * G) :=
  match bind_options keywords with
  | URaise e => URaise e
  | UOk (randomize, empty_fraction, passive) =>
      match generator randomize empty_fraction passive g with
      | Raise e => URaise (LibraryError e)
      | Ok (a, g') => UOk (wrap a, g')
      end
  end.

(** The value of [self.array] for a result of the sunflower generator. *)
Definition wrap_optional (a : option grid) : py_array :=
  match a with
  | Some gr => NdArray gr
  | None => PyNone
  end.

(** [generate_array]: the array is computed only when [self.array] is
    empty; the sunflower call passes [air_gap_prob=empty_fraction]. *)
Definition generate_array (u : ui) (g : G) : handled G :=
  let array_type := array_type_combo u in
  let randomize := randomize_check u in
  let empty_fraction := int_truediv (empty_fraction_slider u) 100 in
  let passive_cell := passive_cell_radio u in
  match py_len (array u) with
  | URaise e => Failed e u
  | UOk n =>
      let computed : uresult (ui * G) :=
        if n =? 0 then
          match
            match array_type with
            | Hexagonal =>
                let radius := radius_spin u in
                call_generator
                  [("randomize", PyBool randomize);
                   ("empty_fraction", PyFloat empty_fraction);
                   ("passive", PyBool passive_cell)]%string
                  (create_hexagonal_array radius) NdArray g
            | Rectangular =>
                let rows := rows_spin u in
                let columns := columns_spin u in
                call_generator
                  [("randomize", PyBool randomize);
                   ("empty_fraction", PyFloat empty_fraction);
                   ("passive", PyBool passive_cell)]%string
                  (create_rectangular_array rows columns) NdArray g
            | Sunflower =>
                let n_points := n_points_spin u in
                let radius := radius_spin u in
                let grid_size := grid_size_spin u in
                call_generator
                  [("randomize", PyBool randomize);
                   ("air_gap_prob", PyFloat empty_fraction);
                   ("passive", PyBool passive_cell)]%string
                  (create_sunflower_array n_points (IZR radius) grid_size)
                  wrap_optional g
            | Circular =>
                let radius := radius_spin u in
                let grid_size := grid_size_spin u in
                call_generator
                  [("randomize", PyBool randomize);
                   ("empty_fraction", PyFloat empty_fraction);
                   ("passive", PyBool passive_cell)]%string
                  (create_circular_array grid_size (IZR radius)) NdArray g
            | Octagonal =>
                let grid_size := grid_size_spin u in
                let side_length := side_length_spin u in
                call_generator
                  [("randomize", PyBool randomize);
                   ("empty_fraction", PyFloat empty_fraction);
                   ("passive", PyBool passive_cell)]%string
                  (create_octagonal_array grid_size (IZR side_length)) NdArray g
            end
          with
          | URaise e => URaise e
          | UOk (a, g') => UOk (with_array a u, g')
          end
        else UOk (u, g) in
      match computed with
      | URaise e => Failed e u
      | UOk (u, g') =>
          let aedt_version := version_combo u in
          let non_graphical_mode := non_graphical_mode_check u in
          Handled u
            [ComponentLine (component_file_path u);
             VersionLine aedt_version non_graphical_mode;
             ArrayLine (array u)]
            g'
      end
  end.

(** [preview_array]: the scene is cleared, the array is always computed,
    and one ellipse is added for every cell that is not [nan]. *)
Definition preview_array (u : ui) (g : G) : handled G :=
  let u := with_scene [] u in
  let array_type := array_type_combo u in
  let randomize := randomize_check u in
  let empty_fraction := int_truediv (empty_fraction_slider u) 100 in
  let passive_cell := passive_cell_radio u in
  match
    match array_type with
    | Hexagonal =>
        let radius := radius_spin u in
        call_generator
          [("randomize", PyBool randomize);
           ("empty_fraction", PyFloat empty_fraction);
           ("passive", PyBool passive_cell)]%string
          (create_hexagonal_array radius) NdArray g
    | Rectangular =>
        let rows := rows_spin u in
        let columns := columns_spin u in
        call_generator
          [("randomize", PyBool randomize);
           ("empty_fraction", PyFloat empty_fraction);
           ("passive", PyBool passive_cell)]%string
          (create_rectangular_array rows columns) NdArray g
    | Sunflower =>
        let n_points := n_points_spin u in
        let radius := radius_spin u in
        let grid_size := grid_size_spin u in
        call_generator
          [("randomize", PyBool randomize);
           ("empty_fraction", PyFloat empty_fraction);
           ("passive", PyBool passive_cell)]%string
          (create_sunflower_array n_points (IZR radius) grid_size)
          wrap_optional g
    | Circular =>
        let radius := radius_spin u in
        let grid_size := grid_size_spin u in
        call_generator
          [("randomize", PyBool randomize);
           ("empty_fraction", PyFloat empty_fraction);
           ("passive", PyBool passive_cell)]%string
          (create_circular_array grid_size (IZR radius)) NdArray g
    | Octagonal =>
        let grid_size := grid_size_spin u in
        let side_length := side_length_spin u in
        call_generator
          [("randomize", PyBool randomize);
           ("empty_fraction", PyFloat empty_fraction);
           ("passive", PyBool passive_cell)]%string
          (create_octagonal_array grid_size (IZR side_length)) NdArray g
    end
  with
  | URaise e => Failed e u
  | UOk (a, g') =>
      let u := with_array a u in
      match py_shape (array u) with
      | URaise e => Failed e u
      | UOk shape =>
          match array u with
          | NdArray gr =>
              match draw_cells gr shape (graphics_scene u) with
              | Raise e => Failed (LibraryError e) u
              | Ok scene => Handled (with_scene scene u) [] g'
              end
          | _ => Failed AttributeError u
          end
      end
  end.

End Handlers.

(** ** A concrete random source

    The state is a counter [k]; the [k]-th draw is [1 / (k + 2)] and the
    [k]-th shuffle reverses the range when [k] is odd. *)
Definition counter_sample (k : nat) : R * nat := ((/ (INR k + 2))%R, S k).

Definition counter_permutation (n : Z) (k : nat) : list Z * nat :=
  (if Nat.even k then range n else reverse (range n), S k).

#[global, refine] Instance counter_source : RandomSource nat := {|
  random_sample := counter_sample;
  permutation := counter_permutation
|}.
Proof.
  - intros k. simpl. pose proof (pos_INR k) as Hk.
    assert (0 < INR k + 2)%R as Hpos by lra.
    split.
    + left. by apply Rinv_0_lt_compat.
    + rewrite <- Rinv_1. apply Rinv_lt_contravar; lra.
  - intros n k. simpl.
    destruct (Nat.even k); [done | apply reverse_Permutation].
Defined.

(** ** Float literals

    A decimal literal denotes the binary64 number nearest to it. *)
Definition float_0_7 : R := fl64 (7 / 10).
Definition float_3_605551275463989 : R :=
  fl64 (3605551275463989 / 1000000000000000).

(** Writes out the powers of two of the goal. *)
Ltac pow2_values :=
  repeat match goal with
  | |- context [IZR (2 ^ ?k)] =>
      let v := eval vm_compute in (2 ^ k) in change (2 ^ k) with v
  end.

(** ** Facts about the primitives *)

Lemma Int_part_IZR z : Int_part (IZR z) = z.
Proof.
  destruct (base_Int_part (IZR z)) as [Hle Hgt].
  apply le_IZR in Hle.
  assert (IZR (z - 1) < IZR (Int_part (IZR z)))%R as Hlt
    by (rewrite minus_IZR; lra).
  apply lt_IZR in Hlt. lia.
Qed.

Lemma py_round_IZR z : py_round (IZR z) = z.
Proof.
  unfold py_round. rewrite Int_part_IZR.
  destruct (Rlt_dec _ _) as [_ | Hn]; [done | exfalso; apply Hn; lra].
Qed.

(** *** Binary64 rounding *)

Lemma IZR_pow2_pos q : 0 ≤ q → (0 < IZR (2 ^ q))%R.
Proof. intros Hq. apply IZR_lt. by apply Z.pow_pos_nonneg. Qed.

Lemma IZR_pow2_add a b :
  0 ≤ a → 0 ≤ b → IZR (2 ^ (a + b)) = (IZR (2 ^ a) * IZR (2 ^ b))%R.
Proof. intros Ha Hb. by rewrite Z.pow_add_r, mult_IZR. Qed.

Lemma Rdiv_le_iff y p c : (0 < p)%R → (y / p <= c ↔ y <= c * p)%R.
Proof.
  intros Hp. split; intros H.
  - replace y with (y / p * p)%R by (field; lra). by apply Rmult_le_compat_r; [lra |].
  - apply (Rmult_le_reg_r p); [done |].
    replace (y / p * p)%R with y by (field; lra). done.
Qed.

Lemma Rle_div_iff y p c : (0 < p)%R → (c <= y / p ↔ c * p <= y)%R.
Proof.
  intros Hp. split; intros H.
  - replace y with (y / p * p)%R by (field; lra). by apply Rmult_le_compat_r; [lra |].
  - apply (Rmult_le_reg_r p); [done |].
    replace (y / p * p)%R with y by (field; lra). done.
Qed.

Lemma Rdiv_lt_iff y p c : (0 < p)%R → (y / p < c ↔ y < c * p)%R.
Proof.
  intros Hp. split; intros H.
  - replace y with (y / p * p)%R by (field; lra). by apply Rmult_lt_compat_r.
  - apply (Rmult_lt_reg_r p); [done |].
    replace (y / p * p)%R with y by (field; lra). done.
Qed.

Lemma Rlt_div_iff y p c : (0 < p)%R → (c < y / p ↔ c * p < y)%R.
Proof.
  intros Hp. split; intros H.
  - replace y with (y / p * p)%R by (field; lra). by apply Rmult_lt_compat_r.
  - apply (Rmult_lt_reg_r p); [done |].
    replace (y / p * p)%R with y by (field; lra). done.
Qed.

Lemma Int_part_bounds r : (IZR (Int_part r) <= r < IZR (Int_part r) + 1)%R.
Proof. destruct (base_Int_part r). lra. Qed.

Lemma Int_part_unique r z : (IZR z <= r < IZR z + 1)%R → Int_part r = z.
Proof.
  intros [Hle Hlt]. pose proof (Int_part_bounds r) as [Hle' Hlt'].
  assert (IZR z < IZR (Int_part r + 1))%R as H1 by (rewrite plus_IZR; lra).
  assert (IZR (Int_part r) < IZR (z + 1))%R as H2 by (rewrite plus_IZR; lra).
  apply lt_IZR in H1, H2. lia.
Qed.

Lemma Int_part_ge r z : (IZR z <= r)%R → z ≤ Int_part r.
Proof.
  intros Hle. pose proof (Int_part_bounds r) as [_ Hlt'].
  assert (IZR z < IZR (Int_part r + 1))%R as H1 by (rewrite plus_IZR; lra).
  apply lt_IZR in H1. lia.
Qed.

Lemma Int_part_lt r z : (r < IZR z)%R → Int_part r < z.
Proof.
  intros Hlt. pose proof (Int_part_bounds r) as [Hle' _].
  apply lt_IZR. lra.
Qed.

Lemma Int_part_mono a b : (a <= b)%R → Int_part a ≤ Int_part b.
Proof.
  intros Hab. apply Int_part_ge. pose proof (Int_part_bounds a). lra.
Qed.

Lemma py_round_Int_part a : Int_part a ≤ py_round a ≤ Int_part a + 1.
Proof.
  unfold py_round. repeat destruct (Rlt_dec _ _); try lia.
  destruct (Z.even _); lia.
Qed.

Lemma py_round_bounds a :
  (IZR (py_round a) - 1 / 2 <= a <= IZR (py_round a) + 1 / 2)%R.
Proof.
  unfold py_round. pose proof (Int_part_bounds a) as [Hle Hlt].
  destruct (Rlt_dec _ _) as [H1 | H1]; [lra |].
  destruct (Rlt_dec _ _) as [H2 | H2]; [rewrite plus_IZR; lra |].
  destruct (Z.even _); [lra | rewrite plus_IZR; lra].
Qed.

Lemma py_round_near a m :
  (IZR m - 1 / 2 < a < IZR m + 1 / 2)%R → py_round a = m.
Proof.
  intros [Hlo Hhi]. pose proof (py_round_bounds a) as [Hlo' Hhi'].
  assert (IZR (m - 1) < IZR (py_round a))%R as H1 by (rewrite minus_IZR; lra).
  assert (IZR (py_round a) < IZR (m + 1))%R as H2 by (rewrite plus_IZR; lra).
  apply lt_IZR in H1, H2. lia.
Qed.

Lemma py_round_tie a n :
  a = (IZR n + 1 / 2)%R →
  py_round a = if Z.even n then n else n + 1.
Proof.
  intros ->. unfold py_round.
  assert (Int_part (IZR n + 1 / 2) = n) as -> by (apply Int_part_unique; lra).
  destruct (Rlt_dec _ _) as [H1 | H1]; [lra |].
  destruct (Rlt_dec _ _) as [H2 | H2]; [lra | done].
Qed.

Lemma py_round_mono a b : (a <= b)%R → py_round a ≤ py_round b.
Proof.
  intros Hab. pose proof (Int_part_mono a b Hab) as Hn.
  destruct (decide (Int_part a = Int_part b)) as [Heq | Hne].
  - unfold py_round. rewrite Heq.
    repeat destruct (Rlt_dec _ _); try lia; try lra.
    all: destruct (Z.even _); lia.
  - pose proof (py_round_Int_part a). pose proof (py_round_Int_part b). lia.
Qed.

Lemma py_round_ge a z : (IZR z <= a)%R → z ≤ py_round a.
Proof. intros H. rewrite <- (py_round_IZR z). by apply py_round_mono. Qed.

Lemma py_round_le a z : (a <= IZR z)%R → py_round a ≤ z.
Proof. intros H. rewrite <- (py_round_IZR z). by apply py_round_mono. Qed.

(** The exponent of the last place. *)

Lemma ulp_exponent_nonneg y : 0 ≤ ulp_exponent y.
Proof. unfold ulp_exponent. lia. Qed.

Lemma ulp_exponent_spec y :
  (0 <= y)%R →
  (y < IZR (2 ^ (ulp_exponent y + 53)))%R ∧
  (0 < ulp_exponent y → (IZR (2 ^ (ulp_exponent y + 52)) <= y)%R).
Proof.
  intros Hy. unfold ulp_exponent.
  pose proof (Int_part_bounds y) as [Hle Hlt].
  assert (0 ≤ Int_part y) as Hn by (apply Int_part_ge; lra).
  destruct (decide (Int_part y = 0)) as [H0 | H0].
  - rewrite H0 in *. change (Z.max 0 (Z.log2 0 - 52)) with 0. split; [| lia].
    assert (1 <= IZR (2 ^ (0 + 53)))%R by (apply IZR_le; by apply Z.leb_le). lra.
  - pose proof (Z.log2_spec (Int_part y) ltac:(lia)) as [Hlo Hhi].
    pose proof (Z.log2_nonneg (Int_part y)) as Hl.
    assert (y < IZR (2 ^ (Z.log2 (Int_part y) + 1)))%R as Hup.
    { assert (IZR (Int_part y + 1) <= IZR (2 ^ (Z.log2 (Int_part y) + 1)))%R
        by (apply IZR_le; rewrite <- Z.add_1_r in Hhi; lia).
      rewrite plus_IZR in *. lra. }
    split.
    + destruct (Z.max_spec 0 (Z.log2 (Int_part y) - 52)) as [[Hc ->] | [Hc ->]].
      * replace (Z.log2 (Int_part y) - 52 + 53) with (Z.log2 (Int_part y) + 1)
          by lia. done.
      * eapply Rlt_le_trans; [exact Hup |]. apply IZR_le.
        apply Z.pow_le_mono_r; lia.
    + intros Hq.
      assert (Z.max 0 (Z.log2 (Int_part y) - 52) = Z.log2 (Int_part y) - 52)
        as -> by lia.
      replace (Z.log2 (Int_part y) - 52 + 52) with (Z.log2 (Int_part y)) by lia.
      apply IZR_le in Hlo. lra.
Qed.

Lemma ulp_exponent_eq y q :
  (0 <= y)%R → 0 ≤ q →
  (q = 0 ∨ (IZR (2 ^ (q + 52)) <= y)%R) → (y < IZR (2 ^ (q + 53)))%R →
  ulp_exponent y = q.
Proof.
  intros Hy Hq Hlo Hhi. unfold ulp_exponent.
  assert (0 ≤ Int_part y) as Hn by (apply Int_part_ge; lra).
  assert (Int_part y < 2 ^ (q + 53)) as Hn2 by by apply Int_part_lt.
  destruct (decide (q = 0)) as [-> | Hq0].
  - destruct (decide (Int_part y = 0)) as [-> | H0]; [done |].
    assert (Z.log2 (Int_part y) < 53) by (apply Z.log2_lt_pow2; lia). lia.
  - destruct Hlo as [? | Hlo]; [done |]. apply Int_part_ge in Hlo.
    assert (Z.log2 (Int_part y) = q + 52) as ->; [| lia].
    apply Z.log2_unique; [lia |]. rewrite <- Z.add_1_r.
    replace (q + 52 + 1) with (q + 53) by lia. lia.
Qed.

Lemma ulp_exponent_mono y1 y2 :
  (0 <= y1 <= y2)%R → ulp_exponent y1 ≤ ulp_exponent y2.
Proof.
  intros [H1 H12]. unfold ulp_exponent.
  assert (Int_part y1 ≤ Int_part y2) as Hn by by apply Int_part_mono.
  pose proof (Z.log2_le_mono _ _ Hn). lia.
Qed.

Lemma round_units_nonneg y : (0 <= y)%R → 0 ≤ round_units y.
Proof.
  intros Hy. unfold round_units.
  pose proof (IZR_pow2_pos _ (ulp_exponent_nonneg y)) as Hpos.
  apply Z.mul_nonneg_nonneg; [| apply Z.pow_nonneg; lia].
  apply py_round_ge. simpl. apply Rmult_le_pos; [done |].
  left. by apply Rinv_0_lt_compat.
Qed.

Lemma round_units_mono y1 y2 :
  (0 <= y1 <= y2)%R → round_units y1 ≤ round_units y2.
Proof.
  intros [H1 H12].
  pose proof (ulp_exponent_mono y1 y2 (conj H1 H12)) as Hq.
  pose proof (ulp_exponent_nonneg y1) as Hq1.
  pose proof (ulp_exponent_spec y1 H1) as [Hup1 _].
  pose proof (ulp_exponent_spec y2 ltac:(lra)) as [_ Hlo2].
  unfold round_units.
  set (q1 := ulp_exponent y1) in *. set (q2 := ulp_exponent y2) in *.
  pose proof (IZR_pow2_pos q1 Hq1) as Hp1.
  pose proof (IZR_pow2_pos q2 ltac:(lia)) as Hp2.
  destruct (decide (q1 = q2)) as [Heq | Hne].
  - rewrite <- Heq. apply Z.mul_le_mono_nonneg_r; [apply Z.pow_nonneg; lia |].
    apply py_round_mono. apply Rmult_le_compat_r; [| done].
    left. by apply Rinv_0_lt_compat.
  - assert (py_round (y1 / IZR (2 ^ q1)) ≤ 2 ^ 53) as Hm1.
    { apply py_round_le. rewrite IZR_pow2_add in Hup1 by lia.
      apply Rdiv_le_iff; [done |]. lra. }
    assert (2 ^ 52 ≤ py_round (y2 / IZR (2 ^ q2))) as Hm2.
    { apply py_round_ge. specialize (Hlo2 ltac:(lia)).
      rewrite IZR_pow2_add in Hlo2 by lia.
      apply Rle_div_iff; [done |]. lra. }
    transitivity (2 ^ 53 * 2 ^ q1).
    { apply Z.mul_le_mono_nonneg_r; [apply Z.pow_nonneg; lia | done]. }
    transitivity (2 ^ 52 * 2 ^ q2).
    { rewrite <- !Z.pow_add_r by lia. apply Z.pow_le_mono_r; lia. }
    apply Z.mul_le_mono_nonneg_r; [apply Z.pow_nonneg; lia | done].
Qed.

Lemma round_units_exact m q :
  0 ≤ m < 2 ^ 53 → 0 ≤ q → round_units (IZR (m * 2 ^ q)) = m * 2 ^ q.
Proof.
  intros Hm Hq. unfold round_units.
  assert (0 < 2 ^ q) as Hpq by (apply Z.pow_pos_nonneg; lia).
  assert (ulp_exponent (IZR (m * 2 ^ q)) ≤ q) as Hle.
  { unfold ulp_exponent.
    rewrite (Int_part_unique _ (m * 2 ^ q)) by lra.
    destruct (decide (m = 0)) as [-> | Hm0]; [simpl; lia |].
    rewrite Z.log2_mul_pow2 by lia.
    assert (Z.log2 m < 53) by (apply Z.log2_lt_pow2; lia). lia. }
  pose proof (ulp_exponent_nonneg (IZR (m * 2 ^ q))) as Hge.
  set (q' := ulp_exponent (IZR (m * 2 ^ q))) in *.
  assert (m * 2 ^ q = m * 2 ^ (q - q') * 2 ^ q') as Hsplit.
  { rewrite <- Z.mul_assoc, <- Z.pow_add_r by lia. do 2 f_equal. lia. }
  rewrite Hsplit at 1. rewrite mult_IZR.
  pose proof (IZR_pow2_pos q' Hge) as Hp.
  replace (IZR (m * 2 ^ (q - q')) * IZR (2 ^ q') / IZR (2 ^ q'))%R
    with (IZR (m * 2 ^ (q - q'))) by (field; lra).
  rewrite py_round_IZR. lia.
Qed.

(** Rounding to binary64. *)

Lemma fl64_nonneg_eq x :
  (0 <= x)%R →
  fl64 x = (IZR (round_units (x * IZR (2 ^ 1074))) / IZR (2 ^ 1074))%R.
Proof.
  intros Hx. unfold fl64. destruct (Rlt_dec x 0); [lra |].
  by rewrite Rabs_pos_eq.
Qed.

Lemma fl64_neg_eq x : (x < 0)%R → fl64 x = (- fl64 (- x))%R.
Proof.
  intros Hx. unfold fl64. destruct (Rlt_dec x 0); [| lra].
  destruct (Rlt_dec (- x) 0); [lra |]. by rewrite Rabs_Ropp.
Qed.

Lemma round_units_0 : round_units 0 = 0.
Proof. apply (round_units_exact 0 0); [by split | done]. Qed.

Lemma fl64_0 : fl64 0 = 0%R.
Proof.
  rewrite fl64_nonneg_eq by lra. rewrite Rmult_0_l, round_units_0.
  unfold Rdiv. apply Rmult_0_l.
Qed.

Lemma fl64_opp x : fl64 (- x) = (- fl64 x)%R.
Proof.
  destruct (Rtotal_order x 0) as [Hx | [-> | Hx]].
  - rewrite (fl64_neg_eq x Hx). lra.
  - rewrite Ropp_0, fl64_0. lra.
  - rewrite (fl64_neg_eq (- x)) by lra. by rewrite Ropp_involutive.
Qed.

Lemma fl64_nonneg x : (0 <= x)%R → (0 <= fl64 x)%R.
Proof.
  intros Hx. rewrite fl64_nonneg_eq by done.
  pose proof (IZR_pow2_pos 1074 ltac:(lia)) as Hp.
  apply Rle_div_iff; [done |]. rewrite Rmult_0_l.
  apply (IZR_le 0). apply round_units_nonneg.
  apply Rmult_le_pos; lra.
Qed.

Lemma fl64_nonpos x : (x <= 0)%R → (fl64 x <= 0)%R.
Proof.
  intros Hx. pose proof (fl64_nonneg (- x) ltac:(lra)) as H.
  rewrite fl64_opp in H. lra.
Qed.

Lemma fl64_mono_nonneg x y : (0 <= x <= y)%R → (fl64 x <= fl64 y)%R.
Proof.
  intros [Hx Hxy]. rewrite !fl64_nonneg_eq by lra.
  pose proof (IZR_pow2_pos 1074 ltac:(lia)) as Hp.
  apply Rmult_le_compat_r; [left; by apply Rinv_0_lt_compat |].
  apply IZR_le, round_units_mono. split.
  - apply Rmult_le_pos; lra.
  - apply Rmult_le_compat_r; lra.
Qed.

(** Rounding to nearest is monotone. *)
Lemma fl64_mono x y : (x <= y)%R → (fl64 x <= fl64 y)%R.
Proof.
  intros Hxy.
  destruct (Rle_dec 0 x) as [Hx | Hx].
  - by apply fl64_mono_nonneg.
  - destruct (Rle_dec 0 y) as [Hy | Hy].
    + pose proof (fl64_nonpos x ltac:(lra)). pose proof (fl64_nonneg y Hy). lra.
    + pose proof (fl64_mono_nonneg (- y) (- x) ltac:(lra)) as H.
      rewrite !fl64_opp in H. lra.
Qed.

(** A binary64 number rounds to itself. *)
Lemma fl64_binary64 x : binary64 x → fl64 x = x.
Proof.
  intros (m & q & Hq & Hm & ->).
  pose proof (IZR_pow2_pos 1074 ltac:(lia)) as Hp.
  assert (∀ m, 0 ≤ m < 2 ^ 53 →
            fl64 (IZR (m * 2 ^ q) / IZR (2 ^ 1074))
            = (IZR (m * 2 ^ q) / IZR (2 ^ 1074))%R) as Hpos.
  { intros m' Hm'. assert (0 ≤ m' * 2 ^ q) as Hnn
      by (apply Z.mul_nonneg_nonneg; [lia | apply Z.pow_nonneg; lia]).
    apply IZR_le in Hnn. rewrite fl64_nonneg_eq.
    - replace (IZR (m' * 2 ^ q) / IZR (2 ^ 1074) * IZR (2 ^ 1074))%R
        with (IZR (m' * 2 ^ q)) by (field; lra).
      by rewrite round_units_exact.
    - apply Rle_div_iff; [done |]. lra. }
  destruct (Z_le_gt_dec 0 m) as [Hm0 | Hm0].
  - apply Hpos. lia.
  - replace (m * 2 ^ q) with (- (- m * 2 ^ q)) by lia.
    rewrite opp_IZR.
    replace (- IZR (- m * 2 ^ q) / IZR (2 ^ 1074))%R
      with (- (IZR (- m * 2 ^ q) / IZR (2 ^ 1074)))%R by (field; lra).
    rewrite fl64_opp. f_equal. apply Hpos. lia.
Qed.

Lemma binary64_scaled m k :
  Z.abs m < 2 ^ 53 → 0 ≤ k ≤ 1074 → binary64 (IZR m / IZR (2 ^ k)).
Proof.
  intros Hm Hk. exists m, (1074 - k). split; [lia |]. split; [done |].
  pose proof (IZR_pow2_pos k ltac:(lia)) as Hpk.
  pose proof (IZR_pow2_pos (1074 - k) ltac:(lia)) as Hpq.
  replace 1074 with (1074 - k + k) at 2 by lia.
  rewrite IZR_pow2_add by lia. rewrite mult_IZR. field. lra.
Qed.

Lemma binary64_pow2_mul m n :
  Z.abs m < 2 ^ 53 → 0 ≤ n → binary64 (IZR (m * 2 ^ n)).
Proof.
  intros Hm Hn. exists m, (n + 1074). split; [lia |]. split; [done |].
  pose proof (IZR_pow2_pos 1074 ltac:(lia)) as Hp.
  rewrite Z.pow_add_r by lia. rewrite Z.mul_assoc, (mult_IZR _ (2 ^ 1074)).
  field. lra.
Qed.

Lemma binary64_IZR z : Z.abs z ≤ 2 ^ 53 → binary64 (IZR z).
Proof.
  intros Hz. destruct (decide (Z.abs z = 2 ^ 53)) as [Heq | Hne].
  - assert (z = 2 ^ 52 * 2 ^ 1 ∨ z = - 2 ^ 52 * 2 ^ 1) as [-> | ->] by lia;
      apply binary64_pow2_mul; by try lia.
  - replace z with (z * 2 ^ 0) by lia. apply binary64_pow2_mul; lia.
Qed.

Lemma fl64_IZR z : Z.abs z ≤ 2 ^ 53 → fl64 (IZR z) = IZR z.
Proof. intros Hz. by apply fl64_binary64, binary64_IZR. Qed.

Lemma fl64_pow2 n : 0 ≤ n → fl64 (IZR (2 ^ n)) = IZR (2 ^ n).
Proof.
  intros Hn. apply fl64_binary64. replace (2 ^ n) with (1 * 2 ^ n) by lia.
  apply binary64_pow2_mul; [| done]. apply Z.ltb_lt. reflexivity.
Qed.

(** Evaluating a rounding: when [x * 2^k] lies in [[2^52, 2^53)], the
    last place of [x] is [2^-k]. *)
Lemma fl64_scaled x k m :
  0 ≤ k ≤ 1074 →
  (IZR (2 ^ 52) <= x * IZR (2 ^ k) < IZR (2 ^ 53))%R →
  py_round (x * IZR (2 ^ k)) = m →
  fl64 x = (IZR m / IZR (2 ^ k))%R.
Proof.
  intros Hk [Hlo Hhi] Hm.
  pose proof (IZR_pow2_pos k ltac:(lia)) as Hpk.
  pose proof (IZR_pow2_pos (1074 - k) ltac:(lia)) as Hpq.
  pose proof (IZR_pow2_pos 1074 ltac:(lia)) as Hp.
  pose proof (IZR_pow2_pos 52 ltac:(lia)) as Hp52.
  assert (IZR (2 ^ 1074) = IZR (2 ^ (1074 - k)) * IZR (2 ^ k))%R as Hsplit.
  { rewrite <- IZR_pow2_add by lia. do 2 f_equal. lia. }
  assert (0 < x)%R as Hx.
  { apply (Rmult_lt_reg_r (IZR (2 ^ k))); [done |]. lra. }
  rewrite fl64_nonneg_eq by lra. unfold round_units.
  rewrite (ulp_exponent_eq _ (1074 - k)).
  - rewrite Hsplit.
    replace (x * (IZR (2 ^ (1074 - k)) * IZR (2 ^ k)) / IZR (2 ^ (1074 - k)))%R
      with (x * IZR (2 ^ k))%R by (field; lra).
    rewrite Hm, mult_IZR. field. lra.
  - apply Rmult_le_pos; lra.
  - lia.
  - right. rewrite IZR_pow2_add by lia. rewrite Hsplit.
    replace (x * (IZR (2 ^ (1074 - k)) * IZR (2 ^ k)))%R
      with (IZR (2 ^ (1074 - k)) * (x * IZR (2 ^ k)))%R by ring.
    apply Rmult_le_compat_l; lra.
  - rewrite IZR_pow2_add by lia. rewrite Hsplit.
    replace (x * (IZR (2 ^ (1074 - k)) * IZR (2 ^ k)))%R
      with (IZR (2 ^ (1074 - k)) * (x * IZR (2 ^ k)))%R by ring.
    apply Rmult_lt_compat_l; lra.
Qed.

(** The same above [2^53], where the last place is [2^k]. *)
Lemma fl64_scaled_up x k m :
  0 ≤ k →
  (IZR (2 ^ 52) <= x / IZR (2 ^ k) < IZR (2 ^ 53))%R →
  py_round (x / IZR (2 ^ k)) = m →
  fl64 x = IZR (m * 2 ^ k).
Proof.
  intros Hk [Hlo Hhi] Hm.
  pose proof (IZR_pow2_pos k Hk) as Hpk.
  pose proof (IZR_pow2_pos 1074 ltac:(lia)) as Hp.
  pose proof (IZR_pow2_pos 52 ltac:(lia)) as Hp52.
  apply (Rle_div_iff _ _ _ Hpk) in Hlo. apply (Rdiv_lt_iff _ _ _ Hpk) in Hhi.
  assert (0 < x)%R as Hx by nra.
  rewrite fl64_nonneg_eq by lra. unfold round_units.
  rewrite (ulp_exponent_eq _ (1074 + k)).
  - rewrite (IZR_pow2_add 1074 k) by lia.
    replace (x * IZR (2 ^ 1074) / (IZR (2 ^ 1074) * IZR (2 ^ k)))%R
      with (x / IZR (2 ^ k))%R by (field; lra).
    rewrite Hm, !mult_IZR, (IZR_pow2_add 1074 k) by lia. field. lra.
  - apply Rmult_le_pos; lra.
  - lia.
  - right. replace (1074 + k + 52) with (1074 + (52 + k)) by lia.
    rewrite (IZR_pow2_add 1074 (52 + k)), (IZR_pow2_add 52 k) by lia. nra.
  - replace (1074 + k + 53) with (1074 + (53 + k)) by lia.
    rewrite (IZR_pow2_add 1074 (53 + k)), (IZR_pow2_add 53 k) by lia. nra.
Qed.

(** *** Conversions, square roots and [int] *)

Lemma float_of_int_small z : Z.abs z ≤ 2 ^ 53 → float_of_int z = IZR z.
Proof. apply fl64_IZR. Qed.

Lemma float_of_int_mono a b : a ≤ b → (float_of_int a <= float_of_int b)%R.
Proof. intros Hab. apply fl64_mono. by apply IZR_le. Qed.

Lemma float_of_int_0 : float_of_int 0 = 0%R.
Proof. apply fl64_0. Qed.

Lemma float_of_int_nonneg z : 0 ≤ z → (0 <= float_of_int z)%R.
Proof. intros Hz. apply fl64_nonneg. by apply (IZR_le 0). Qed.

(** A small integer stays below, or above, the conversion of every integer
    on its side. *)
Lemma float_of_int_ge n z :
  Z.abs n ≤ 2 ^ 53 → n ≤ z → (IZR n <= float_of_int z)%R.
Proof.
  intros Hn Hnz. rewrite <- (float_of_int_small n Hn).
  by apply float_of_int_mono.
Qed.

Lemma float_of_int_le n z :
  Z.abs n ≤ 2 ^ 53 → z ≤ n → (float_of_int z <= IZR n)%R.
Proof.
  intros Hn Hnz. rewrite <- (float_of_int_small n Hn).
  by apply float_of_int_mono.
Qed.

Lemma float_of_int_pos z : 1 ≤ z → (1 <= float_of_int z)%R.
Proof. intros Hz. by apply (float_of_int_ge 1); [apply Z.leb_le |]. Qed.

Lemma np_sqrt_mono x y : (x <= y)%R → (np_sqrt x <= np_sqrt y)%R.
Proof. intros Hxy. apply fl64_mono. by apply sqrt_le_1_alt. Qed.

Lemma np_sqrt_0 : np_sqrt 0 = 0%R.
Proof. unfold np_sqrt. rewrite sqrt_0. apply fl64_0. Qed.

Lemma np_sqrt_1 : np_sqrt 1 = 1%R.
Proof. unfold np_sqrt. rewrite sqrt_1. by apply (fl64_IZR 1), Z.leb_le. Qed.

Lemma np_sqrt_nonneg x : (0 <= np_sqrt x)%R.
Proof. apply fl64_nonneg, sqrt_pos. Qed.

Lemma np_sqrt_ge_1 x : (1 <= x)%R → (1 <= np_sqrt x)%R.
Proof. intros Hx. rewrite <- np_sqrt_1. by apply np_sqrt_mono. Qed.

(** The square root of the square of a small integer is exact. *)
Lemma np_sqrt_square n :
  0 ≤ n ≤ 2 ^ 53 → np_sqrt (IZR (n * n)) = IZR n.
Proof.
  intros Hn. unfold np_sqrt. rewrite mult_IZR, sqrt_square by (apply IZR_le; lia).
  apply fl64_IZR. lia.
Qed.

Lemma computed_distance_nonneg grid_size i j :
  (0 <= computed_distance grid_size i j)%R.
Proof. apply np_sqrt_nonneg. Qed.

Lemma computed_distance_centre grid_size :
  computed_distance grid_size (grid_size `div` 2) (grid_size `div` 2) = 0%R.
Proof.
  unfold computed_distance.
  replace ((grid_size `div` 2 - grid_size `div` 2) ^ 2
           + (grid_size `div` 2 - grid_size `div` 2) ^ 2) with 0 by lia.
  rewrite float_of_int_0. apply np_sqrt_0.
Qed.

Lemma computed_distance_off_centre grid_size i j :
  ¬ (i = grid_size `div` 2 ∧ j = grid_size `div` 2) →
  (1 <= computed_distance grid_size i j)%R.
Proof.
  intros Hne. unfold computed_distance.
  apply np_sqrt_ge_1, float_of_int_pos. nia.
Qed.

Lemma py_int_nonneg x : (0 <= x)%R → py_int x = Int_part x ∧ 0 ≤ Int_part x.
Proof.
  intros Hx. unfold py_int. destruct (Rle_dec 0 x) as [_ | ?]; [| done].
  split; [done |].
  destruct (base_Int_part x) as [_ Hgt].
  assert (IZR (-1) < IZR (Int_part x))%R as Hlt by (simpl; lra).
  apply lt_IZR in Hlt. lia.
Qed.

Lemma Int_part_le_IZR x z : (x <= IZR z)%R → Int_part x ≤ z.
Proof.
  intros Hx. destruct (base_Int_part x) as [Hle _].
  apply le_IZR. lra.
Qed.

Lemma Rleb_true x y : Rleb x y = true ↔ (x <= y)%R.
Proof. unfold Rleb. destruct (Rle_dec x y); split; (done || lra). Qed.

Lemma Rltb_true x y : Rltb x y = true ↔ (x < y)%R.
Proof. unfold Rltb. destruct (Rlt_dec x y); split; (done || lra). Qed.

Lemma isinf_small x : (Rabs x < IZR (2 ^ 1024))%R → isinf x = false.
Proof.
  intros Hx. unfold isinf, Rleb. destruct (Rle_dec _ _); [lra | done].
Qed.

Lemma isinf_true x : isinf x = true ↔ (IZR (2 ^ 1024) <= Rabs x)%R.
Proof. unfold isinf. apply Rleb_true. Qed.

Lemma float_of_int_finite z :
  Z.abs z ≤ 2 ^ 53 → isinf (float_of_int z) = false.
Proof.
  intros Hz. rewrite float_of_int_small by done. apply isinf_small.
  rewrite <- abs_IZR. apply IZR_lt.
  apply (Z.le_lt_trans _ (2 ^ 53)); [done | by apply Z.ltb_lt].
Qed.

Lemma int_mul_float_finite n x :
  isinf (float_of_int n) = false →
  int_mul_float n x = Ok (float_mul (float_of_int n) x).
Proof. intros Hn. unfold int_mul_float. by rewrite Hn. Qed.

(** [int(N * f)]: when it raises, and what it returns. *)
Lemma sample_size_finite N f :
  isinf (float_of_int N) = false →
  isinf (float_mul (float_of_int N) f) = false →
  sample_size N f = Ok (demotion_count N f).
Proof.
  intros HN Hp. unfold sample_size, int_mul_float, int_of_float.
  by rewrite HN, Hp.
Qed.

Lemma sample_size_overflow N f :
  isinf (float_of_int N) = true ∨ isinf (float_mul (float_of_int N) f) = true →
  sample_size N f = Raise OverflowError.
Proof.
  intros Hinf. unfold sample_size, int_mul_float, int_of_float.
  destruct (isinf (float_of_int N)); [done |].
  destruct Hinf as [Hinf | Hinf]; [done | by rewrite Hinf].
Qed.

Lemma elem_of_range n i : i ∈ range n ↔ 0 ≤ i < n.
Proof. unfold range. rewrite elem_of_seqZ. lia. Qed.

Lemma elem_of_range2 a b j : j ∈ range2 a b ↔ a ≤ j < b.
Proof. unfold range2. rewrite elem_of_seqZ. lia. Qed.

Lemma NoDup_range n : NoDup (range n).
Proof. apply NoDup_seqZ. Qed.

Lemma length_range n : 0 ≤ n → Z.of_nat (length (range n)) = n.
Proof. intros. unfold range. rewrite length_seqZ. lia. Qed.

(** *** Allocation *)

Lemma np_full_ok n m v :
  0 ≤ n → 0 ≤ m →
  np_full n m v = Ok (replicate (Z.to_nat n) (replicate (Z.to_nat m) v)).
Proof.
  intros Hn Hm. unfold np_full.
  destruct (n <? 0) eqn:E1; [lia |]. destruct (m <? 0) eqn:E2; [lia | done].
Qed.

Lemma np_full_negative n m v : n < 0 ∨ m < 0 → np_full n m v = Raise ValueError.
Proof.
  intros Hneg. unfold np_full.
  destruct (n <? 0) eqn:E1; [done |]. destruct (m <? 0) eqn:E2; [done | lia].
Qed.

Lemma has_shape_full n m v :
  0 ≤ n → 0 ≤ m →
  has_shape (replicate (Z.to_nat n) (replicate (Z.to_nat m) v)) n m.
Proof.
  intros Hn Hm. split.
  - rewrite length_replicate. lia.
  - apply Forall_replicate. rewrite length_replicate. lia.
Qed.

Lemma cell_at_full n m v i j :
  0 ≤ i < n → 0 ≤ j < m →
  cell_at (replicate (Z.to_nat n) (replicate (Z.to_nat m) v)) i j = Some v.
Proof.
  intros Hi Hj. unfold cell_at.
  destruct (i <? 0) eqn:E1; [lia |]. destruct (j <? 0) eqn:E2; [lia |].
  simpl. rewrite lookup_replicate_2 by lia. simpl.
  apply lookup_replicate_2. lia.
Qed.

(** *** Writing one cell *)

Lemma norm_index_in_range len i :
  0 ≤ i < Z.of_nat len → norm_index len i = Ok (Z.to_nat i).
Proof.
  intros Hi. unfold norm_index.
  destruct (0 <=? i) eqn:E1; [| lia]. destruct (i <? Z.of_nat len) eqn:E2; [done | lia].
Qed.

Lemma setitem_spec gr n m i j v :
  has_shape gr n m → 0 ≤ i < n → 0 ≤ j < m →
  ∃ gr', setitem gr i j v = Ok gr' ∧ has_shape gr' n m ∧
    ∀ i' j', cell_at gr' i' j' =
             if bool_decide (i' = i ∧ j' = j) then Some v else cell_at gr i' j'.
Proof.
  intros [Hlen Hrows] Hi Hj. unfold setitem.
  rewrite norm_index_in_range by lia.
  destruct (lookup_lt_is_Some_2 gr (Z.to_nat i)) as [row Hrow]; [lia |].
  rewrite Hrow.
  assert (Z.of_nat (length row) = m) as Hrowlen.
  { rewrite Forall_lookup in Hrows. by apply (Hrows _ _ Hrow). }
  rewrite norm_index_in_range by lia.
  eexists. split; [done |]. split.
  - split; [by rewrite length_insert |].
    apply Forall_insert; [done |]. by rewrite length_insert.
  - intros i' j'. unfold cell_at.
    destruct ((i' <? 0) || (j' <? 0)) eqn:Eneg.
    { case_bool_decide; [| done]. apply orb_true_iff in Eneg. lia. }
    apply orb_false_iff in Eneg as [Ei' Ej'].
    destruct (decide (Z.to_nat i' = Z.to_nat i)) as [Heqi | Hnei].
    + rewrite Heqi. rewrite list_lookup_insert_eq by lia. rewrite Hrow. simpl.
      destruct (decide (Z.to_nat j' = Z.to_nat j)) as [Heqj | Hnej].
      * rewrite Heqj. rewrite list_lookup_insert_eq by lia.
        case_bool_decide; [done | lia].
      * rewrite list_lookup_insert_ne by done.
        case_bool_decide; [lia | done].
    + rewrite list_lookup_insert_ne by done.
      case_bool_decide; [lia | done].
Qed.

(** *** Writing a slice of a row *)

Lemma setslice_spec gr n m i a b v :
  has_shape gr n m → 0 ≤ i < n → 0 ≤ a → 0 ≤ b →
  ∃ gr', setslice gr i a b v = Ok gr' ∧ has_shape gr' n m ∧
    ∀ i' j', 0 ≤ i' < n → 0 ≤ j' < m →
      cell_at gr' i' j' =
      if bool_decide (i' = i ∧ a ≤ j' < b) then Some v else cell_at gr i' j'.
Proof.
  intros [Hlen Hrows] Hi Ha Hb. unfold setslice.
  rewrite norm_index_in_range by lia.
  destruct (lookup_lt_is_Some_2 gr (Z.to_nat i)) as [row Hrow]; [lia |].
  rewrite Hrow.
  assert (Z.of_nat (length row) = m) as Hrowlen.
  { rewrite Forall_lookup in Hrows. by apply (Hrows _ _ Hrow). }
  eexists. split; [done |]. split.
  - split; [by rewrite length_insert |].
    apply Forall_insert; [done |]. by rewrite length_imap.
  - intros i' j' Hi' Hj'. unfold cell_at.
    destruct (i' <? 0) eqn:E1; [lia |]. destruct (j' <? 0) eqn:E2; [lia |].
    simpl.
    destruct (decide (Z.to_nat i' = Z.to_nat i)) as [Heqi | Hnei].
    + rewrite Heqi. rewrite list_lookup_insert_eq by lia. rewrite Hrow. simpl.
      rewrite list_lookup_imap.
      destruct (lookup_lt_is_Some_2 row (Z.to_nat j')) as [c Hc]; [lia |].
      rewrite Hc. simpl. unfold slice_bound.
      destruct (a <? 0) eqn:E3; [lia |]. destruct (b <? 0) eqn:E4; [lia |].
      repeat case_bool_decide; (done || lia).
    + rewrite list_lookup_insert_ne by done.
      case_bool_decide; [lia | done].
Qed.

(** ** Reasoning about the monad and its loops *)

Section Loops.
Context {G : Type} `{RandomSource G}.

Lemma bind_Ok {A B} (m : M G A) (k : A → M G B) g a g' :
  m g = Ok (a, g') → bind m k g = k a g'.
Proof. intros Hm. unfold bind. by rewrite Hm. Qed.

Lemma bind_Raise {A B} (m : M G A) (k : A → M G B) g e :
  m g = Raise e → bind m k g = Raise e.
Proof. intros Hm. unfold bind. by rewrite Hm. Qed.

Lemma bind_lift_Ok {A B} (r : result A) (k : A → M G B) a g :
  r = Ok a → bind (lift r) k g = k a g.
Proof. by intros ->. Qed.

(** The invariant rule for a [for] loop: [Inv done s g] relates the items
    already processed to the loop state and the random state. *)
Lemma for_each_inv {I S} (Inv : list I → S → G → Prop)
    (body : I → S → M G S) (l : list I) (s0 : S) (g0 : G) :
  (∀ done i rest s g, l = done ++ i :: rest → Inv done s g →
     ∃ s' g', body i s g = Ok (s', g') ∧ Inv (done ++ [i]) s' g') →
  Inv [] s0 g0 →
  ∃ s' g', for_each l body s0 g0 = Ok (s', g') ∧ Inv l s' g'.
Proof.
  intros Hbody.
  assert (∀ rest done s g, l = done ++ rest → Inv done s g →
            ∃ s' g', for_each rest body s g = Ok (s', g') ∧ Inv l s' g') as Hgen.
  { induction rest as [| i rest IH]; intros done s g Hl Hinv.
    - exists s, g. rewrite app_nil_r in Hl. subst l. done.
    - destruct (Hbody done i rest s g Hl Hinv) as (s1 & g1 & Hstep & Hinv1).
      simpl. rewrite (bind_Ok _ _ _ _ _ Hstep).
      apply (IH (done ++ [i])); [| done].
      by rewrite <- app_assoc. }
  intros Hinv. by apply (Hgen l []).
Qed.

Lemma for_each_lift {I S} (l : list I) (body : I → S → M G S)
    (pure : I → S → result S) :
  (∀ i s g, body i s g = lift (pure i s) g) →
  ∀ s g, for_each l body s g = lift (for_each_pure l pure s) g.
Proof.
  intros Hbody. induction l as [| i l IH]; intros s g; [done |].
  simpl. unfold bind. rewrite Hbody. unfold lift at 1.
  destruct (pure i s) as [s' | e]; [apply IH | done].
Qed.

End Loops.

(** ** The sunflower generator *)

Section Sunflower.
Context {G : Type} `{RandomSource G}.

Lemma sunflower_cell_not_Empty randomize f passive g :
  (sunflower_cell randomize f passive g).1 ≠ Empty.
Proof.
  unfold sunflower_cell. destruct randomize; [| done].
  destruct (random_sample g) as [u g']. simpl.
  by destruct (Rltb u f && passive).
Qed.

(** With at least one point requested, the loop body runs for [i = 0],
    writes the centre cell and returns. *)
Lemma sunflower_first_point n_points radius grid_size randomize f passive g :
  1 ≤ n_points → 1 ≤ grid_size →
  ∃ grid,
    create_sunflower_array n_points radius grid_size randomize f passive g
    = Ok (Some grid, (sunflower_cell randomize f passive g).2) ∧
    has_shape grid grid_size grid_size ∧
    ∀ i j, 0 ≤ i < grid_size → 0 ≤ j < grid_size →
      cell_at grid i j =
      Some (if bool_decide (i = grid_size `div` 2 ∧ j = grid_size `div` 2)
            then (sunflower_cell randomize f passive g).1 else Empty).
Proof.
  intros Hn Hgs.
  assert (0 ≤ grid_size `div` 2 < grid_size) as Hc.
  { split; [apply Z.div_pos; lia | apply Z.div_lt_upper_bound; lia]. }
  destruct (setitem_spec
              (replicate (Z.to_nat grid_size) (replicate (Z.to_nat grid_size) Empty))
              grid_size grid_size (grid_size `div` 2) (grid_size `div` 2)
              (sunflower_cell randomize f passive g).1)
    as (grid & Hset & Hshape & Hcells); [apply has_shape_full; lia | done | done |].
  exists grid. split; [| split; [done |]].
  - unfold create_sunflower_array.
    rewrite np_full_ok by lia. unfold range. rewrite seqZ_cons by lia.
    cbn [for_each_ctl]. unfold bind at 1 2. cbn [lift].
    replace (radius * sqrt (0 / IZR n_points))%R with 0%R; cycle 1.
    { unfold Rdiv. rewrite Rmult_0_l, sqrt_0. lra. }
    rewrite !Rmult_0_l, Rplus_0_r, py_round_IZR.
    assert ((0 <=? grid_size `div` 2) && (grid_size `div` 2 <? grid_size)
            && (0 <=? grid_size `div` 2) && (grid_size `div` 2 <? grid_size)
            = true) as ->.
    { destruct (0 <=? grid_size `div` 2) eqn:E1; [| lia].
      destruct (grid_size `div` 2 <? grid_size) eqn:E2; [done | lia]. }
    unfold sunflower_cell in *.
    unfold sunflower_point_value, bind, rand, ret, lift.
    destruct randomize.
    + destruct (random_sample g) as [u g']. simpl in *. by rewrite Hset.
    + simpl in *. by rewrite Hset.
  - intros i j Hi Hj. rewrite Hcells.
    case_bool_decide; [done |]. by apply cell_at_full.
Qed.

End Sunflower.

(** ** Counting cells *)

Lemma elem_of_positions n m i j :
  (i, j) ∈ positions n m ↔ (0 ≤ i < n ∧ 0 ≤ j < m).
Proof.
  unfold positions. rewrite list_elem_of_bind. split.
  - intros (i' & Hin & Hi'). apply list_elem_of_fmap in Hin as (j' & Heq & Hj').
    inversion Heq; subst. by rewrite elem_of_range in Hi', Hj'.
  - intros [Hi Hj]. exists i. rewrite elem_of_range. split; [| done].
    apply list_elem_of_fmap. exists j. by rewrite elem_of_range.
Qed.

Lemma NoDup_positions n m : NoDup (positions n m).
Proof.
  unfold positions. apply NoDup_bind.
  - intros i1 i2 [a b] _ _ H1 H2.
    apply list_elem_of_fmap in H1 as (? & Heq1 & _).
    apply list_elem_of_fmap in H2 as (? & Heq2 & _). congruence.
  - intros i _. apply NoDup_fmap_2_strong; [| apply NoDup_range]. congruence.
  - apply NoDup_range.
Qed.

Lemma grid_rows gr n m :
  has_shape gr n m →
  gr = (λ i, (λ j, cell_or_empty gr (i, j)) <$> range m) <$> range n.
Proof.
  intros [Hlen Hrows]. apply list_eq. intros r.
  rewrite list_lookup_fmap. unfold range.
  destruct (decide (r < length gr)%nat) as [Hlt | Hge].
  - rewrite lookup_seqZ_lt by lia. simpl.
    destruct (lookup_lt_is_Some_2 gr r) as [row Hrow]; [done |].
    rewrite Hrow. f_equal.
    assert (Z.of_nat (length row) = m) as Hrowlen.
    { rewrite Forall_lookup in Hrows. by apply (Hrows _ _ Hrow). }
    apply list_eq. intros c. rewrite list_lookup_fmap.
    destruct (decide (c < length row)%nat) as [Hclt | Hcge].
    + rewrite lookup_seqZ_lt by lia. simpl.
      unfold cell_or_empty, cell_at. simpl. rewrite !Z.add_0_l.
      destruct (Z.of_nat r <? 0) eqn:E1; [lia |].
      destruct (Z.of_nat c <? 0) eqn:E2; [lia |]. simpl.
      rewrite !Nat2Z.id, Hrow. simpl.
      by destruct (lookup_lt_is_Some_2 row c) as [x ->].
    + rewrite lookup_seqZ_ge by lia. simpl. apply lookup_ge_None. lia.
  - rewrite lookup_seqZ_ge by lia. simpl. apply lookup_ge_None. lia.
Qed.

Lemma mjoin_fmap_positions {A} (h : Z * Z → A) (l k : list Z) :
  mjoin ((λ i, (λ j, h (i, j)) <$> k) <$> l)
  = h <$> (l ≫= λ i, (λ j, (i, j)) <$> k).
Proof.
  induction l as [| i l IH]; [done |].
  csimpl. rewrite fmap_app, IH. f_equal.
  by rewrite <- list_fmap_compose.
Qed.

Lemma mjoin_positions gr n m :
  has_shape gr n m → mjoin gr = cell_or_empty gr <$> positions n m.
Proof.
  intros Hshape. rewrite (grid_rows gr n m Hshape) at 1.
  apply mjoin_fmap_positions.
Qed.

Lemma length_filter_fmap {A B} (f : A → B) (Q : B → Prop)
    `{!∀ b, Decision (Q b)} (l : list A) :
  length (filter Q (f <$> l)) = length (filter (λ a, Q (f a)) l).
Proof.
  induction l as [| a l IH]; [done |].
  csimpl. rewrite !filter_cons. destruct (decide (Q (f a))); simpl; lia.
Qed.

(** If the cells satisfying [Q] are exactly those at the (distinct)
    positions [ps], there are [length ps] of them. *)
Lemma count_filter_grid gr n m (Q : cell → Prop) `{!∀ c, Decision (Q c)}
    (ps : list (Z * Z)) :
  has_shape gr n m → NoDup ps →
  (∀ i j, (i, j) ∈ ps ↔ (0 ≤ i < n ∧ 0 ≤ j < m) ∧ Q (cell_or_empty gr (i, j))) →
  length (filter Q (mjoin gr)) = length ps.
Proof.
  intros Hshape Hnodup Hps.
  rewrite (mjoin_positions gr n m Hshape), length_filter_fmap.
  apply Permutation_length, NoDup_Permutation; [| done |].
  - apply NoDup_filter, NoDup_positions.
  - intros [i j]. rewrite list_elem_of_filter, elem_of_positions, Hps. tauto.
Qed.

Lemma cell_or_empty_Some gr i j c :
  cell_at gr i j = Some c → cell_or_empty gr (i, j) = c.
Proof. unfold cell_or_empty. simpl. by intros ->. Qed.

(** ** Properties of the sunflower generator *)

Section SunflowerClaims.
Context {G : Type} `{RandomSource G}.

Lemma sunflower_point_value_run randomize f passive (g : G) :
  sunflower_point_value randomize f passive g
  = Ok (sunflower_cell randomize f passive g).
Proof.
  unfold sunflower_point_value, sunflower_cell, bind, rand, ret.
  destruct randomize; [| done]. by destruct (random_sample g).
Qed.

(** A grid whose only non-[Empty] cell is one given cell. *)
Lemma count_non_empty_single gr n ci cj v :
  has_shape gr n n → 0 ≤ ci < n → 0 ≤ cj < n → v ≠ Empty →
  (∀ i j, 0 ≤ i < n → 0 ≤ j < n →
     cell_at gr i j = Some (if bool_decide (i = ci ∧ j = cj) then v else Empty)) →
  count_non_empty gr = 1%nat.
Proof.
  intros Hshape Hci Hcj Hv Hcells. unfold count_non_empty.
  rewrite (count_filter_grid gr n n _ [(ci, cj)]); [done | done | |].
  - apply NoDup_singleton.
  - intros i j. rewrite list_elem_of_singleton. split.
    + intros [= -> ->]. split; [done |].
      rewrite (cell_or_empty_Some _ _ _ _ (Hcells ci cj Hci Hcj)).
      by rewrite bool_decide_eq_true_2.
    + intros [[Hi Hj] Hne].
      rewrite (cell_or_empty_Some _ _ _ _ (Hcells i j Hi Hj)) in Hne.
      case_bool_decide as Hij; [| done]. by destruct Hij as [-> ->].
Qed.

(** C2: with [n_points >= 1] and [grid_size >= 1] (and any radius), the
    sunflower generator returns after the first point of the spiral: it
    returns a [grid_size] x [grid_size] grid with at most one non-Empty cell,
    whatever [n_points] is. *)
Theorem sunflower_at_most_one_cell
    n_points radius grid_size randomize empty_fraction passive (g : G) :
  1 ≤ n_points → (0 <= radius)%R → 1 ≤ grid_size →
  ∃ grid g',
    create_sunflower_array n_points radius grid_size
      randomize empty_fraction passive g = Ok (Some grid, g') ∧
    has_shape grid grid_size grid_size ∧
    (count_non_empty grid ≤ 1)%nat.
Proof.
  intros Hn _ Hgs.
  destruct (sunflower_first_point n_points radius grid_size randomize
              empty_fraction passive g Hn Hgs) as (grid & Hrun & Hshape & Hcells).
  exists grid, (sunflower_cell randomize empty_fraction passive g).2.
  split; [done |]. split; [done |].
  assert (0 ≤ grid_size `div` 2 < grid_size) as Hc.
  { split; [apply Z.div_pos; lia | apply Z.div_lt_upper_bound; lia]. }
  rewrite (count_non_empty_single grid grid_size _ _ _ Hshape Hc Hc
             (sunflower_cell_not_Empty randomize empty_fraction passive g) Hcells).
  done.
Qed.

(** C10: with [n_points >= 1], [radius >= 0] and [grid_size >= 1] the grid
    returned by the sunflower generator has exactly one non-Empty cell, and
    it is the centre cell [(grid_size // 2, grid_size // 2)]: the first point
    has [r = 0] and rounds to the centre, which is inside the grid. *)
Theorem sunflower_single_cell_at_center
    n_points radius grid_size randomize empty_fraction passive (g : G) :
  1 ≤ n_points → (0 <= radius)%R → 1 ≤ grid_size →
  ∃ grid g' v,
    create_sunflower_array n_points radius grid_size
      randomize empty_fraction passive g = Ok (Some grid, g') ∧
    has_shape grid grid_size grid_size ∧
    count_non_empty grid = 1%nat ∧
    0 ≤ grid_size `div` 2 < grid_size ∧
    cell_at grid (grid_size `div` 2) (grid_size `div` 2) = Some v ∧
    v ≠ Empty ∧
    ∀ i j, 0 ≤ i < grid_size → 0 ≤ j < grid_size →
      ¬ (i = grid_size `div` 2 ∧ j = grid_size `div` 2) →
      cell_at grid i j = Some Empty.
Proof.
  intros Hn _ Hgs.
  destruct (sunflower_first_point n_points radius grid_size randomize
              empty_fraction passive g Hn Hgs) as (grid & Hrun & Hshape & Hcells).
  assert (0 ≤ grid_size `div` 2 < grid_size) as Hc.
  { split; [apply Z.div_pos; lia | apply Z.div_lt_upper_bound; lia]. }
  pose proof (sunflower_cell_not_Empty randomize empty_fraction passive g) as Hv.
  exists grid, (sunflower_cell randomize empty_fraction passive g).2,
    (sunflower_cell randomize empty_fraction passive g).1.
  split; [done |]. split; [done |].
  split.
  { by apply (count_non_empty_single grid grid_size (grid_size `div` 2)
                (grid_size `div` 2) (sunflower_cell randomize empty_fraction passive g).1). }
  split; [done |].
  split; [rewrite (Hcells _ _ Hc Hc); by rewrite bool_decide_eq_true_2 |].
  split; [done |].
  - intros i j Hi Hj Hne. rewrite (Hcells _ _ Hi Hj).
    by rewrite bool_decide_eq_false_2.
Qed.

(** C7: the value written for a placed sunflower point is Passive exactly
    when [randomize] is set, the draw is below [empty_fraction] and
    [passive] is set, and Active otherwise; the generator writes that value
    at the centre, so with [passive = False] the centre stays Active and no
    cell of the returned grid is Passive, even when the draw fires. *)
Theorem sunflower_passive_needs_all_three
    n_points radius grid_size randomize empty_fraction passive (g : G) :
  1 ≤ n_points → 1 ≤ grid_size →
  ∃ grid g' v,
    sunflower_point_value randomize empty_fraction passive g = Ok (v, g') ∧
    create_sunflower_array n_points radius grid_size
      randomize empty_fraction passive g = Ok (Some grid, g') ∧
    cell_at grid (grid_size `div` 2) (grid_size `div` 2) = Some v ∧
    (v = Passive ↔
       randomize = true ∧ ((random_sample g).1 < empty_fraction)%R ∧
       passive = true) ∧
    (v = Active ↔
       ¬ (randomize = true ∧ ((random_sample g).1 < empty_fraction)%R ∧
          passive = true)) ∧
    (passive = false →
       v = Active ∧
       ∀ i j, 0 ≤ i < grid_size → 0 ≤ j < grid_size →
         cell_at grid i j ≠ Some Passive).
Proof.
  intros Hn Hgs.
  destruct (sunflower_first_point n_points radius grid_size randomize
              empty_fraction passive g Hn Hgs) as (grid & Hrun & Hshape & Hcells).
  assert (0 ≤ grid_size `div` 2 < grid_size) as Hc.
  { split; [apply Z.div_pos; lia | apply Z.div_lt_upper_bound; lia]. }
  exists grid, (sunflower_cell randomize empty_fraction passive g).2,
    (sunflower_cell randomize empty_fraction passive g).1.
  split; [by rewrite sunflower_point_value_run; destruct (sunflower_cell _ _ _ _) |].
  split; [done |].
  split; [rewrite (Hcells _ _ Hc Hc); by rewrite bool_decide_eq_true_2 |].
  assert ((sunflower_cell randomize empty_fraction passive g).1 =
          if randomize && Rltb (random_sample g).1 empty_fraction && passive
          then Passive else Active) as Hval.
  { unfold sunflower_cell. destruct randomize; [| done].
    by destruct (random_sample g). }
  assert (randomize && Rltb (random_sample g).1 empty_fraction && passive = true
          ↔ randomize = true ∧ ((random_sample g).1 < empty_fraction)%R ∧
            passive = true) as Hiff.
  { rewrite !andb_true_iff, Rltb_true. tauto. }
  split; [| split].
  - rewrite Hval, <- Hiff.
    destruct (randomize && _ && passive); split; done.
  - rewrite Hval, <- Hiff.
    destruct (randomize && _ && passive); split; (done || tauto).
  - intros ->. rewrite Hval, andb_false_r. split; [done |].
    intros i j Hi Hj. rewrite (Hcells _ _ Hi Hj), Hval, andb_false_r.
    by case_bool_decide.
Qed.

End SunflowerClaims.

(** ** Scanning a square grid

    The circular and the octagonal generator visit every cell of the grid
    once, row by row, and write the cells inside their shape. *)

Section Scan.
Context {G : Type} `{RandomSource G}.

Lemma elem_of_middle {A} (l done rest : list A) (i : A) :
  l = done ++ i :: rest → i ∈ l.
Proof. intros ->. apply elem_of_app. right. apply list_elem_of_here. Qed.

Lemma bool_decide_snoc_ne (i i' : Z) (done : list Z) :
  i' ≠ i → bool_decide (i' ∈ done ++ [i]) = bool_decide (i' ∈ done).
Proof.
  intros Hne. apply bool_decide_ext.
  rewrite elem_of_app, list_elem_of_singleton. tauto.
Qed.

Lemma bool_decide_row_snoc_ne (i j i' j' : Z) (done : list Z) :
  ¬ (i' = i ∧ j' = j) →
  bool_decide (i' = i ∧ j' ∈ done ++ [j]) = bool_decide (i' = i ∧ j' ∈ done).
Proof.
  intros Hne. apply bool_decide_ext.
  rewrite elem_of_app, list_elem_of_singleton. tauto.
Qed.

(** A scan whose body writes a value among [P] in the cells [inside] the
    shape and leaves the others alone. *)
Lemma scan_spec_any (n : Z) (inside : Z → Z → bool) (P : cell → Prop)
    (body : Z → Z → grid → M G grid) :
  (∀ i j gr g, 0 ≤ i < n → 0 ≤ j < n →
     ∃ g' v, P v ∧
       body i j gr g =
       if inside i j then lift (setitem gr i j v) g' else Ok (gr, g')) →
  ∀ gr g, has_shape gr n n →
    ∃ gr' g',
      for_each (range n) (λ i gr, for_each (range n) (λ j gr, body i j gr) gr) gr g
      = Ok (gr', g') ∧
      has_shape gr' n n ∧
      ∀ i j, 0 ≤ i < n → 0 ≤ j < n →
        if inside i j then ∃ v, P v ∧ cell_at gr' i j = Some v
        else cell_at gr' i j = cell_at gr i j.
Proof.
  intros Hbody gr g Hshape.
  destruct (for_each_inv
    (λ done gr' (_ : G), has_shape gr' n n ∧
       ∀ i j, 0 ≤ i < n → 0 ≤ j < n →
         if bool_decide (i ∈ done) && inside i j
         then ∃ v, P v ∧ cell_at gr' i j = Some v
         else cell_at gr' i j = cell_at gr i j)
    (λ i gr, for_each (range n) (λ j gr, body i j gr) gr) (range n) gr g)
    as (gr' & g' & Hrun & Hshape' & Hcells').
  - (* one row *)
    intros done i rest gr1 g1 Hsplit [Hshape1 Hcells1].
    assert (0 ≤ i < n) as Hi
      by (apply elem_of_range; by eapply elem_of_middle).
    destruct (for_each_inv
      (λ done2 gr2 (_ : G), has_shape gr2 n n ∧
         ∀ i' j', 0 ≤ i' < n → 0 ≤ j' < n →
           if bool_decide (i' = i ∧ j' ∈ done2) && inside i' j'
           then ∃ v, P v ∧ cell_at gr2 i' j' = Some v
           else cell_at gr2 i' j' = cell_at gr1 i' j')
      (λ j gr, body i j gr) (range n) gr1 g1)
      as (gr2 & g2 & Hrun2 & Hshape2 & Hcells2).
    + (* one cell *)
      intros done2 j rest2 gr2 g2 Hsplit2 [Hshape2 Hcells2].
      assert (0 ≤ j < n) as Hj
        by (apply elem_of_range; by eapply elem_of_middle).
      destruct (Hbody i j gr2 g2 Hi Hj) as (g3 & v & Hv & Hstep). rewrite Hstep.
      destruct (inside i j) eqn:Hin.
      * destruct (setitem_spec gr2 n n i j v Hshape2 Hi Hj)
          as (gr3 & Hset & Hshape3 & Hcells3).
        exists gr3, g3. unfold lift. rewrite Hset.
        split; [done |]. split; [done |].
        intros i' j' Hi' Hj'. specialize (Hcells2 _ _ Hi' Hj').
        pose proof (Hcells3 i' j') as Hnew.
        destruct (decide (i' = i ∧ j' = j)) as [[-> ->] | Hij].
        -- rewrite bool_decide_eq_true_2 in Hnew by done.
           rewrite Hin, andb_true_r.
           rewrite bool_decide_eq_true_2; [by exists v |].
           split; [done |]. apply elem_of_app. right. apply list_elem_of_here.
        -- rewrite bool_decide_eq_false_2 in Hnew by done.
           rewrite bool_decide_row_snoc_ne by done.
           destruct (bool_decide _ && inside i' j'); [| congruence].
           destruct Hcells2 as (w & Hw & Hcell). exists w. split; [done | congruence].
      * exists gr2, g3. split; [done |]. split; [done |].
        intros i' j' Hi' Hj'. specialize (Hcells2 _ _ Hi' Hj').
        destruct (decide (i' = i ∧ j' = j)) as [[-> ->] | Hij].
        -- by rewrite Hin, !andb_false_r in *.
        -- by rewrite bool_decide_row_snoc_ne.
    + split; [done |]. intros i' j' _ _.
      rewrite bool_decide_eq_false_2; [done |].
      intros [_ Hnil]. by apply not_elem_of_nil in Hnil.
    + exists gr2, g2. split; [done |]. split; [done |].
      intros i' j' Hi' Hj'.
      specialize (Hcells2 _ _ Hi' Hj'). specialize (Hcells1 _ _ Hi' Hj').
      destruct (decide (i' = i)) as [-> | Hne].
      * rewrite (bool_decide_eq_true_2 (i = i ∧ _)) in Hcells2;
          [| split; [done | by apply elem_of_range]].
        rewrite (bool_decide_eq_true_2 (i ∈ done ++ [i]));
          [| apply elem_of_app; right; apply list_elem_of_here].
        simpl in *. destruct (inside i j'); [done |].
        rewrite andb_false_r in Hcells1. congruence.
      * rewrite (bool_decide_eq_false_2 (i' = i ∧ _)) in Hcells2 by tauto.
        rewrite bool_decide_snoc_ne by done. simpl in Hcells2.
        destruct (bool_decide _ && inside i' j'); [| congruence].
        destruct Hcells1 as (w & Hw & Hcell). exists w. split; [done | congruence].
  - split; [done |]. intros i j _ _.
    rewrite bool_decide_eq_false_2; [done | apply not_elem_of_nil].
  - exists gr', g'. split; [done |]. split; [done |].
    intros i j Hi Hj. specialize (Hcells' _ _ Hi Hj).
    rewrite bool_decide_eq_true_2 in Hcells'; [done | by apply elem_of_range].
Qed.

End Scan.

(** ** The circular and the octagonal generator *)

Section CircularOctagonal.
Context {G : Type} `{RandomSource G}.

Lemma draw_gap_certain f (g : G) :
  (1 <= f)%R → draw_gap true f g = Ok (true, (random_sample g).2).
Proof.
  intros Hf. unfold draw_gap, bind, rand, ret.
  pose proof (random_sample_range g) as Hu.
  destruct (random_sample g) as [u g']. simpl in *.
  assert (Rltb u f = true) as -> by (apply Rltb_true; lra). done.
Qed.

Lemma draw_gap_total randomize f (g : G) :
  ∃ gap g', draw_gap randomize f g = Ok (gap, g').
Proof.
  unfold draw_gap, bind, rand, ret. destruct randomize; [| by eexists _, _].
  destruct (random_sample g) as [u g']. by eexists _, _.
Qed.

(** The cells of the circular generator, when every draw has an outcome
    among [P]: inside the circle a cell is demoted or Active according to
    its draw, outside it is Empty. *)
Lemma circular_scan grid_size radius randomize f passive (P : bool → Prop) (g : G) :
  0 ≤ grid_size →
  (∀ g, ∃ gap g', P gap ∧ draw_gap randomize f g = Ok (gap, g')) →
  ∃ grid g',
    create_circular_array grid_size radius randomize f passive g = Ok (grid, g') ∧
    has_shape grid grid_size grid_size ∧
    ∀ i j, 0 ≤ i < grid_size → 0 ≤ j < grid_size →
      if bool_decide (in_circle grid_size radius i j)
      then ∃ gap, P gap ∧
             cell_at grid i j = Some (if gap then demoted passive else Active)
      else cell_at grid i j = Some Empty.
Proof.
  intros Hgs Hgap. unfold create_circular_array.
  rewrite (bind_lift_Ok _ _ _ g (np_full_ok grid_size grid_size Empty Hgs Hgs)).
  destruct (scan_spec_any grid_size
    (λ i j, bool_decide (in_circle grid_size radius i j))
    (λ c, ∃ gap, P gap ∧ c = if gap then demoted passive else Active)
    (λ i j grid,
       if Rleb (computed_distance grid_size i j) radius
       then gap <- draw_gap randomize f;;
            if gap then lift (setitem grid i j (demoted passive))
            else lift (setitem grid i j Active)
       else ret grid))
    with (gr := replicate (Z.to_nat grid_size) (replicate (Z.to_nat grid_size) Empty))
         (g := g)
    as (grid & g' & Hrun & Hshape & Hcells).
  - intros i j gr g1 Hi Hj. unfold in_circle.
    destruct (Hgap g1) as (gap & g2 & Hgap1 & Hdraw).
    exists (if Rleb (computed_distance grid_size i j) radius
            then g2 else g1),
      (if gap then demoted passive else Active).
    split; [by exists gap |].
    destruct (Rleb _ radius) eqn:Hin.
    + apply Rleb_true in Hin. rewrite bool_decide_eq_true_2 by done.
      rewrite (bind_Ok _ _ _ _ _ Hdraw). by destruct gap.
    + rewrite bool_decide_eq_false_2; [done |].
      intros Hle. apply Rleb_true in Hle. congruence.
  - by apply has_shape_full.
  - exists grid, g'. split; [done |]. split; [done |].
    intros i j Hi Hj. specialize (Hcells _ _ Hi Hj).
    case_bool_decide.
    + destruct Hcells as (c & (gap & Hgap1 & ->) & Hcell). by exists gap.
    + rewrite Hcells. by apply cell_at_full.
Qed.

Lemma octagonal_scan grid_size side_length randomize f passive (P : bool → Prop)
    (g : G) :
  0 ≤ grid_size →
  (∀ g, ∃ gap g', P gap ∧ draw_gap randomize f g = Ok (gap, g')) →
  ∃ grid g',
    create_octagonal_array grid_size side_length randomize f passive g
    = Ok (grid, g') ∧
    has_shape grid grid_size grid_size ∧
    ∀ i j, 0 ≤ i < grid_size → 0 ≤ j < grid_size →
      if bool_decide (in_octagon grid_size side_length i j)
      then ∃ gap, P gap ∧
             cell_at grid i j = Some (if gap then demoted passive else Active)
      else cell_at grid i j = Some Empty.
Proof.
  intros Hgs Hgap. unfold create_octagonal_array.
  rewrite (bind_lift_Ok _ _ _ g (np_full_ok grid_size grid_size Empty Hgs Hgs)).
  destruct (scan_spec_any grid_size
    (λ i j, bool_decide (in_octagon grid_size side_length i j))
    (λ c, ∃ gap, P gap ∧ c = if gap then demoted passive else Active)
    (λ i j grid,
       if Rleb (float_of_int (Z.abs (i - grid_size `div` 2)
                                    + Z.abs (j - grid_size `div` 2)))
                 (diamond_bound side_length)
               && Rleb (float_of_int (Z.max (Z.abs (i - grid_size `div` 2))
                                        (Z.abs (j - grid_size `div` 2))))
                    (square_bound side_length)
       then gap <- draw_gap randomize f;;
            if gap then lift (setitem grid i j (demoted passive))
            else lift (setitem grid i j Active)
       else ret grid))
    with (gr := replicate (Z.to_nat grid_size) (replicate (Z.to_nat grid_size) Empty))
         (g := g)
    as (grid & g' & Hrun & Hshape & Hcells).
  - intros i j gr g1 Hi Hj. unfold in_octagon.
    destruct (Hgap g1) as (gap & g2 & Hgap1 & Hdraw).
    exists (if Rleb (float_of_int (Z.abs (i - grid_size `div` 2)
                                    + Z.abs (j - grid_size `div` 2)))
                 (diamond_bound side_length)
               && Rleb (float_of_int (Z.max (Z.abs (i - grid_size `div` 2))
                                        (Z.abs (j - grid_size `div` 2))))
                    (square_bound side_length)
            then g2 else g1),
      (if gap then demoted passive else Active).
    split; [by exists gap |].
    destruct (Rleb _ _ && Rleb _ _) eqn:Hin.
    + apply andb_true_iff in Hin as [Hd Hs].
      apply Rleb_true in Hd. apply Rleb_true in Hs.
      rewrite bool_decide_eq_true_2 by done.
      rewrite (bind_Ok _ _ _ _ _ Hdraw). by destruct gap.
    + rewrite bool_decide_eq_false_2; [done |].
      intros [Hd Hs]. apply Rleb_true in Hd. apply Rleb_true in Hs.
      rewrite Hd, Hs in Hin. done.
  - by apply has_shape_full.
  - exists grid, g'. split; [done |]. split; [done |].
    intros i j Hi Hj. specialize (Hcells _ _ Hi Hj).
    case_bool_decide.
    + destruct Hcells as (c & (gap & Hgap1 & ->) & Hcell). by exists gap.
    + rewrite Hcells. by apply cell_at_full.
Qed.

(** When the draw has a fixed outcome [gap], every cell of the shape gets
    the same value. *)
Lemma circular_uniform grid_size radius randomize f passive (gap : bool) (g : G) :
  0 ≤ grid_size →
  (∀ g, ∃ g', draw_gap randomize f g = Ok (gap, g')) →
  ∃ grid g',
    create_circular_array grid_size radius randomize f passive g = Ok (grid, g') ∧
    has_shape grid grid_size grid_size ∧
    ∀ i j, 0 ≤ i < grid_size → 0 ≤ j < grid_size →
      cell_at grid i j =
      Some (if bool_decide (in_circle grid_size radius i j)
            then (if gap then demoted passive else Active) else Empty).
Proof.
  intros Hgs Hgap.
  destruct (circular_scan grid_size radius randomize f passive (λ b, b = gap) g Hgs)
    as (grid & g' & Hrun & Hshape & Hcells).
  { intros g1. destruct (Hgap g1) as [g2 Hdraw]. by exists gap, g2. }
  exists grid, g'. split; [done |]. split; [done |].
  intros i j Hi Hj. specialize (Hcells _ _ Hi Hj).
  case_bool_decide; [| done]. by destruct Hcells as (? & -> & ?).
Qed.

Lemma octagonal_uniform grid_size side_length randomize f passive (gap : bool) (g : G) :
  0 ≤ grid_size →
  (∀ g, ∃ g', draw_gap randomize f g = Ok (gap, g')) →
  ∃ grid g',
    create_octagonal_array grid_size side_length randomize f passive g
    = Ok (grid, g') ∧
    has_shape grid grid_size grid_size ∧
    ∀ i j, 0 ≤ i < grid_size → 0 ≤ j < grid_size →
      cell_at grid i j =
      Some (if bool_decide (in_octagon grid_size side_length i j)
            then (if gap then demoted passive else Active) else Empty).
Proof.
  intros Hgs Hgap.
  destruct (octagonal_scan grid_size side_length randomize f passive
              (λ b, b = gap) g Hgs)
    as (grid & g' & Hrun & Hshape & Hcells).
  { intros g1. destruct (Hgap g1) as [g2 Hdraw]. by exists gap, g2. }
  exists grid, g'. split; [done |]. split; [done |].
  intros i j Hi Hj. specialize (Hcells _ _ Hi Hj).
  case_bool_decide; [| done]. by destruct Hcells as (? & -> & ?).
Qed.

End CircularOctagonal.

Lemma in_circle_zero grid_size i j :
  in_circle grid_size 0 i j ↔ (i = grid_size `div` 2 ∧ j = grid_size `div` 2).
Proof.
  unfold in_circle. split.
  - intros Hle.
    destruct (decide (i = grid_size `div` 2 ∧ j = grid_size `div` 2))
      as [Hc | Hc]; [done |].
    pose proof (computed_distance_off_centre grid_size i j Hc). lra.
  - intros [-> ->]. rewrite computed_distance_centre. lra.
Qed.

(** For an integer radius below [2^26] the test of the circular generator
    is the exact Euclidean one: rounding does not move an integer squared
    distance across the square of the radius. *)
Lemma in_circle_integer_radius grid_size (r : Z) i j :
  0 ≤ r < 2 ^ 26 →
  in_circle grid_size (IZR r) i j ↔
  (i - grid_size `div` 2) ^ 2 + (j - grid_size `div` 2) ^ 2 ≤ r ^ 2.
Proof.
  intros Hr. unfold in_circle, computed_distance.
  set (k := (i - grid_size `div` 2) ^ 2 + (j - grid_size `div` 2) ^ 2).
  assert (r * r < 2 ^ 52) as Hrr.
  { apply (Z.le_lt_trans _ ((2 ^ 26 - 1) * (2 ^ 26 - 1))); [nia |].
    by apply Z.ltb_lt. }
  split.
  - intros Hle. destruct (Z_le_gt_dec k (r ^ 2)) as [Hk | Hk]; [done |].
    exfalso.
    assert (IZR (r * r + 1) <= float_of_int k)%R as Hconv
      by (apply float_of_int_ge; lia).
    set (y := (IZR (r * 2 ^ 27 + 1) / IZR (2 ^ 27))%R).
    assert (binary64 y) as Hy.
    { apply binary64_scaled; [| by split; apply Z.leb_le].
      apply (Z.le_lt_trans _ ((2 ^ 26 - 1) * 2 ^ 27 + 1)); [lia |].
      by apply Z.ltb_lt. }
    assert (IZR r < y)%R as Hry.
    { unfold y. rewrite plus_IZR, mult_IZR.
      pose proof (IZR_pow2_pos 27 ltac:(lia)) as Hp.
      apply Rlt_div_iff; [done |]. lra. }
    assert (y * y <= IZR (r * r + 1))%R as Hyy.
    { unfold y. rewrite !plus_IZR, !mult_IZR.
      assert (IZR r <= IZR (2 ^ 26) - 1)%R as Hr1.
      { rewrite <- minus_IZR. apply IZR_le. lia. }
      assert (0 <= IZR r)%R as Hr0 by (apply (IZR_le 0); lia).
      revert Hr1.
      change (2 ^ 27) with 134217728. change (2 ^ 26) with 67108864.
      intros Hr1.
      assert ((IZR r * 134217728 + 1) * (IZR r * 134217728 + 1)
              <= (IZR r * IZR r + 1) * (134217728 * 134217728))%R by nra.
      apply (Rmult_le_reg_r (134217728 * 134217728)); [lra |].
      field_simplify; lra. }
    assert (0 <= IZR r)%R as Hr0 by (apply (IZR_le 0); lia).
    assert (y <= sqrt (float_of_int k))%R as Hsq.
    { rewrite <- (sqrt_square y) by lra. apply sqrt_le_1_alt. lra. }
    apply fl64_mono in Hsq. rewrite (fl64_binary64 y Hy) in Hsq.
    unfold np_sqrt in Hle. lra.
  - intros Hk.
    assert (float_of_int k <= IZR (r * r))%R as Hconv
      by (apply float_of_int_le; lia).
    assert (sqrt (float_of_int k) <= IZR r)%R as Hsq.
    { rewrite <- (sqrt_square (IZR r)) by (apply (IZR_le 0); lia).
      apply sqrt_le_1_alt. by rewrite <- mult_IZR. }
    apply fl64_mono in Hsq. rewrite (fl64_IZR r) in Hsq by lia. done.
Qed.

(** On a grid of side at most [2^26] the squared distances are converted
    exactly, and a cell within Euclidean distance [radius] of the centre
    passes the test, for a binary64 [radius]. *)
Lemma in_circle_euclidean grid_size radius i j :
  binary64 radius → grid_size ≤ 2 ^ 26 →
  0 ≤ i < grid_size → 0 ≤ j < grid_size →
  (sqrt (IZR ((i - grid_size `div` 2) ^ 2 + (j - grid_size `div` 2) ^ 2))
   <= radius)%R →
  in_circle grid_size radius i j.
Proof.
  intros Hfloat Hsmall Hi Hj Hdist. unfold in_circle, computed_distance.
  assert (0 ≤ grid_size `div` 2 < grid_size) as Hc
    by (split; [apply Z.div_pos; lia | apply Z.div_lt_upper_bound; lia]).
  set (c := grid_size `div` 2) in *.
  change (2 ^ 26) with 67108864 in Hsmall.
  rewrite float_of_int_small.
  - rewrite <- (fl64_binary64 radius Hfloat). by apply fl64_mono.
  - change (2 ^ 53) with 9007199254740992. nia.
Qed.

Section CircularOctagonalClaims.
Context {G : Type} `{RandomSource G}.

(** C5 (as the code has it): with [randomize = False], [grid_size >= 1]
    and [radius >= 0], the circular generator returns a [grid_size] x
    [grid_size] grid in which a cell is Active iff the distance the code
    computes for it, the binary64 square root [np.sqrt] of its squared
    distance to the centre [(grid_size // 2, grid_size // 2)], is at most
    [radius], and Empty otherwise.  For an integer radius below [2^26] this
    is the Euclidean test, the squared distance being at most the square of
    the radius; for any binary64 radius and [grid_size <= 2^26] every cell
    whose Euclidean distance to the centre is at most [radius] is Active
    (the converse fails for a radius just below the distance of a cell);
    with
    [radius = 0] and [grid_size = 5] only cell [(2, 2)] is Active. *)
Theorem circular_active_iff_within_radius
    grid_size radius empty_fraction passive (g : G) :
  1 ≤ grid_size → (0 <= radius)%R →
  ∃ grid g',
    create_circular_array grid_size radius false empty_fraction passive g
    = Ok (grid, g') ∧
    has_shape grid grid_size grid_size ∧
    (∀ i j, 0 ≤ i < grid_size → 0 ≤ j < grid_size →
       (cell_at grid i j = Some Active ↔
          (computed_distance grid_size i j <= radius)%R) ∧
       (cell_at grid i j = Some Empty ↔ ¬ in_circle grid_size radius i j)) ∧
    (∀ r : Z, radius = IZR r → r < 2 ^ 26 →
       ∀ i j, 0 ≤ i < grid_size → 0 ≤ j < grid_size →
         cell_at grid i j = Some Active ↔
         (i - grid_size `div` 2) ^ 2 + (j - grid_size `div` 2) ^ 2 ≤ r ^ 2) ∧
    (binary64 radius → grid_size ≤ 2 ^ 26 →
       ∀ i j, 0 ≤ i < grid_size → 0 ≤ j < grid_size →
         (sqrt (IZR ((i - grid_size `div` 2) ^ 2 + (j - grid_size `div` 2) ^ 2))
          <= radius)%R →
         cell_at grid i j = Some Active) ∧
    (grid_size = 5 → radius = 0%R →
       grid = [ [Empty; Empty; Empty; Empty; Empty];
                [Empty; Empty; Empty; Empty; Empty];
                [Empty; Empty; Active; Empty; Empty];
                [Empty; Empty; Empty; Empty; Empty];
                [Empty; Empty; Empty; Empty; Empty] ]).
Proof.
  intros Hgs Hradius.
  destruct (circular_uniform grid_size radius false empty_fraction passive false g)
    as (grid & g' & Hrun & Hshape & Hcells); [lia | by eexists |].
  exists grid, g'. split; [done |]. split; [done |].
  assert (∀ i j, 0 ≤ i < grid_size → 0 ≤ j < grid_size →
            cell_at grid i j = Some Active ↔ in_circle grid_size radius i j)
    as Hactive.
  { intros i j Hi Hj. rewrite (Hcells _ _ Hi Hj).
    case_bool_decide; split; (done || tauto). }
  split; [| split; [| split]].
  - intros i j Hi Hj. split; [by apply Hactive |].
    rewrite (Hcells _ _ Hi Hj). case_bool_decide; split; (done || tauto).
  - intros r -> Hr i j Hi Hj. rewrite (Hactive i j Hi Hj).
    apply in_circle_integer_radius. split; [| done].
    apply le_IZR. exact Hradius.
  - intros Hfloat Hsmall i j Hi Hj Hdist. apply (Hactive i j Hi Hj).
    by apply in_circle_euclidean.
  - intros -> ->.
    assert (∀ i j, 0 ≤ i < 5 → 0 ≤ j < 5 →
              cell_or_empty grid (i, j)
              = if bool_decide (i = 2 ∧ j = 2) then Active else Empty) as Hpt.
    { intros i j Hi Hj. rewrite (cell_or_empty_Some _ _ _ _ (Hcells _ _ Hi Hj)).
      rewrite (bool_decide_ext _ _ (in_circle_zero 5 i j)). done. }
    rewrite (grid_rows grid 5 5 Hshape).
    change (range 5) with [0; 1; 2; 3; 4]. cbn [fmap list_fmap].
    rewrite !Hpt by lia. reflexivity.
Qed.


End CircularOctagonalClaims.

(** ** The hexagonal generator *)

Lemma elem_of_hex_cells radius i j :
  (i, j) ∈ hex_cells radius ↔
  0 ≤ i < 2 * radius + 1 ∧ hex_start radius i ≤ j < hex_end radius i.
Proof.
  unfold hex_cells. rewrite list_elem_of_bind. split.
  - intros (i' & Hin & Hi'). apply list_elem_of_fmap in Hin as (j' & Heq & Hj').
    inversion Heq; subst. by rewrite elem_of_range in Hi'; rewrite elem_of_range2 in Hj'.
  - intros [Hi Hj]. exists i. rewrite elem_of_range. split; [| done].
    apply list_elem_of_fmap. exists j. by rewrite elem_of_range2.
Qed.

Lemma NoDup_hex_cells radius : NoDup (hex_cells radius).
Proof.
  unfold hex_cells. apply NoDup_bind.
  - intros i1 i2 [a b] _ _ H1 H2.
    apply list_elem_of_fmap in H1 as (? & Heq1 & _).
    apply list_elem_of_fmap in H2 as (? & Heq2 & _). congruence.
  - intros i _. apply NoDup_fmap_2_strong; [congruence | apply NoDup_seqZ].
  - apply NoDup_range.
Qed.

Lemma hex_cells_in_bounds radius i j :
  (i, j) ∈ hex_cells radius →
  0 ≤ i < 2 * radius + 1 ∧ 0 ≤ j < 2 * radius + 1.
Proof.
  rewrite elem_of_hex_cells. unfold hex_start, hex_end. lia.
Qed.

Section Hexagonal.
Context {G : Type} `{RandomSource G}.

(** The first loop fills the rows of the hexagon and records the positions. *)
Lemma hex_fill radius (g : G) :
  0 ≤ radius →
  ∃ gr,
    for_each (range (2 * radius + 1))
      (λ i '(hex_array, cell_positions),
         hex_array <-
           lift (setslice hex_array i (Z.max 0 (radius - i))
                   (2 * radius + 1 - Z.max 0 (i - radius)) Active);;
         ret (hex_array,
              cell_positions ++
              ((λ j, (i, j)) <$>
                 range2 (Z.max 0 (radius - i))
                   (2 * radius + 1 - Z.max 0 (i - radius)))))
      (replicate (Z.to_nat (2 * radius + 1))
         (replicate (Z.to_nat (2 * radius + 1)) Empty), []) g
    = Ok ((gr, hex_cells radius), g) ∧
    has_shape gr (2 * radius + 1) (2 * radius + 1) ∧
    ∀ i j, 0 ≤ i < 2 * radius + 1 → 0 ≤ j < 2 * radius + 1 →
      cell_at gr i j =
      Some (if bool_decide (hex_start radius i ≤ j < hex_end radius i)
            then Active else Empty).
Proof.
  intros Hradius. set (size := 2 * radius + 1).
  destruct (for_each_inv
    (λ done (st : grid * list (Z * Z)) (g' : G),
       g' = g ∧
       st.2 = (done ≫= λ i, (λ j, (i, j)) <$>
                 range2 (hex_start radius i) (hex_end radius i)) ∧
       has_shape st.1 size size ∧
       ∀ i j, 0 ≤ i < size → 0 ≤ j < size →
         cell_at st.1 i j =
         Some (if bool_decide (i ∈ done)
                  && bool_decide (hex_start radius i ≤ j < hex_end radius i)
               then Active else Empty))
    (λ i '(hex_array, cell_positions),
         hex_array <-
           lift (setslice hex_array i (Z.max 0 (radius - i))
                   (size - Z.max 0 (i - radius)) Active);;
         ret (hex_array,
              cell_positions ++
              ((λ j, (i, j)) <$>
                 range2 (Z.max 0 (radius - i))
                   (size - Z.max 0 (i - radius)))))
    (range size)
    (replicate (Z.to_nat size) (replicate (Z.to_nat size) Empty), []) g)
    as ([gr cells] & g' & Hrun & -> & Hcellseq & Hshape & Hcells).
  - intros done i rest [gr cells] g1 Hsplit (-> & Hcellsdone & Hshape & Hcells).
    simpl in *.
    assert (0 ≤ i < size) as Hi
      by (apply elem_of_range; by eapply elem_of_middle).
    destruct (setslice_spec gr size size i (Z.max 0 (radius - i))
                (size - Z.max 0 (i - radius)) Active Hshape Hi)
      as (gr' & Hset & Hshape' & Hcells'); [lia | lia |].
    exists (gr', cells ++ ((λ j, (i, j)) <$>
                   range2 (Z.max 0 (radius - i)) (size - Z.max 0 (i - radius)))), g.
    split; [by rewrite (bind_lift_Ok _ _ _ g Hset) |].
    split; [done |]. split.
    { simpl. rewrite bind_app, Hcellsdone. f_equal. simpl. by rewrite app_nil_r. }
    split; [done |]. simpl.
    intros i' j' Hi' Hj'. rewrite (Hcells' _ _ Hi' Hj'), (Hcells _ _ Hi' Hj').
    unfold hex_start, hex_end. fold size.
    destruct (decide (i' = i)) as [-> | Hne].
    + rewrite (bool_decide_eq_true_2 (i ∈ done ++ [i]));
        [| apply elem_of_app; right; apply list_elem_of_here].
      simpl. case_bool_decide as Hin.
      * rewrite (bool_decide_eq_true_2 (_ ≤ _ < _)); [done | tauto].
      * rewrite (bool_decide_eq_false_2 (_ ≤ _ < _)) by tauto.
        by destruct (bool_decide (i ∈ done)).
    + rewrite bool_decide_eq_false_2 by tauto.
      by rewrite bool_decide_snoc_ne.
  - split; [done |]. split; [done |]. split; [apply has_shape_full; lia |].
    simpl. intros i j Hi Hj. by rewrite cell_at_full.
  - simpl in *. exists gr. subst cells. split; [done |]. split; [done |].
    intros i j Hi Hj. rewrite (Hcells _ _ Hi Hj).
    rewrite (bool_decide_eq_true_2 (i ∈ range size)); [done |].
    by apply elem_of_range.
Qed.

(** C4: for [radius >= 1] and [randomize = False] the hexagonal generator
    returns a grid of side [2 * radius + 1] in which row [i] has Active cells
    exactly in the columns [[max(0, radius - i), size - max(0, i - radius))],
    all other cells are Empty, and the cell [(radius, radius)] is Active. *)
Theorem hexagonal_rows radius empty_fraction passive (g : G) :
  1 ≤ radius →
  ∃ grid,
    create_hexagonal_array radius false empty_fraction passive g = Ok (grid, g) ∧
    has_shape grid (2 * radius + 1) (2 * radius + 1) ∧
    (∀ i j, 0 ≤ i < 2 * radius + 1 → 0 ≤ j < 2 * radius + 1 →
       (cell_at grid i j = Some Active ↔
          Z.max 0 (radius - i) ≤ j < (2 * radius + 1) - Z.max 0 (i - radius)) ∧
       (cell_at grid i j = Some Empty ↔
          ¬ (Z.max 0 (radius - i) ≤ j < (2 * radius + 1) - Z.max 0 (i - radius)))) ∧
    cell_at grid radius radius = Some Active.
Proof.
  intros Hradius.
  destruct (hex_fill radius g) as (grid & Hloop & Hshape & Hcells); [lia |].
  exists grid. split; [| split; [done |]; split].
  - unfold create_hexagonal_array.
    rewrite (bind_lift_Ok _ _ _ g
               (np_full_ok (2 * radius + 1) (2 * radius + 1) Empty
                  ltac:(lia) ltac:(lia))).
    by rewrite (bind_Ok _ _ _ _ _ Hloop).
  - intros i j Hi Hj. rewrite (Hcells _ _ Hi Hj). unfold hex_start, hex_end.
    case_bool_decide; split; split; (done || tauto).
  - rewrite Hcells by lia. rewrite bool_decide_eq_true_2; [done |].
    unfold hex_start, hex_end. lia.
Qed.

End Hexagonal.

(** ** Fixed-count sampling: the rectangular and the hexagonal generator *)

Section Sampling.
Context {G : Type} `{RandomSource G}.

Lemma choice_in_range N k (g : G) :
  0 ≤ k ≤ N → choice N k g = Ok (sample N k g, (permutation N g).2).
Proof.
  intros Hk. unfold choice, sample.
  destruct ((N <=? 0) && negb (k =? 0)) eqn:E1.
  { apply andb_true_iff in E1 as [E1 E2]. apply negb_true_iff in E2. lia. }
  destruct (N <? k) eqn:E2; [lia |]. destruct (k <? 0) eqn:E3; [lia |].
  by destruct (permutation N g).
Qed.

Lemma choice_out_of_range N k (g : G) :
  k < 0 ∨ N < k → choice N k g = Raise ValueError.
Proof.
  intros Hk. unfold choice.
  destruct ((N <=? 0) && negb (k =? 0)); [done |].
  destruct (N <? k) eqn:E2; [done |]. destruct (k <? 0) eqn:E3; [done | lia].
Qed.

Lemma sample_props N k (g : G) :
  0 ≤ k ≤ N →
  NoDup (sample N k g) ∧
  Z.of_nat (length (sample N k g)) = k ∧
  (∀ p, p ∈ sample N k g → 0 ≤ p < N) ∧
  (k = N → ∀ p, 0 ≤ p < N → p ∈ sample N k g).
Proof.
  intros Hk. unfold sample.
  pose proof (permutation_perm N g) as Hperm.
  set (perm := (permutation N g).1) in *.
  assert (NoDup perm) as Hnodup by (rewrite Hperm; apply NoDup_range).
  assert (length perm = Z.to_nat N) as Hlen.
  { rewrite Hperm. unfold range. apply length_seqZ. }
  split; [| split; [| split]].
  - rewrite <- (take_drop (Z.to_nat k) perm) in Hnodup.
    by apply NoDup_app in Hnodup as [? _].
  - rewrite length_take. lia.
  - intros p Hp. apply elem_of_take in Hp as (i & Hi & _).
    apply elem_of_range. rewrite <- Hperm. by eapply list_elem_of_lookup_2.
  - intros -> p Hp. rewrite take_ge by lia.
    rewrite Hperm. by apply elem_of_range.
Qed.

Lemma py_int_0 : py_int 0 = 0.
Proof. destruct (py_int_nonneg 0) as [-> _]; [lra |]. apply (Int_part_IZR 0). Qed.

(** For a fraction in [[0, 1]] and at most [2^53] cells the count
    [int(N * empty_fraction)] is computed without overflow and lies between
    [0] and [N]. *)
Lemma demotion_count_in_range N f :
  0 ≤ N ≤ 2 ^ 53 → (0 <= f <= 1)%R →
  sample_size N f = Ok (demotion_count N f) ∧
  0 ≤ demotion_count N f ≤ N.
Proof.
  intros [HN0 HN] Hf. unfold sample_size.
  rewrite (int_mul_float_finite N f) by (apply float_of_int_finite; lia).
  unfold demotion_count, float_mul.
  rewrite float_of_int_small by lia.
  assert (0 <= IZR N)%R as HN0' by (by apply (IZR_le 0)).
  pose proof (fl64_nonneg (IZR N * f) ltac:(nra)) as Hpos.
  pose proof (fl64_mono (IZR N * f) (IZR N) ltac:(nra)) as Hle.
  rewrite (fl64_IZR N) in Hle by lia.
  assert (IZR N < IZR (2 ^ 1024))%R as Hbig.
  { apply IZR_lt. apply (Z.le_lt_trans _ (2 ^ 53)); [done | by apply Z.ltb_lt]. }
  unfold int_of_float. rewrite isinf_small by (rewrite Rabs_pos_eq by done; lra).
  destruct (py_int_nonneg _ Hpos) as [-> Hge].
  split; [done |]. split; [done |]. by apply Int_part_le_IZR.
Qed.

Lemma demotion_count_one N : 0 ≤ N ≤ 2 ^ 53 → demotion_count N 1 = N.
Proof.
  intros HN. unfold demotion_count, float_mul.
  rewrite float_of_int_small, Rmult_1_r, fl64_IZR by lia.
  destruct (py_int_nonneg (IZR N)) as [-> _]; [apply (IZR_le 0); lia |].
  apply Int_part_IZR.
Qed.

(** The count is the floor of the exact product, or one more when the
    binary64 product is rounded up to the next integer. *)
Lemma demotion_count_floor N f :
  0 ≤ N ≤ 2 ^ 53 → (0 <= f <= 1)%R →
  Int_part (IZR N * f) ≤ demotion_count N f ≤ Int_part (IZR N * f) + 1.
Proof.
  intros HN Hf.
  destruct (demotion_count_in_range N f HN Hf) as [_ [_ Hle]].
  unfold demotion_count, float_mul in *. rewrite float_of_int_small in * by lia.
  assert (0 <= IZR N)%R as HN0 by (apply (IZR_le 0); lia).
  set (x := (IZR N * f)%R) in *. assert (0 <= x <= IZR N)%R as Hx by (unfold x; nra).
  pose proof (Int_part_bounds x) as [Hlo Hhi].
  assert (0 ≤ Int_part x ≤ N) as Hn
    by (split; [apply Int_part_ge; simpl; lra | apply Int_part_le_IZR; lra]).
  destruct (py_int_nonneg (fl64 x) (fl64_nonneg x ltac:(lra))) as [Hint _].
  rewrite Hint in *. split.
  - apply Int_part_ge. rewrite <- (fl64_IZR (Int_part x)) by lia.
    by apply fl64_mono.
  - destruct (Z_le_gt_dec (Int_part x + 1) (2 ^ 53)) as [Hsmall | Hbig]; [| lia].
    destruct (Req_dec x (IZR (Int_part x))) as [Heq | Hne].
    + rewrite Heq, fl64_IZR, Int_part_IZR by lia. lia.
    + assert (fl64 x <= IZR (Int_part x + 1))%R as Hup.
      { rewrite <- (fl64_IZR (Int_part x + 1)) by lia.
        apply fl64_mono. rewrite plus_IZR. lra. }
      apply Int_part_le_IZR in Hup. lia.
Qed.

Lemma demotion_count_zero N :
  isinf (float_of_int N) = false → sample_size N 0 = Ok 0.
Proof.
  intros HN. unfold sample_size. rewrite (int_mul_float_finite N 0 HN).
  unfold float_mul. rewrite Rmult_0_r, fl64_0. unfold int_of_float.
  rewrite isinf_small.
  - by rewrite py_int_0.
  - rewrite Rabs_R0. apply (IZR_lt 0). by apply Z.ltb_lt.
Qed.

(** The two steps of [int(N * f)] in a generator. *)
Lemma bind_sample_size {B} N f (k : Z → M G B) (g : G) :
  bind (lift (int_mul_float N f)) (λ product, bind (lift (int_of_float product)) k) g
  = bind (lift (sample_size N f)) k g.
Proof.
  unfold sample_size, bind, lift. by destruct (int_mul_float N f).
Qed.

(** A loop that writes the same value at the position of every index. *)
Lemma mark_loop (n m : Z) (pos_of : Z → Z * Z) (v : cell)
    (body : Z → grid → M G grid) (chosen : list Z) :
  (∀ idx gr g, idx ∈ chosen →
     body idx gr g = lift (setitem gr (pos_of idx).1 (pos_of idx).2 v) g) →
  (∀ idx, idx ∈ chosen → 0 ≤ (pos_of idx).1 < n ∧ 0 ≤ (pos_of idx).2 < m) →
  ∀ gr g, has_shape gr n m →
    ∃ gr',
      for_each chosen body gr g = Ok (gr', g) ∧
      has_shape gr' n m ∧
      ∀ i j, cell_at gr' i j =
             if bool_decide ((i, j) ∈ pos_of <$> chosen) then Some v
             else cell_at gr i j.
Proof.
  intros Hbody Hbounds gr g Hshape.
  destruct (for_each_inv
    (λ done gr' g', g' = g ∧ has_shape gr' n m ∧
       ∀ i j, cell_at gr' i j =
              if bool_decide ((i, j) ∈ pos_of <$> done) then Some v
              else cell_at gr i j)
    body chosen gr g) as (gr' & g' & Hrun & -> & Hshape' & Hcells').
  - intros done idx rest gr1 g1 Hsplit (-> & Hshape1 & Hcells1).
    assert (idx ∈ chosen) as Hidx by by eapply elem_of_middle.
    destruct (Hbounds idx Hidx) as [Hi Hj].
    destruct (setitem_spec gr1 n m _ _ v Hshape1 Hi Hj)
      as (gr2 & Hset & Hshape2 & Hcells2).
    exists gr2, g. rewrite (Hbody _ _ _ Hidx). unfold lift. rewrite Hset.
    split; [done |]. split; [done |]. split; [done |].
    intros i j. rewrite Hcells2, Hcells1, fmap_app. simpl.
    case_bool_decide as Hij.
    + destruct Hij as [-> ->]. rewrite bool_decide_eq_true_2; [done |].
      apply elem_of_app. right. rewrite <- surjective_pairing.
      apply list_elem_of_here.
    + assert (bool_decide ((i, j) ∈ (pos_of <$> done) ++ [pos_of idx])
              = bool_decide ((i, j) ∈ pos_of <$> done)) as ->; [| done].
      apply bool_decide_ext.
      rewrite elem_of_app, list_elem_of_singleton.
      split; [| tauto]. intros [? | Heq]; [done |].
      exfalso. apply Hij. by rewrite <- Heq.
  - split; [done |]. split; [done |]. intros i j.
    rewrite bool_decide_eq_false_2; [done | apply not_elem_of_nil].
  - by exists gr'.
Qed.

End Sampling.

Section Picked.
Context {G : Type} `{RandomSource G}.

Lemma rect_picked_props rows columns f (g : G) :
  0 ≤ rows → 0 ≤ columns → rows * columns ≤ 2 ^ 53 → (0 <= f <= 1)%R →
  NoDup (rect_picked rows columns f g) ∧
  Z.of_nat (length (rect_picked rows columns f g))
  = demotion_count (rows * columns) f ∧
  (∀ i j, (i, j) ∈ rect_picked rows columns f g →
          0 ≤ i < rows ∧ 0 ≤ j < columns) ∧
  (f = 1%R → ∀ i j, 0 ≤ i < rows → 0 ≤ j < columns →
               (i, j) ∈ rect_picked rows columns f g).
Proof.
  intros Hrows Hcols Hsize Hf. unfold rect_picked.
  destruct (demotion_count_in_range (rows * columns) f ltac:(lia) Hf) as [_ Hk].
  destruct (sample_props (rows * columns) _ g Hk)
    as (Hnodup & Hlen & Hrange & Hall).
  split; [| split; [| split]].
  - apply NoDup_fmap_2_strong; [| done].
    intros p q Hp Hq [= Hdiv Hmod].
    apply Hrange in Hp. assert (columns ≠ 0) as Hne by nia.
    rewrite (Z.div_mod p columns Hne), (Z.div_mod q columns Hne). congruence.
  - by rewrite length_fmap.
  - intros i j Hin. apply list_elem_of_fmap in Hin as (p & [= -> ->] & Hp).
    apply Hrange in Hp. assert (0 < columns) as Hpos by nia.
    split; [split |].
    + apply Z.div_pos; lia.
    + apply Z.div_lt_upper_bound; lia.
    + by apply Z.mod_pos_bound.
  - intros -> i j Hi Hj. apply list_elem_of_fmap. exists (i * columns + j).
    split.
    + f_equal.
      * apply (Z.div_unique _ _ i j); lia.
      * apply (Z.mod_unique _ _ i j); lia.
    + apply Hall; [| nia]. apply demotion_count_one. lia.
Qed.

Lemma hex_lookup_total radius idx :
  0 ≤ idx < Z.of_nat (length (hex_cells radius)) →
  hex_cells radius !! Z.to_nat idx = Some (hex_cells radius !!! Z.to_nat idx).
Proof. intros Hidx. apply list_lookup_lookup_total_lt. lia. Qed.

Lemma hex_picked_props radius f (g : G) :
  Z.of_nat (length (hex_cells radius)) ≤ 2 ^ 53 → (0 <= f <= 1)%R →
  NoDup (hex_picked radius f g) ∧
  Z.of_nat (length (hex_picked radius f g))
  = demotion_count (Z.of_nat (length (hex_cells radius))) f ∧
  (∀ p, p ∈ hex_picked radius f g → p ∈ hex_cells radius) ∧
  (f = 1%R → ∀ p, p ∈ hex_cells radius → p ∈ hex_picked radius f g).
Proof.
  intros Hsize Hf. unfold hex_picked.
  set (N := Z.of_nat (length (hex_cells radius))) in *.
  destruct (demotion_count_in_range N f ltac:(lia) Hf) as [_ Hk].
  destruct (sample_props N _ g Hk) as (Hnodup & Hlen & Hrange & Hall).
  split; [| split; [| split]].
  - apply NoDup_fmap_2_strong; [| done].
    intros p q Hp Hq Heq. apply Hrange in Hp, Hq.
    pose proof (hex_lookup_total radius p Hp) as Hlp.
    pose proof (hex_lookup_total radius q Hq) as Hlq.
    rewrite Heq in Hlp.
    pose proof (NoDup_lookup _ _ _ _ (NoDup_hex_cells radius) Hlp Hlq). lia.
  - by rewrite length_fmap.
  - intros p Hin. apply list_elem_of_fmap in Hin as (idx & -> & Hidx).
    apply Hrange in Hidx.
    eapply list_elem_of_lookup_2. by apply hex_lookup_total.
  - intros -> p Hp. apply list_elem_of_lookup_1 in Hp as [k Hk'].
    apply list_elem_of_fmap. exists (Z.of_nat k).
    pose proof (lookup_lt_Some _ _ _ Hk') as Hlt.
    split.
    + rewrite Nat2Z.id. symmetry. by apply list_lookup_total_correct.
    + apply Hall; [| lia]. apply demotion_count_one. lia.
Qed.

(** The randomised rectangular generator, once the count [n] is computed
    and lies between [0] and the number of cells: the cells of the sampled
    flat indices are demoted, the others stay Active. *)
Lemma rectangular_marks rows columns f passive n (g : G) :
  0 ≤ rows → 0 ≤ columns →
  sample_size (rows * columns) f = Ok n →
  0 ≤ n ≤ rows * columns →
  ∃ grid,
    create_rectangular_array rows columns true f passive g
    = Ok (grid, (permutation (rows * columns) g).2) ∧
    has_shape grid rows columns ∧
    ∀ i j, 0 ≤ i < rows → 0 ≤ j < columns →
      cell_at grid i j =
      Some (if bool_decide
                 ((i, j) ∈ (λ pos, (pos `div` columns, pos `mod` columns)) <$>
                             sample (rows * columns) n g)
            then demoted passive else Active).
Proof.
  intros Hrows Hcols Hint Hk. unfold create_rectangular_array, np_ones.
  rewrite (bind_lift_Ok _ _ _ g (np_full_ok rows columns Active Hrows Hcols)).
  cbv zeta. rewrite bind_sample_size, (bind_lift_Ok _ _ _ g Hint).
  rewrite (bind_Ok _ _ _ _ _ (choice_in_range _ _ g Hk)).
  destruct (sample_props (rows * columns) _ g Hk) as (_ & _ & Hrange & _).
  destruct (mark_loop (G:=G) rows columns
              (λ pos, (pos `div` columns, pos `mod` columns)) (demoted passive)
              (λ pos rect_array,
                 lift (setitem rect_array (pos `div` columns) (pos `mod` columns)
                         (demoted passive)))
              (sample (rows * columns) n g))
    with (gr := replicate (Z.to_nat rows) (replicate (Z.to_nat columns) Active))
         (g := (permutation (rows * columns) g).2)
    as (grid & Hrun & Hshape & Hcells).
  - done.
  - intros p Hp. apply Hrange in Hp. assert (0 < columns) as Hpos by nia.
    simpl. split; [split |].
    + apply Z.div_pos; lia.
    + apply Z.div_lt_upper_bound; lia.
    + by apply Z.mod_pos_bound.
  - by apply has_shape_full.
  - exists grid. split; [done |]. split; [done |].
    intros i j Hi Hj. rewrite Hcells.
    case_bool_decide; [done |]. by apply cell_at_full.
Qed.

Lemma rectangular_randomized rows columns f passive (g : G) :
  0 ≤ rows → 0 ≤ columns → rows * columns ≤ 2 ^ 53 → (0 <= f <= 1)%R →
  ∃ grid,
    create_rectangular_array rows columns true f passive g
    = Ok (grid, (permutation (rows * columns) g).2) ∧
    has_shape grid rows columns ∧
    ∀ i j, 0 ≤ i < rows → 0 ≤ j < columns →
      cell_at grid i j =
      Some (if bool_decide ((i, j) ∈ rect_picked rows columns f g)
            then demoted passive else Active).
Proof.
  intros Hrows Hcols Hsize Hf.
  destruct (demotion_count_in_range (rows * columns) f ltac:(lia) Hf)
    as [Hint Hk].
  exact (rectangular_marks rows columns f passive _ g Hrows Hcols Hint Hk).
Qed.

(** The same for the hexagonal generator: the sampled indices are looked
    up in [cell_positions]. *)
Lemma hexagonal_marks radius f passive n (g : G) :
  0 ≤ radius →
  sample_size (Z.of_nat (length (hex_cells radius))) f = Ok n →
  0 ≤ n ≤ Z.of_nat (length (hex_cells radius)) →
  ∃ grid,
    create_hexagonal_array radius true f passive g
    = Ok (grid, (permutation (Z.of_nat (length (hex_cells radius))) g).2) ∧
    has_shape grid (2 * radius + 1) (2 * radius + 1) ∧
    ∀ i j, 0 ≤ i < 2 * radius + 1 → 0 ≤ j < 2 * radius + 1 →
      cell_at grid i j =
      Some (if bool_decide
                 ((i, j) ∈ (λ idx, hex_cells radius !!! Z.to_nat idx) <$>
                             sample (Z.of_nat (length (hex_cells radius))) n g)
            then demoted passive
            else if bool_decide ((i, j) ∈ hex_cells radius) then Active
            else Empty).
Proof.
  intros Hradius Hint Hk.
  destruct (hex_fill radius g Hradius) as (gr & Hloop & Hshape & Hcells).
  unfold create_hexagonal_array.
  rewrite (bind_lift_Ok _ _ _ g
             (np_full_ok (2 * radius + 1) (2 * radius + 1) Empty
                ltac:(lia) ltac:(lia))).
  rewrite (bind_Ok _ _ _ _ _ Hloop).
  set (N := Z.of_nat (length (hex_cells radius))) in *.
  rewrite bind_sample_size, (bind_lift_Ok _ _ _ _ Hint).
  rewrite (bind_Ok _ _ _ _ _ (choice_in_range _ _ g Hk)).
  destruct (sample_props N _ g Hk) as (_ & _ & Hrange & _).
  destruct (mark_loop (G:=G) (2 * radius + 1) (2 * radius + 1)
              (λ idx, hex_cells radius !!! Z.to_nat idx) (demoted passive)
              (λ idx hex_array,
                 p <- lift (list_getitem (hex_cells radius) idx);;
                 let '(i, j) := p in
                 lift (setitem hex_array i j (demoted passive)))
              (sample N n g))
    with (gr := gr) (g := (permutation N g).2)
    as (grid & Hrun & Hshape' & Hcells').
  - intros idx gr1 g1 Hidx. apply Hrange in Hidx.
    unfold list_getitem. rewrite norm_index_in_range by done.
    rewrite (hex_lookup_total radius idx Hidx).
    by destruct (hex_cells radius !!! Z.to_nat idx).
  - intros idx Hidx. apply Hrange in Hidx.
    pose proof (hex_lookup_total radius idx Hidx) as Hl.
    apply list_elem_of_lookup_2 in Hl.
    destruct (hex_cells radius !!! Z.to_nat idx) as [i j].
    by apply hex_cells_in_bounds.
  - done.
  - exists grid. split; [exact Hrun |]. split; [done |].
    intros i j Hi Hj. rewrite Hcells'.
    case_bool_decide; [done |]. rewrite (Hcells _ _ Hi Hj). f_equal.
    apply (f_equal (λ b : bool, if b then Active else Empty)).
    apply bool_decide_ext. rewrite elem_of_hex_cells. tauto.
Qed.

Lemma hexagonal_randomized radius f passive (g : G) :
  0 ≤ radius → Z.of_nat (length (hex_cells radius)) ≤ 2 ^ 53 →
  (0 <= f <= 1)%R →
  ∃ grid,
    create_hexagonal_array radius true f passive g
    = Ok (grid, (permutation (Z.of_nat (length (hex_cells radius))) g).2) ∧
    has_shape grid (2 * radius + 1) (2 * radius + 1) ∧
    ∀ i j, 0 ≤ i < 2 * radius + 1 → 0 ≤ j < 2 * radius + 1 →
      cell_at grid i j =
      Some (if bool_decide ((i, j) ∈ hex_picked radius f g) then demoted passive
            else if bool_decide ((i, j) ∈ hex_cells radius) then Active
            else Empty).
Proof.
  intros Hradius Hsize Hf.
  destruct (demotion_count_in_range (Z.of_nat (length (hex_cells radius))) f
              ltac:(lia) Hf) as [Hint Hk].
  exact (hexagonal_marks radius f passive _ g Hradius Hint Hk).
Qed.

End Picked.

(** ** Counting the cells that stay Active *)

Lemma length_positions n m :
  0 ≤ n → 0 ≤ m → Z.of_nat (length (positions n m)) = n * m.
Proof.
  intros Hn Hm. unfold positions.
  assert (∀ l : list Z,
            length (l ≫= λ i, (λ j, (i, j)) <$> range m)
            = (length l * length (range m))%nat) as Hlen.
  { induction l as [| i l IH]; [done |].
    rewrite bind_cons, length_app, length_fmap, IH. simpl. lia. }
  rewrite Hlen. pose proof (length_range n Hn). pose proof (length_range m Hm).
  nia.
Qed.

(** In a grid whose [region] is Active except for the [picked] cells, which
    hold a non-Active value, and Empty elsewhere, the Active cells are the
    cells of the region that were not picked. *)
Lemma count_active_demoted gr n m (region picked : list (Z * Z)) (d : cell) :
  has_shape gr n m → NoDup region → NoDup picked →
  (∀ p, p ∈ picked → p ∈ region) →
  (∀ i j, (i, j) ∈ region → 0 ≤ i < n ∧ 0 ≤ j < m) →
  d ≠ Active →
  (∀ i j, 0 ≤ i < n → 0 ≤ j < m →
     cell_at gr i j =
     Some (if bool_decide ((i, j) ∈ picked) then d
           else if bool_decide ((i, j) ∈ region) then Active else Empty)) →
  (count_active gr + length picked = length region)%nat.
Proof.
  intros Hshape Hregion Hpicked Hsub Hbounds Hd Hcells.
  unfold count_active.
  rewrite (count_filter_grid gr n m _ (filter (λ p, p ∉ picked) region) Hshape).
  - rewrite <- (Permutation_length
                  (filter_app_complement (λ p, p ∈ picked) region)).
    rewrite length_app.
    assert (filter (λ p, p ∈ picked) region ≡ₚ picked) as ->; [| lia].
    apply NoDup_Permutation; [by apply NoDup_filter | done |].
    intros p. rewrite list_elem_of_filter. split; [tauto |].
    intros Hp. split; [done | by apply Hsub].
  - by apply NoDup_filter.
  - intros i j. rewrite list_elem_of_filter. split.
    + intros [Hnot Hin]. destruct (Hbounds _ _ Hin) as [Hi Hj].
      split; [done |].
      rewrite (cell_or_empty_Some _ _ _ _ (Hcells _ _ Hi Hj)).
      by rewrite bool_decide_eq_false_2, bool_decide_eq_true_2.
    + intros [[Hi Hj] Hact].
      rewrite (cell_or_empty_Some _ _ _ _ (Hcells _ _ Hi Hj)) in Hact.
      case_bool_decide; [done |]. case_bool_decide; done.
Qed.

Lemma demoted_not_Active passive : demoted passive ≠ Active.
Proof. by destruct passive. Qed.

Section SamplingClaims.
Context {G : Type} `{RandomSource G}.

(** The number of Active cells the randomised rectangular generator
    leaves. *)
Lemma rectangular_active_count rows columns f passive (g : G) :
  0 ≤ rows → 0 ≤ columns → rows * columns ≤ 2 ^ 53 → (0 <= f <= 1)%R →
  ∃ grid,
    create_rectangular_array rows columns true f passive g
    = Ok (grid, (permutation (rows * columns) g).2) ∧
    has_shape grid rows columns ∧
    Z.of_nat (count_active grid)
    = rows * columns - demotion_count (rows * columns) f.
Proof.
  intros Hrows Hcols Hsize Hf.
  destruct (rectangular_randomized rows columns f passive g Hrows Hcols Hsize Hf)
    as (grid & Hrun & Hshape & Hcells).
  destruct (rect_picked_props rows columns f g Hrows Hcols Hsize Hf)
    as (Hnodup & Hlen & Hbounds & _).
  exists grid. split; [done |]. split; [done |].
  pose proof (count_active_demoted grid rows columns (positions rows columns)
                (rect_picked rows columns f g) (demoted passive) Hshape
                (NoDup_positions rows columns) Hnodup) as Hcount.
  pose proof (length_positions rows columns Hrows Hcols) as Hpos.
  rewrite <- Hlen, <- Hpos. rewrite <- Hcount; [lia | | | |].
  - intros [i j] Hp. apply elem_of_positions. by apply Hbounds.
  - intros i j. by rewrite elem_of_positions.
  - apply demoted_not_Active.
  - intros i j Hi Hj. rewrite (Hcells _ _ Hi Hj).
    rewrite (bool_decide_eq_true_2 ((i, j) ∈ positions rows columns));
      [done | by apply elem_of_positions].
Qed.

(** C3 (as the code has it): with [randomize = True],
    [empty_fraction = f] in [[0, 1]] and at most [2^53] cells, the
    rectangular and the hexagonal generator demote exactly [int(N * f)]
    distinct cells of the region to Passive (if [passive]) or Empty, where
    [N] is [rows * columns] for the rectangle and the number of in-hexagon
    positions for the hexagon (the length of [hex_cells], which lists each
    in-hexagon position once), and [N * f] is the binary64 product; every
    other cell of the region stays Active (and, for the hexagon, every cell
    outside it is Empty).  Hence the grid has [N - int(N * f)] Active cells.
    The count is [floor(N * f)] of the exact product, or one more when the
    binary64 product is rounded up to the next integer. *)
Theorem fixed_count_demotion rows columns radius f passive (g : G) :
  (0 <= f <= 1)%R → 0 ≤ rows → 0 ≤ columns → 0 ≤ radius →
  rows * columns ≤ 2 ^ 53 → Z.of_nat (length (hex_cells radius)) ≤ 2 ^ 53 →
  (∃ grid g' picked,
     create_rectangular_array rows columns true f passive g = Ok (grid, g') ∧
     has_shape grid rows columns ∧
     NoDup picked ∧
     Z.of_nat (length picked)
     = py_int (float_mul (float_of_int (rows * columns)) f) ∧
     (∀ i j, (i, j) ∈ picked → 0 ≤ i < rows ∧ 0 ≤ j < columns) ∧
     (∀ i j, 0 ≤ i < rows → 0 ≤ j < columns →
        cell_at grid i j =
        Some (if bool_decide ((i, j) ∈ picked) then demoted passive
              else Active)) ∧
     Z.of_nat (count_active grid)
     = rows * columns - py_int (float_mul (float_of_int (rows * columns)) f) ∧
     Int_part (IZR (rows * columns) * f)
     ≤ py_int (float_mul (float_of_int (rows * columns)) f)
     ≤ Int_part (IZR (rows * columns) * f) + 1) ∧
  (∃ grid g' picked,
     let N := Z.of_nat (length (hex_cells radius)) in
     (NoDup (hex_cells radius) ∧
      ∀ i j, (i, j) ∈ hex_cells radius ↔
             0 ≤ i < 2 * radius + 1 ∧
             Z.max 0 (radius - i) ≤ j < (2 * radius + 1) - Z.max 0 (i - radius)) ∧
     create_hexagonal_array radius true f passive g = Ok (grid, g') ∧
     has_shape grid (2 * radius + 1) (2 * radius + 1) ∧
     NoDup picked ∧
     Z.of_nat (length picked) = py_int (float_mul (float_of_int N) f) ∧
     (∀ i j, (i, j) ∈ picked →
        0 ≤ i < 2 * radius + 1 ∧
        Z.max 0 (radius - i) ≤ j < (2 * radius + 1) - Z.max 0 (i - radius)) ∧
     (∀ i j, 0 ≤ i < 2 * radius + 1 → 0 ≤ j < 2 * radius + 1 →
        cell_at grid i j =
        Some (if bool_decide ((i, j) ∈ picked) then demoted passive
              else if bool_decide
                        (Z.max 0 (radius - i) ≤ j
                         < (2 * radius + 1) - Z.max 0 (i - radius))
                   then Active else Empty)) ∧
     Z.of_nat (count_active grid) = N - py_int (float_mul (float_of_int N) f) ∧
     Int_part (IZR N * f) ≤ py_int (float_mul (float_of_int N) f)
     ≤ Int_part (IZR N * f) + 1).
Proof.
  intros Hf Hrows Hcols Hradius Hsize Hhex. split.
  - destruct (rectangular_randomized rows columns f passive g Hrows Hcols Hsize Hf)
      as (grid & Hrun & Hshape & Hcells).
    destruct (rect_picked_props rows columns f g Hrows Hcols Hsize Hf)
      as (Hnodup & Hlen & Hbounds & _).
    fold (demotion_count (rows * columns) f).
    exists grid, (permutation (rows * columns) g).2, (rect_picked rows columns f g).
    split; [done |]. split; [done |]. split; [done |]. split; [done |].
    split; [done |]. split; [done |].
    split; [| apply demotion_count_floor; [lia | done]].
    pose proof (count_active_demoted grid rows columns (positions rows columns)
                  (rect_picked rows columns f g) (demoted passive) Hshape
                  (NoDup_positions rows columns) Hnodup) as Hcount.
    pose proof (length_positions rows columns Hrows Hcols) as Hpos.
    rewrite <- Hlen, <- Hpos. rewrite <- Hcount; [lia | | | |].
    + intros [i j] Hp. apply elem_of_positions. by apply Hbounds.
    + intros i j. by rewrite elem_of_positions.
    + apply demoted_not_Active.
    + intros i j Hi Hj. rewrite (Hcells _ _ Hi Hj).
      rewrite (bool_decide_eq_true_2 ((i, j) ∈ positions rows columns));
        [done | by apply elem_of_positions].
  - destruct (hexagonal_randomized radius f passive g Hradius Hhex Hf)
      as (grid & Hrun & Hshape & Hcells).
    destruct (hex_picked_props radius f g Hhex Hf) as (Hnodup & Hlen & Hsub & _).
    exists grid, (permutation (Z.of_nat (length (hex_cells radius))) g).2,
      (hex_picked radius f g).
    cbv zeta. fold (demotion_count (Z.of_nat (length (hex_cells radius))) f).
    split; [split; [apply NoDup_hex_cells | apply elem_of_hex_cells] |].
    split; [done |]. split; [done |]. split; [done |]. split; [done |].
    split; [| split; [| split; [| apply demotion_count_floor; [lia | done]]]].
    + intros i j Hp. apply Hsub in Hp. by apply elem_of_hex_cells in Hp.
    + intros i j Hi Hj. rewrite (Hcells _ _ Hi Hj).
      case_bool_decide; [done |]. f_equal.
      apply (f_equal (λ b : bool, if b then Active else Empty)).
      apply bool_decide_ext. rewrite elem_of_hex_cells.
      unfold hex_start, hex_end. tauto.
    + pose proof (count_active_demoted grid (2 * radius + 1) (2 * radius + 1)
                    (hex_cells radius) (hex_picked radius f g) (demoted passive)
                    Hshape (NoDup_hex_cells radius) Hnodup Hsub) as Hcount.
      rewrite <- Hlen. rewrite <- Hcount; [lia | | | done].
      * intros i j. apply hex_cells_in_bounds.
      * apply demoted_not_Active.
Qed.

End SamplingClaims.

(** ** Certain demotion *)

Section CertainDemotion.
Context {G : Type} `{RandomSource G}.

Lemma Rle_0_1_1 : (0 <= 1 <= 1)%R.
Proof. lra. Qed.

(** C8: with [passive = True], [randomize = True] and
    [empty_fraction = 1.0], every in-region cell of the rectangular,
    hexagonal, circular and octagonal generators is Passive: none is Empty,
    none stays Active (cells outside the region are Empty).  The region of
    the circular and of the octagonal generator is the set of cells that
    pass the generator's test, as it computes it.  For the rectangle and
    the hexagon the number of cells is at most [2^53], as it is for every
    array that fits in memory, so that [int(N * 1.0)] is [N]. *)
Theorem full_fraction_all_passive
    rows columns hex_radius grid_size radius side_length (g : G) :
  0 ≤ rows → 0 ≤ columns → 0 ≤ hex_radius → 0 ≤ grid_size →
  rows * columns ≤ 2 ^ 53 → Z.of_nat (length (hex_cells hex_radius)) ≤ 2 ^ 53 →
  (∃ grid g',
     create_rectangular_array rows columns true 1 true g = Ok (grid, g') ∧
     has_shape grid rows columns ∧
     ∀ i j, 0 ≤ i < rows → 0 ≤ j < columns → cell_at grid i j = Some Passive) ∧
  (∃ grid g',
     create_hexagonal_array hex_radius true 1 true g = Ok (grid, g') ∧
     has_shape grid (2 * hex_radius + 1) (2 * hex_radius + 1) ∧
     ∀ i j, 0 ≤ i < 2 * hex_radius + 1 → 0 ≤ j < 2 * hex_radius + 1 →
       cell_at grid i j =
       Some (if bool_decide
                  (Z.max 0 (hex_radius - i) ≤ j
                   < (2 * hex_radius + 1) - Z.max 0 (i - hex_radius))
             then Passive else Empty)) ∧
  (∃ grid g',
     create_circular_array grid_size radius true 1 true g = Ok (grid, g') ∧
     has_shape grid grid_size grid_size ∧
     ∀ i j, 0 ≤ i < grid_size → 0 ≤ j < grid_size →
       cell_at grid i j =
       Some (if bool_decide (in_circle grid_size radius i j)
             then Passive else Empty)) ∧
  (∃ grid g',
     create_octagonal_array grid_size side_length true 1 true g = Ok (grid, g') ∧
     has_shape grid grid_size grid_size ∧
     ∀ i j, 0 ≤ i < grid_size → 0 ≤ j < grid_size →
       cell_at grid i j =
       Some (if bool_decide (in_octagon grid_size side_length i j)
             then Passive else Empty)).
Proof.
  intros Hrows Hcols Hradius Hgs Hsize Hhex. split; [| split; [| split]].
  - destruct (rectangular_randomized rows columns 1 true g Hrows Hcols Hsize
                Rle_0_1_1)
      as (grid & Hrun & Hshape & Hcells).
    destruct (rect_picked_props rows columns 1 g Hrows Hcols Hsize Rle_0_1_1)
      as (_ & _ & _ & Hall).
    exists grid, (permutation (rows * columns) g).2.
    split; [done |]. split; [done |].
    intros i j Hi Hj. rewrite (Hcells _ _ Hi Hj).
    rewrite bool_decide_eq_true_2; [done | by apply Hall].
  - destruct (hexagonal_randomized hex_radius 1 true g Hradius Hhex Rle_0_1_1)
      as (grid & Hrun & Hshape & Hcells).
    destruct (hex_picked_props hex_radius 1 g Hhex Rle_0_1_1)
      as (_ & _ & Hsub & Hall).
    exists grid, (permutation (Z.of_nat (length (hex_cells hex_radius))) g).2.
    split; [done |]. split; [done |].
    intros i j Hi Hj. rewrite (Hcells _ _ Hi Hj).
    fold (hex_start hex_radius i). fold (hex_end hex_radius i).
    case_bool_decide as Hin.
    + apply Hsub, elem_of_hex_cells in Hin as [_ Hin].
      by rewrite bool_decide_eq_true_2.
    + assert ((i, j) ∉ hex_cells hex_radius) as Hout
        by (intros Hc; by apply Hin, Hall).
      rewrite (bool_decide_eq_false_2 _ Hout).
      rewrite bool_decide_eq_false_2; [done |].
      intros Hc. apply Hout, elem_of_hex_cells. by split.
  - destruct (circular_uniform grid_size radius true 1 true true g Hgs)
      as (grid & g' & Hrun & Hshape & Hcells).
    { intros g1. eexists. apply draw_gap_certain. lra. }
    by exists grid, g'.
  - destruct (octagonal_uniform grid_size side_length true 1 true true g Hgs)
      as (grid & g' & Hrun & Hshape & Hcells).
    { intros g1. eexists. apply draw_gap_certain. lra. }
    by exists grid, g'.
Qed.

End CertainDemotion.

(** ** Without randomisation the generators are pure *)

Section Pure.
Context {G : Type} `{RandomSource G}.

Lemma value_of_lift {A} (r : result A) (g : G) : value_of (lift r g) = r.
Proof. by destruct r. Qed.

Lemma state_unchanged_lift {A} (r : result A) (g : G) :
  state_unchanged g (lift r g).
Proof. by destruct r. Qed.

Lemma hexagonal_not_randomized radius f passive (g : G) :
  create_hexagonal_array radius false f passive g
  = lift (hexagonal_pure radius) g.
Proof.
  unfold create_hexagonal_array, hexagonal_pure, bind at 1.
  destruct (np_full _ _ Empty) as [gr | e]; [| done]. cbn [lift].
  unfold bind at 1.
  rewrite (for_each_lift _ _
    (λ i '(hex_array, cell_positions),
       match setslice hex_array i (Z.max 0 (radius - i))
               (2 * radius + 1 - Z.max 0 (i - radius)) Active with
       | Raise e => Raise e
       | Ok hex_array =>
           Ok (hex_array,
               cell_positions ++
               ((λ j, (i, j)) <$>
                  range2 (Z.max 0 (radius - i))
                    (2 * radius + 1 - Z.max 0 (i - radius))))
       end)).
  - unfold lift at 1.
    destruct (for_each_pure _ _ _) as [[h cp] | e]; done.
  - intros i [h cp] g1. unfold bind, lift, ret.
    by destruct (setslice _ _ _ _ _).
Qed.

Lemma rectangular_not_randomized rows columns f passive (g : G) :
  create_rectangular_array rows columns false f passive g
  = lift (rectangular_pure rows columns) g.
Proof.
  unfold create_rectangular_array, rectangular_pure, bind, lift, ret.
  by destruct (np_ones rows columns).
Qed.

Lemma sunflower_not_randomized n_points radius grid_size f passive (g : G) :
  create_sunflower_array n_points radius grid_size false f passive g
  = lift (sunflower_pure n_points radius grid_size) g.
Proof.
  unfold create_sunflower_array, sunflower_pure, bind at 1.
  destruct (np_full _ _ Empty) as [gr | e]; [| done]. cbn [lift].
  destruct (range n_points) as [| i l]; [done |].
  cbn [for_each_ctl]. unfold sunflower_point_value. unfold bind, lift, ret.
  destruct (_ && _); [| done].
  by destruct (setitem _ _ _ _).
Qed.

Lemma circular_not_randomized grid_size radius f passive (g : G) :
  create_circular_array grid_size radius false f passive g
  = lift (circular_pure grid_size radius) g.
Proof.
  unfold create_circular_array, circular_pure, bind at 1.
  destruct (np_full _ _ Empty) as [gr | e]; [| done]. cbn [lift].
  apply for_each_lift. intros i gr1 g1.
  apply for_each_lift. intros j gr2 g2.
  by destruct (Rleb _ _).
Qed.

Lemma octagonal_not_randomized grid_size side_length f passive (g : G) :
  create_octagonal_array grid_size side_length false f passive g
  = lift (octagonal_pure grid_size side_length) g.
Proof.
  unfold create_octagonal_array, octagonal_pure, bind at 1.
  destruct (np_full _ _ Empty) as [gr | e]; [| done]. cbn [lift].
  apply for_each_lift. intros i gr1 g1.
  apply for_each_lift. intros j gr2 g2.
  by destruct (_ && _).
Qed.

End Pure.

(** C9: with [randomize = False] every generator is a deterministic
    function of its parameters and makes no use of the random source: two
    calls with the same parameters give the same result for any two random
    sources in any two states, and a call leaves the state as it was. *)
Theorem not_randomized_is_deterministic
    {G1 G2 : Type} `{RandomSource G1} `{RandomSource G2} (g1 : G1) (g2 : G2)
    (hex_radius rows columns n_points grid_size : Z)
    (radius side_length empty_fraction : R) (passive : bool) :
  (value_of (create_hexagonal_array hex_radius false empty_fraction passive g1)
   = value_of (create_hexagonal_array hex_radius false empty_fraction passive g2) ∧
   state_unchanged g1
     (create_hexagonal_array hex_radius false empty_fraction passive g1)) ∧
  (value_of (create_rectangular_array rows columns false empty_fraction passive g1)
   = value_of (create_rectangular_array rows columns false empty_fraction passive g2) ∧
   state_unchanged g1
     (create_rectangular_array rows columns false empty_fraction passive g1)) ∧
  (value_of (create_sunflower_array n_points radius grid_size false
               empty_fraction passive g1)
   = value_of (create_sunflower_array n_points radius grid_size false
                 empty_fraction passive g2) ∧
   state_unchanged g1
     (create_sunflower_array n_points radius grid_size false
        empty_fraction passive g1)) ∧
  (value_of (create_circular_array grid_size radius false empty_fraction passive g1)
   = value_of (create_circular_array grid_size radius false empty_fraction passive g2) ∧
   state_unchanged g1
     (create_circular_array grid_size radius false empty_fraction passive g1)) ∧
  (value_of (create_octagonal_array grid_size side_length false
               empty_fraction passive g1)
   = value_of (create_octagonal_array grid_size side_length false
                 empty_fraction passive g2) ∧
   state_unchanged g1
     (create_octagonal_array grid_size side_length false
        empty_fraction passive g1)).
Proof.
  rewrite !hexagonal_not_randomized, !rectangular_not_randomized,
    !sunflower_not_randomized, !circular_not_randomized,
    !octagonal_not_randomized.
  rewrite !value_of_lift.
  repeat split; apply state_unchanged_lift.
Qed.

(** ** Parameters outside their intended range *)

Section Unvalidated.
Context {G : Type} `{RandomSource G}.

Lemma lift_np_full_negative {B} n m v (k : grid → M G B) (g : G) :
  n < 0 ∨ m < 0 → bind (lift (np_full n m v)) k g = Raise ValueError.
Proof. intros Hneg. by rewrite (np_full_negative n m v Hneg). Qed.

(** The sunflower generator raises nothing on a grid size that is not
    negative: a point is written only after its indices have been checked. *)
Lemma sunflower_returns n_points radius grid_size randomize f passive (g : G) :
  0 ≤ grid_size →
  ¬ raises (create_sunflower_array n_points radius grid_size randomize f
              passive g).
Proof.
  intros Hgs. unfold create_sunflower_array.
  rewrite (bind_lift_Ok _ _ _ g (np_full_ok grid_size grid_size Empty Hgs Hgs)).
  unfold range. destruct (Z_le_gt_dec n_points 0) as [Hn | Hn].
  { rewrite seqZ_nil by lia. by intros []. }
  rewrite seqZ_cons by lia. cbn [for_each_ctl].
  set (row := py_round _). set (col := py_round _).
  destruct ((0 <=? row) && (row <? grid_size) && (0 <=? col) && (col <? grid_size))
    eqn:Hin.
  - destruct (setitem_spec
                (replicate (Z.to_nat grid_size)
                   (replicate (Z.to_nat grid_size) Empty))
                grid_size grid_size row col
                (sunflower_cell randomize f passive g).1)
      as (grid & Hset & _); [by apply has_shape_full | lia | lia |].
    unfold bind. rewrite sunflower_point_value_run.
    destruct (sunflower_cell randomize f passive g) as [v g']. simpl in *.
    unfold lift. rewrite Hset. by intros [].
  - by intros [].
Qed.

(** The outcome of the randomised rectangular generator on dimensions
    that are not negative, by the sample size [int(rows * columns * f)]. *)
Lemma rectangular_outcome rows columns f passive (g : G) :
  0 ≤ rows → 0 ≤ columns →
  (∀ e, sample_size (rows * columns) f = Raise e →
        create_rectangular_array rows columns true f passive g = Raise e) ∧
  (∀ n, sample_size (rows * columns) f = Ok n →
        n < 0 ∨ rows * columns < n →
        create_rectangular_array rows columns true f passive g
        = Raise ValueError) ∧
  (∀ n, sample_size (rows * columns) f = Ok n →
        0 ≤ n ≤ rows * columns →
        ¬ raises (create_rectangular_array rows columns true f passive g)).
Proof.
  intros Hrows Hcols. split; [| split].
  - intros e Hsize. unfold create_rectangular_array, np_ones.
    rewrite (bind_lift_Ok _ _ _ g (np_full_ok rows columns Active Hrows Hcols)).
    cbv zeta. rewrite bind_sample_size. apply bind_Raise. by rewrite Hsize.
  - intros n Hsize Hk. unfold create_rectangular_array, np_ones.
    rewrite (bind_lift_Ok _ _ _ g (np_full_ok rows columns Active Hrows Hcols)).
    cbv zeta. rewrite bind_sample_size, (bind_lift_Ok _ _ _ g Hsize).
    apply bind_Raise, choice_out_of_range. lia.
  - intros n Hsize Hk.
    destruct (rectangular_marks rows columns f passive n g Hrows Hcols Hsize Hk)
      as (grid & -> & _). by intros [].
Qed.

Lemma hexagonal_outcome radius f passive (g : G) :
  0 ≤ radius →
  (∀ e, sample_size (Z.of_nat (length (hex_cells radius))) f = Raise e →
        create_hexagonal_array radius true f passive g = Raise e) ∧
  (∀ n, sample_size (Z.of_nat (length (hex_cells radius))) f = Ok n →
        n < 0 ∨ Z.of_nat (length (hex_cells radius)) < n →
        create_hexagonal_array radius true f passive g = Raise ValueError) ∧
  (∀ n, sample_size (Z.of_nat (length (hex_cells radius))) f = Ok n →
        0 ≤ n ≤ Z.of_nat (length (hex_cells radius)) →
        ¬ raises (create_hexagonal_array radius true f passive g)).
Proof.
  intros Hradius.
  destruct (hex_fill radius g Hradius) as (gr & Hloop & _).
  split; [| split].
  - intros e Hsize. unfold create_hexagonal_array.
    rewrite (bind_lift_Ok _ _ _ g
               (np_full_ok (2 * radius + 1) (2 * radius + 1) Empty
                  ltac:(lia) ltac:(lia))).
    rewrite (bind_Ok _ _ _ _ _ Hloop).
    rewrite bind_sample_size. apply bind_Raise. by rewrite Hsize.
  - intros n Hsize Hk. unfold create_hexagonal_array.
    rewrite (bind_lift_Ok _ _ _ g
               (np_full_ok (2 * radius + 1) (2 * radius + 1) Empty
                  ltac:(lia) ltac:(lia))).
    rewrite (bind_Ok _ _ _ _ _ Hloop).
    rewrite bind_sample_size, (bind_lift_Ok _ _ _ _ Hsize).
    apply bind_Raise, choice_out_of_range. lia.
  - intros n Hsize Hk.
    destruct (hexagonal_marks radius f passive n g Hradius Hsize Hk)
      as (grid & -> & _). by intros [].
Qed.

(** The cases of [int(N * f)], and the outcome of a call in each. *)
Lemma sample_size_cases N f :
  (isinf (float_of_int N) = true ∨ isinf (float_mul (float_of_int N) f) = true) ∧
  sample_size N f = Raise OverflowError
  ∨ (isinf (float_of_int N) = false ∧
     isinf (float_mul (float_of_int N) f) = false) ∧
    sample_size N f = Ok (demotion_count N f).
Proof.
  destruct (isinf (float_of_int N)) eqn:HN.
  { left. split; [by left |]. apply sample_size_overflow. by left. }
  destruct (isinf (float_mul (float_of_int N) f)) eqn:Hp.
  { left. split; [by right |]. apply sample_size_overflow. by right. }
  right. split; [done |]. by apply sample_size_finite.
Qed.

Lemma sampling_outcome N f (run : result (grid * G)) :
  (∀ e, sample_size N f = Raise e → run = Raise e) →
  (∀ n, sample_size N f = Ok n → n < 0 ∨ N < n → run = Raise ValueError) →
  (∀ n, sample_size N f = Ok n → 0 ≤ n ≤ N → ¬ raises run) →
  (isinf (float_of_int N) = true ∨ isinf (float_mul (float_of_int N) f) = true →
   run = Raise OverflowError) ∧
  (isinf (float_of_int N) = false →
   isinf (float_mul (float_of_int N) f) = false →
   py_int (float_mul (float_of_int N) f) < 0
   ∨ N < py_int (float_mul (float_of_int N) f) →
   run = Raise ValueError) ∧
  (isinf (float_of_int N) = false →
   isinf (float_mul (float_of_int N) f) = false →
   0 ≤ py_int (float_mul (float_of_int N) f) ≤ N →
   ¬ raises run) ∧
  (∀ e, run = Raise e → e = ValueError ∨ e = OverflowError).
Proof.
  intros Hraise Hout Hin. split; [| split; [| split]].
  - intros Hinf. apply Hraise. by apply sample_size_overflow.
  - intros HN Hp Hk. apply (Hout (demotion_count N f)); [| done].
    by apply sample_size_finite.
  - intros HN Hp Hk. apply (Hin (demotion_count N f)); [| done].
    by apply sample_size_finite.
  - intros e Hrun.
    destruct (sample_size_cases N f) as [[_ Hsize] | [_ Hsize]].
    + rewrite (Hraise _ Hsize) in Hrun. right. congruence.
    + destruct (decide (0 ≤ demotion_count N f ≤ N)) as [Hk | Hk].
      * exfalso. apply (Hin _ Hsize Hk). by rewrite Hrun.
      * rewrite (Hout _ Hsize) in Hrun by lia. left. congruence.
Qed.

Lemma not_randomized_returns rows columns hex_radius f passive (g : G) :
  (0 ≤ rows → 0 ≤ columns →
   ¬ raises (create_rectangular_array rows columns false f passive g)) ∧
  (0 ≤ hex_radius →
   ¬ raises (create_hexagonal_array hex_radius false f passive g)).
Proof.
  split.
  - intros Hrows Hcols. unfold create_rectangular_array, np_ones.
    rewrite (bind_lift_Ok _ _ _ g (np_full_ok rows columns Active Hrows Hcols)).
    by intros [].
  - intros Hradius. destruct (hex_fill hex_radius g Hradius) as (gr & Hloop & _).
    unfold create_hexagonal_array.
    rewrite (bind_lift_Ok _ _ _ g
               (np_full_ok (2 * hex_radius + 1) (2 * hex_radius + 1) Empty
                  ltac:(lia) ltac:(lia))).
    rewrite (bind_Ok _ _ _ _ _ Hloop). by intros [].
Qed.

(** C1 (as the code has it): the generators do not validate their
    parameters, and no call fails with an error of its own.  Without
    randomisation [empty_fraction] is ignored, whatever its value;
    [rows = 0] gives a grid with no rows; [n_points <= 0] is not an error;
    the circular and the octagonal generator accept every
    [empty_fraction].  A call fails only with an error of the array library
    or of [int], in exactly these cases: [ValueError] on a negative
    dimension; in the randomised rectangular and hexagonal generators
    [OverflowError] when the number of cells [N] is beyond the float range
    or the binary64 product [N * empty_fraction] overflows, and
    [ValueError] when the sample size [int(N * empty_fraction)] is negative
    or exceeds [N].  Every other call returns. *)
Theorem parameters_are_not_validated
    (g : G) (rows columns hex_radius n_points grid_size : Z)
    (radius side_length f f' : R) (randomize passive : bool) :
  (0 ≤ columns →
   create_rectangular_array 0 columns false f passive g = Ok ([], g)) ∧
  (create_rectangular_array rows columns false f passive g
   = create_rectangular_array rows columns false f' passive g ∧
   create_hexagonal_array hex_radius false f passive g
   = create_hexagonal_array hex_radius false f' passive g ∧
   create_sunflower_array n_points radius grid_size false f passive g
   = create_sunflower_array n_points radius grid_size false f' passive g ∧
   create_circular_array grid_size radius false f passive g
   = create_circular_array grid_size radius false f' passive g ∧
   create_octagonal_array grid_size side_length false f passive g
   = create_octagonal_array grid_size side_length false f' passive g) ∧
  (0 ≤ grid_size →
   ¬ raises (create_sunflower_array n_points radius grid_size
               randomize f passive g) ∧
   ¬ raises (create_circular_array grid_size radius randomize f passive g) ∧
   ¬ raises (create_octagonal_array grid_size side_length randomize f passive g)) ∧
  (0 ≤ rows → 0 ≤ columns →
   ¬ raises (create_rectangular_array rows columns false f passive g)) ∧
  (0 ≤ hex_radius →
   ¬ raises (create_hexagonal_array hex_radius false f passive g)) ∧
  (rows < 0 ∨ columns < 0 →
   create_rectangular_array rows columns randomize f passive g
   = Raise ValueError) ∧
  (hex_radius < 0 →
   create_hexagonal_array hex_radius randomize f passive g = Raise ValueError) ∧
  (grid_size < 0 →
   create_sunflower_array n_points radius grid_size randomize f passive g
   = Raise ValueError ∧
   create_circular_array grid_size radius randomize f passive g
   = Raise ValueError ∧
   create_octagonal_array grid_size side_length randomize f passive g
   = Raise ValueError) ∧
  (0 ≤ rows → 0 ≤ columns →
   (isinf (float_of_int (rows * columns)) = true
    ∨ isinf (float_mul (float_of_int (rows * columns)) f) = true →
    create_rectangular_array rows columns true f passive g
    = Raise OverflowError) ∧
   (isinf (float_of_int (rows * columns)) = false →
    isinf (float_mul (float_of_int (rows * columns)) f) = false →
    py_int (float_mul (float_of_int (rows * columns)) f) < 0
    ∨ rows * columns < py_int (float_mul (float_of_int (rows * columns)) f) →
    create_rectangular_array rows columns true f passive g = Raise ValueError) ∧
   (isinf (float_of_int (rows * columns)) = false →
    isinf (float_mul (float_of_int (rows * columns)) f) = false →
    0 ≤ py_int (float_mul (float_of_int (rows * columns)) f) ≤ rows * columns →
    ¬ raises (create_rectangular_array rows columns true f passive g))) ∧
  (0 ≤ hex_radius →
   (isinf (float_of_int (Z.of_nat (length (hex_cells hex_radius)))) = true
    ∨ isinf (float_mul (float_of_int (Z.of_nat (length (hex_cells hex_radius)))) f)
      = true →
    create_hexagonal_array hex_radius true f passive g = Raise OverflowError) ∧
   (isinf (float_of_int (Z.of_nat (length (hex_cells hex_radius)))) = false →
    isinf (float_mul (float_of_int (Z.of_nat (length (hex_cells hex_radius)))) f)
    = false →
    py_int (float_mul (float_of_int (Z.of_nat (length (hex_cells hex_radius)))) f)
    < 0
    ∨ Z.of_nat (length (hex_cells hex_radius))
      < py_int
          (float_mul (float_of_int (Z.of_nat (length (hex_cells hex_radius)))) f) →
    create_hexagonal_array hex_radius true f passive g = Raise ValueError) ∧
   (isinf (float_of_int (Z.of_nat (length (hex_cells hex_radius)))) = false →
    isinf (float_mul (float_of_int (Z.of_nat (length (hex_cells hex_radius)))) f)
    = false →
    0 ≤ py_int
          (float_mul (float_of_int (Z.of_nat (length (hex_cells hex_radius)))) f)
    ≤ Z.of_nat (length (hex_cells hex_radius)) →
    ¬ raises (create_hexagonal_array hex_radius true f passive g))) ∧
  (∀ e,
     (create_rectangular_array rows columns randomize f passive g = Raise e →
      e = ValueError ∨ e = OverflowError) ∧
     (create_hexagonal_array hex_radius randomize f passive g = Raise e →
      e = ValueError ∨ e = OverflowError) ∧
     (create_sunflower_array n_points radius grid_size randomize f passive g
      = Raise e → e = ValueError) ∧
     (create_circular_array grid_size radius randomize f passive g = Raise e →
      e = ValueError) ∧
     (create_octagonal_array grid_size side_length randomize f passive g
      = Raise e → e = ValueError)).
Proof.
  assert (0 ≤ grid_size →
          ¬ raises (create_circular_array grid_size radius randomize f passive g) ∧
          ¬ raises (create_octagonal_array grid_size side_length randomize f
                      passive g)) as Hscan.
  { intros Hgs. split.
    + destruct (circular_scan grid_size radius randomize f passive (λ _, True) g Hgs)
        as (grid & g' & -> & _); [| by intros []].
      intros g1. destruct (draw_gap_total randomize f g1) as (gap & g2 & Hdraw).
      by exists gap, g2.
    + destruct (octagonal_scan grid_size side_length randomize f passive
                  (λ _, True) g Hgs)
        as (grid & g' & -> & _); [| by intros []].
      intros g1. destruct (draw_gap_total randomize f g1) as (gap & g2 & Hdraw).
      by exists gap, g2. }
  assert (grid_size < 0 →
          create_sunflower_array n_points radius grid_size randomize f passive g
          = Raise ValueError ∧
          create_circular_array grid_size radius randomize f passive g
          = Raise ValueError ∧
          create_octagonal_array grid_size side_length randomize f passive g
          = Raise ValueError) as Hneg.
  { intros Hneg. split; [| split]; apply lift_np_full_negative; lia. }
  pose proof (not_randomized_returns rows columns hex_radius f passive g)
    as [Hrect Hhex].
  assert (rows < 0 ∨ columns < 0 →
          create_rectangular_array rows columns randomize f passive g
          = Raise ValueError) as Hrdim
    by (intros Hdim; by apply lift_np_full_negative).
  assert (hex_radius < 0 →
          create_hexagonal_array hex_radius randomize f passive g
          = Raise ValueError) as Hhdim
    by (intros Hdim; apply lift_np_full_negative; lia).
  split; [| split; [| split; [| split; [| split; [| split; [| split; [| split;
    [| split; [| split]]]]]]]]].
  - intros Hcols. unfold create_rectangular_array, np_ones.
    by rewrite (bind_lift_Ok _ _ _ g (np_full_ok 0 columns Active ltac:(lia) Hcols)).
  - by rewrite !hexagonal_not_randomized, !rectangular_not_randomized,
      !sunflower_not_randomized, !circular_not_randomized,
      !octagonal_not_randomized.
  - intros Hgs. split; [by apply sunflower_returns | by apply Hscan].
  - done.
  - done.
  - done.
  - done.
  - done.
  - intros Hrows Hcols.
    destruct (rectangular_outcome rows columns f passive g Hrows Hcols)
      as (Hraise & Hout & Hin).
    destruct (sampling_outcome _ _ _ Hraise Hout Hin) as (? & ? & ? & _).
    done.
  - intros Hradius.
    destruct (hexagonal_outcome hex_radius f passive g Hradius)
      as (Hraise & Hout & Hin).
    destruct (sampling_outcome _ _ _ Hraise Hout Hin) as (? & ? & ? & _).
    done.
  - intros e. split; [| split; [| split; [| split]]].
    + intros Hrun.
      destruct (Z_lt_ge_dec rows 0) as [Hr | Hr];
        [rewrite Hrdim in Hrun by lia; left; congruence |].
      destruct (Z_lt_ge_dec columns 0) as [Hc | Hc];
        [rewrite Hrdim in Hrun by lia; left; congruence |].
      destruct randomize.
      * destruct (rectangular_outcome rows columns f passive g)
          as (Hraise & Hout & Hin); [lia | lia |].
        by apply (sampling_outcome _ _ _ Hraise Hout Hin).
      * exfalso. apply Hrect; [lia | lia |]. by rewrite Hrun.
    + intros Hrun.
      destruct (Z_lt_ge_dec hex_radius 0) as [Hr | Hr];
        [rewrite Hhdim in Hrun by lia; left; congruence |].
      destruct randomize.
      * destruct (hexagonal_outcome hex_radius f passive g)
          as (Hraise & Hout & Hin); [lia |].
        by apply (sampling_outcome _ _ _ Hraise Hout Hin).
      * exfalso. apply Hhex; [lia |]. by rewrite Hrun.
    + intros Hrun. destruct (Z_lt_ge_dec grid_size 0) as [Hgs | Hgs].
      * destruct (Hneg Hgs) as (Heq & _). congruence.
      * exfalso.
        apply (sunflower_returns n_points radius grid_size randomize f passive g);
          [lia |]. by rewrite Hrun.
    + intros Hrun. destruct (Z_lt_ge_dec grid_size 0) as [Hgs | Hgs].
      * destruct (Hneg Hgs) as (_ & Heq & _). congruence.
      * exfalso. destruct (Hscan ltac:(lia)) as [Hc _]. apply Hc. by rewrite Hrun.
    + intros Hrun. destruct (Z_lt_ge_dec grid_size 0) as [Hgs | Hgs].
      * destruct (Hneg Hgs) as (_ & _ & Heq). congruence.
      * exfalso. destruct (Hscan ltac:(lia)) as [_ Hc]. apply Hc. by rewrite Hrun.
Qed.

End Unvalidated.

(** ** Binary64 arithmetic at concrete inputs *)

Lemma sqrt_between a x b :
  (0 <= a)%R → (a * a < x)%R → (x < b * b)%R → (0 <= b)%R →
  (a < sqrt x < b)%R.
Proof.
  intros Ha Hax Hxb Hb. split.
  - rewrite <- (sqrt_square a Ha). apply sqrt_lt_1_alt. nra.
  - rewrite <- (sqrt_square b Hb). apply sqrt_lt_1_alt. nra.
Qed.

Lemma float_0_7_value :
  float_0_7 = (IZR 6305039478318694 / IZR (2 ^ 53))%R.
Proof.
  apply (fl64_scaled _ 53 6305039478318694).
  - lia.
  - pow2_values. lra.
  - apply py_round_near. pow2_values. lra.
Qed.

Lemma float_3_605551275463989_value :
  float_3_605551275463989 = (IZR 8118979690322419 / IZR (2 ^ 51))%R.
Proof.
  apply (fl64_scaled _ 51 8118979690322419).
  - lia.
  - pow2_values. lra.
  - apply py_round_near. pow2_values. lra.
Qed.


(** [10 * 0.7] is [7.0] in binary64, while the exact product of [10] and
    the float [0.7] is below [7]. *)
Lemma float_mul_10_0_7 : float_mul (float_of_int 10) float_0_7 = 7%R.
Proof.
  unfold float_mul. rewrite (float_of_int_small 10) by (by apply Z.leb_le).
  rewrite float_0_7_value.
  rewrite (fl64_scaled _ 50 7881299347898368).
  - pow2_values. lra.
  - lia.
  - pow2_values. lra.
  - rewrite (py_round_tie _ 7881299347898367); [done |].
    pow2_values. lra.
Qed.

Lemma floor_10_0_7 : Int_part (IZR 10 * float_0_7) = 6.
Proof.
  rewrite float_0_7_value. apply Int_part_unique. pow2_values. lra.
Qed.

Lemma demotion_count_10_0_7 : demotion_count 10 float_0_7 = 7.
Proof.
  unfold demotion_count. rewrite float_mul_10_0_7.
  destruct (py_int_nonneg 7) as [-> _]; [lra |]. apply (Int_part_IZR 7).
Qed.

(** [np.sqrt(13)] is the float [3.605551275463989], which is below the
    square root of 13. *)
Lemma np_sqrt_13 : np_sqrt (float_of_int 13) = float_3_605551275463989.
Proof.
  rewrite (float_of_int_small 13) by (by apply Z.leb_le).
  rewrite float_3_605551275463989_value. unfold np_sqrt.
  assert ((IZR 8118979690322419 - 1 / 2) / IZR (2 ^ 51) < sqrt 13
          < (IZR 8118979690322419 + 1 / 2) / IZR (2 ^ 51))%R as [Hlo Hhi].
  { pow2_values. apply sqrt_between; lra. }
  revert Hlo Hhi. pow2_values. intros Hlo Hhi.
  apply (fl64_scaled _ 51 8118979690322419).
  - lia.
  - pow2_values. lra.
  - apply py_round_near. pow2_values. lra.
Qed.

Lemma float_3_605551275463989_below_sqrt_13 :
  (float_3_605551275463989 < sqrt 13)%R.
Proof.
  rewrite float_3_605551275463989_value. pow2_values.
  apply (sqrt_between _ 13 4); lra.
Qed.





(** [100 * (29 / 100)] is below [29] in binary64: with the slider at 29 a
    grid of 100 cells has 28 cells demoted. *)
Example demotion_count_slider_29 : demotion_count 100 (int_truediv 29 100) = 28.
Proof.
  assert (int_truediv 29 100 = (IZR 5224175567749775 / IZR (2 ^ 54))%R) as ->.
  { apply (fl64_scaled _ 54 5224175567749775).
    - lia.
    - pow2_values. lra.
    - apply py_round_near. pow2_values. lra. }
  unfold demotion_count, float_mul.
  rewrite (float_of_int_small 100) by (by apply Z.leb_le).
  rewrite (fl64_scaled _ 48 8162774324609023).
  - destruct (py_int_nonneg (IZR 8162774324609023 / IZR (2 ^ 48))) as [-> _].
    + pow2_values. lra.
    + apply Int_part_unique. pow2_values. lra.
  - lia.
  - pow2_values. lra.
  - apply py_round_near. pow2_values. lra.
Qed.

(** ** The claims at concrete inputs *)

(** C1 as stated fails: with [rows = 0], with [empty_fraction = -0.1] and
    with [n_points = 0] the call returns instead of failing. *)
Lemma invalid_parameters_are_accepted :
  ¬ raises (create_rectangular_array 0 3 false (1 / 10) false 0%nat) ∧
  ¬ raises (create_rectangular_array 2 2 false (- 1 / 10) false 0%nat) ∧
  ¬ raises (create_sunflower_array 0 1 3 false (1 / 10) false 0%nat) ∧
  create_rectangular_array 0 3 false (1 / 10) false 0%nat = Ok ([], 0%nat) ∧
  create_rectangular_array 2 2 false (- 1 / 10) false 0%nat
  = Ok ([[Active; Active]; [Active; Active]], 0%nat) ∧
  create_sunflower_array 0 1 3 false (1 / 10) false 0%nat = Ok (None, 0%nat).
Proof.
  split; [| split; [| split]]; [by intros [] | by intros [] | by intros [] |].
  split; [| split]; reflexivity.
Qed.

(** A product that overflows, and a sample size beyond the number of
    cells. *)
Lemma float_mul_100_overflows :
  isinf (float_mul (float_of_int (10 * 10)) (IZR (2 ^ 1023))) = true.
Proof.
  unfold float_mul. rewrite (float_of_int_small (10 * 10)) by (by apply Z.leb_le).
  rewrite <- mult_IZR.
  replace (10 * 10 * 2 ^ 1023) with (25 * 2 ^ 1025) by (by apply Z.eqb_eq).
  rewrite fl64_binary64
    by (apply binary64_pow2_mul; [by apply Z.ltb_lt | lia]).
  apply isinf_true. rewrite Rabs_pos_eq; apply IZR_le; by apply Z.leb_le.
Qed.

Lemma float_mul_4_2 : float_mul (float_of_int (2 * 2)) 2 = 8%R.
Proof.
  unfold float_mul. rewrite (float_of_int_small (2 * 2)) by (by apply Z.leb_le).
  rewrite <- mult_IZR. by apply (fl64_IZR (2 * 2 * 2)), Z.leb_le.
Qed.

Lemma isinf_8 : isinf 8 = false.
Proof.
  apply isinf_small. rewrite Rabs_pos_eq by lra. apply (IZR_lt 8).
  by apply Z.ltb_lt.
Qed.

Lemma py_int_8 : py_int 8 = 8.
Proof. destruct (py_int_nonneg 8) as [-> _]; [lra |]. apply (Int_part_IZR 8). Qed.

Lemma parameters_are_not_validated_witness :
  create_rectangular_array 0 3 false (- 1 / 10) false 0%nat = Ok ([], 0%nat) ∧
  ¬ raises (create_sunflower_array 0 1 3 true (1 / 10) false 0%nat) ∧
  ¬ raises (create_circular_array 3 1 true (- 1 / 10) false 0%nat) ∧
  create_rectangular_array (-1) 3 true (1 / 10) true 0%nat = Raise ValueError ∧
  create_hexagonal_array (-1) false (1 / 10) true 0%nat = Raise ValueError ∧
  create_circular_array (-2) 1 false (1 / 10) true 0%nat = Raise ValueError ∧
  create_rectangular_array 10 10 true (IZR (2 ^ 1023)) false 0%nat
  = Raise OverflowError ∧
  create_rectangular_array 2 2 true 2 false 0%nat = Raise ValueError.
Proof.
  destruct (parameters_are_not_validated 0%nat 0 3 0 0 3 1 0 (- 1 / 10) 0 true false)
    as (Hrows0 & _ & Hcirc & _).
  destruct (parameters_are_not_validated 0%nat 0 0 0 0 3 1 0 (1 / 10) 0 true false)
    as (_ & _ & Hnone & _).
  destruct (parameters_are_not_validated 0%nat (-1) 3 0 0 0 0 0 (1 / 10) 0 true true)
    as (_ & _ & _ & _ & _ & Hrect & _).
  destruct (parameters_are_not_validated 0%nat 0 0 (-1) 0 (-2) 1 0 (1 / 10) 0 false true)
    as (_ & _ & _ & _ & _ & _ & Hhex & Hsquare & _).
  destruct (parameters_are_not_validated 0%nat 10 10 0 0 0 0 0 (IZR (2 ^ 1023)) 0
              true false)
    as (_ & _ & _ & _ & _ & _ & _ & _ & Hover & _).
  destruct (parameters_are_not_validated 0%nat 2 2 0 0 0 0 0 2 0 true false)
    as (_ & _ & _ & _ & _ & _ & _ & _ & Hmany & _).
  split; [apply Hrows0; lia |].
  split; [apply Hnone; lia |].
  split; [apply Hcirc; lia |].
  split; [apply Hrect; lia |].
  split; [apply Hhex; lia |].
  split; [apply Hsquare; lia |].
  split.
  - destruct Hover as (Hover & _); [lia | lia |].
    apply Hover. right. apply float_mul_100_overflows.
  - destruct Hmany as (_ & Hmany & _); [lia | lia |].
    apply Hmany; [apply float_of_int_finite; by apply Z.leb_le | |];
      rewrite float_mul_4_2; [apply isinf_8 |].
    rewrite py_int_8. right. by apply Z.ltb_lt.
Defined.

Lemma sunflower_at_most_one_cell_witness :
  (1 ≤ 7 ∧ (0 <= 3)%R ∧ 1 ≤ 5) ∧
  ∃ grid g',
    create_sunflower_array 7 3 5 true (1 / 2) true 0%nat = Ok (Some grid, g') ∧
    has_shape grid 5 5 ∧ (count_non_empty grid ≤ 1)%nat.
Proof.
  split; [split; [lia | split; [lra | lia]] |].
  apply (sunflower_at_most_one_cell 7 3 5 true (1 / 2) true 0%nat); [lia | lra | lia].
Defined.

Lemma sunflower_single_cell_at_center_witness :
  (1 ≤ 7 ∧ (0 <= 3)%R ∧ 1 ≤ 6) ∧
  ∃ grid g' v,
    create_sunflower_array 7 3 6 false (1 / 2) false 0%nat = Ok (Some grid, g') ∧
    has_shape grid 6 6 ∧
    count_non_empty grid = 1%nat ∧
    0 ≤ 6 `div` 2 < 6 ∧
    cell_at grid (6 `div` 2) (6 `div` 2) = Some v ∧
    v ≠ Empty ∧
    ∀ i j, 0 ≤ i < 6 → 0 ≤ j < 6 → ¬ (i = 6 `div` 2 ∧ j = 6 `div` 2) →
      cell_at grid i j = Some Empty.
Proof.
  split; [split; [lia | split; [lra | lia]] |].
  apply (sunflower_single_cell_at_center 7 3 6 false (1 / 2) false 0%nat);
    [lia | lra | lia].
Defined.

Lemma sunflower_passive_needs_all_three_witness :
  (1 ≤ 4 ∧ 1 ≤ 3) ∧
  ∃ grid g' v,
    sunflower_point_value true (3 / 4) false 0%nat = Ok (v, g') ∧
    create_sunflower_array 4 2 3 true (3 / 4) false 0%nat = Ok (Some grid, g') ∧
    cell_at grid (3 `div` 2) (3 `div` 2) = Some v ∧
    (false = false →
       v = Active ∧
       ∀ i j, 0 ≤ i < 3 → 0 ≤ j < 3 → cell_at grid i j ≠ Some Passive).
Proof.
  split; [lia |].
  destruct (sunflower_passive_needs_all_three 4 2 3 true (3 / 4) false 0%nat)
    as (grid & g' & v & Hvalue & Hrun & Hcentre & _ & _ & Hactive); [lia | lia |].
  by exists grid, g', v.
Defined.

Lemma circular_active_iff_within_radius_witness :
  (1 ≤ 5 ∧ (0 <= 0)%R) ∧
  ∃ grid g',
    create_circular_array 5 0 false (1 / 10) false 0%nat = Ok (grid, g') ∧
    has_shape grid 5 5 ∧
    grid = [ [Empty; Empty; Empty; Empty; Empty];
             [Empty; Empty; Empty; Empty; Empty];
             [Empty; Empty; Active; Empty; Empty];
             [Empty; Empty; Empty; Empty; Empty];
             [Empty; Empty; Empty; Empty; Empty] ].
Proof.
  split; [split; [lia | lra] |].
  destruct (circular_active_iff_within_radius 5 0 (1 / 10) false 0%nat)
    as (grid & g' & Hrun & Hshape & _ & Hgrid); [lia | lra |].
  exists grid, g'. split; [done |]. split; [done |]. by apply Hgrid.
Defined.


Lemma hexagonal_rows_witness :
  1 ≤ 2 ∧
  ∃ grid,
    create_hexagonal_array 2 false (1 / 10) false 0%nat = Ok (grid, 0%nat) ∧
    has_shape grid (2 * 2 + 1) (2 * 2 + 1) ∧
    cell_at grid 2 2 = Some Active.
Proof.
  split; [lia |].
  destruct (hexagonal_rows 2 (1 / 10) false 0%nat)
    as (grid & Hrun & Hshape & _ & Hapex); [lia |].
  by exists grid.
Defined.

Lemma hex_cells_2_fit : Z.of_nat (length (hex_cells 2)) ≤ 2 ^ 53.
Proof. by apply Z.leb_le. Defined.

Lemma fixed_count_demotion_witness :
  ((0 <= 1 / 2 <= 1)%R ∧ 0 ≤ 3 ∧ 0 ≤ 4 ∧ 0 ≤ 2 ∧ 3 * 4 ≤ 2 ^ 53 ∧
   Z.of_nat (length (hex_cells 2)) ≤ 2 ^ 53) ∧
  (∃ grid g' (picked : list (Z * Z)),
     create_rectangular_array 3 4 true (1 / 2) false 0%nat = Ok (grid, g') ∧
     NoDup picked ∧
     Z.of_nat (length picked) = py_int (float_mul (float_of_int (3 * 4)) (1 / 2)) ∧
     Z.of_nat (count_active grid)
     = 3 * 4 - py_int (float_mul (float_of_int (3 * 4)) (1 / 2))) ∧
  (∃ grid g' (picked : list (Z * Z)),
     create_hexagonal_array 2 true (1 / 2) false 0%nat = Ok (grid, g') ∧
     NoDup picked ∧
     Z.of_nat (length picked)
     = py_int (float_mul (float_of_int (Z.of_nat (length (hex_cells 2)))) (1 / 2)) ∧
     Z.of_nat (count_active grid)
     = Z.of_nat (length (hex_cells 2))
       - py_int (float_mul (float_of_int (Z.of_nat (length (hex_cells 2))))
                   (1 / 2))).
Proof.
  assert (3 * 4 ≤ 2 ^ 53) as Hfit by (by apply Z.leb_le).
  split; [split; [lra | repeat split; (lia || apply hex_cells_2_fit)] |].
  destruct (fixed_count_demotion 3 4 2 (1 / 2) false 0%nat)
    as [(gr & g1 & pk & Hrun & _ & Hnodup & Hlen & _ & _ & Hcount & _)
        (gr' & g1' & pk' & _ & Hrun' & _ & Hnodup' & Hlen' & _ & _ & Hcount' & _)];
    [lra | lia | lia | lia | done | apply hex_cells_2_fit |].
  split; [by exists gr, g1, pk | by exists gr', g1', pk'].
Defined.

Lemma hex_cells_1_fit : Z.of_nat (length (hex_cells 1)) ≤ 2 ^ 53.
Proof. by apply Z.leb_le. Defined.

Lemma full_fraction_all_passive_witness :
  (0 ≤ 2 ∧ 0 ≤ 3 ∧ 0 ≤ 1 ∧ 0 ≤ 5 ∧ 2 * 3 ≤ 2 ^ 53 ∧
   Z.of_nat (length (hex_cells 1)) ≤ 2 ^ 53) ∧
  (∃ grid g',
     create_rectangular_array 2 3 true 1 true 0%nat = Ok (grid, g') ∧
     ∀ i j, 0 ≤ i < 2 → 0 ≤ j < 3 → cell_at grid i j = Some Passive) ∧
  (∃ grid g',
     create_circular_array 5 2 true 1 true 0%nat = Ok (grid, g') ∧
     ∀ i j, 0 ≤ i < 5 → 0 ≤ j < 5 →
       cell_at grid i j =
       Some (if bool_decide (in_circle 5 2 i j) then Passive else Empty)).
Proof.
  assert (2 * 3 ≤ 2 ^ 53) as Hfit by (by apply Z.leb_le).
  split; [repeat split; (lia || apply hex_cells_1_fit) |].
  destruct (full_fraction_all_passive 2 3 1 5 2 2 0%nat)
    as ((gr & g1 & Hrun & _ & Hcells) & _ & (gr' & g1' & Hrun' & _ & Hcells') & _);
    [lia | lia | lia | lia | done | apply hex_cells_1_fit |].
  split; [by exists gr, g1 | by exists gr', g1'].
Defined.

(** ** Where the code departs from the exact tests *)

Lemma binary64_float_0_7 : binary64 float_0_7 ∧ (0 <= float_0_7 <= 1)%R.
Proof.
  rewrite float_0_7_value. split.
  - apply binary64_scaled; [by apply Z.ltb_lt | lia].
  - pow2_values. lra.
Qed.

(** C3 as stated fails: on a 2 x 5 rectangle with the float [0.7] the
    floor of [N * f] is 6, but the code demotes [int(10 * 0.7) = 7] cells
    and leaves 3 Active. *)
Lemma demoted_cells_are_not_floor :
  binary64 float_0_7 ∧ (0 <= float_0_7 <= 1)%R ∧
  Int_part (IZR (2 * 5) * float_0_7) = 6 ∧
  ∃ grid g',
    create_rectangular_array 2 5 true float_0_7 true 0%nat = Ok (grid, g') ∧
    has_shape grid 2 5 ∧
    Z.of_nat (count_active grid) = 2 * 5 - 7.
Proof.
  destruct binary64_float_0_7 as [Hfloat Hrange].
  split; [done |]. split; [done |]. split; [apply floor_10_0_7 |].
  destruct (rectangular_active_count 2 5 float_0_7 true 0%nat)
    as (grid & Hrun & Hshape & Hcount);
    [lia | lia | by apply Z.leb_le | done |].
  exists grid, (permutation (2 * 5) 0%nat).2.
  split; [done |]. split; [done |].
  rewrite Hcount. change (2 * 5) with 10. by rewrite demotion_count_10_0_7.
Qed.

(** C5 as stated fails: on a 7 x 7 grid with the float
    [3.605551275463989] as radius, cell [(5, 6)] lies at the Euclidean
    distance [sqrt 13] from the centre, which exceeds the radius, but
    [np.sqrt(13)] is the radius itself and the cell is Active. *)
Lemma circular_test_is_not_euclidean :
  binary64 float_3_605551275463989 ∧
  (float_3_605551275463989
   < sqrt (IZR ((5 - 7 `div` 2) ^ 2 + (6 - 7 `div` 2) ^ 2)))%R ∧
  ∃ grid g',
    create_circular_array 7 float_3_605551275463989 false (1 / 10) false 0%nat
    = Ok (grid, g') ∧
    cell_at grid 5 6 = Some Active.
Proof.
  split; [| split].
  - rewrite float_3_605551275463989_value.
    apply binary64_scaled; [by apply Z.ltb_lt | lia].
  - change ((5 - 7 `div` 2) ^ 2 + (6 - 7 `div` 2) ^ 2) with 13.
    apply float_3_605551275463989_below_sqrt_13.
  - destruct (circular_uniform 7 float_3_605551275463989 false (1 / 10) false
                false 0%nat)
      as (grid & g' & Hrun & _ & Hcells); [lia | by eexists |].
    exists grid, g'. split; [done |].
    rewrite (Hcells 5 6) by lia. rewrite bool_decide_eq_true_2; [done |].
    unfold in_circle, computed_distance.
    change ((5 - 7 `div` 2) ^ 2 + (6 - 7 `div` 2) ^ 2) with 13.
    rewrite np_sqrt_13. lra.
Qed.


(** ** The generators on small inputs *)

Example rectangular_2x3 :
  create_rectangular_array 2 3 false (1 / 10) false 0%nat
  = Ok ([ [Active; Active; Active]; [Active; Active; Active] ], 0%nat).
Proof. reflexivity. Qed.

Example hexagonal_radius_2 :
  create_hexagonal_array 2 false (1 / 10) false 0%nat
  = Ok ([ [Empty; Empty; Active; Active; Active];
          [Empty; Active; Active; Active; Active];
          [Active; Active; Active; Active; Active];
          [Active; Active; Active; Active; Empty];
          [Active; Active; Active; Empty; Empty] ], 0%nat).
Proof. reflexivity. Qed.

Example hexagonal_radius_0 :
  create_hexagonal_array 0 false (1 / 10) false 0%nat = Ok ([ [Active] ], 0%nat).
Proof. reflexivity. Qed.

Example hex_cells_radius_1 :
  hex_cells 1 = [(0, 1); (0, 2); (1, 0); (1, 1); (1, 2); (2, 0); (2, 1)].
Proof. reflexivity. Qed.

Example sunflower_no_points :
  create_sunflower_array 0 2 5 true (1 / 10) true 0%nat = Ok (None, 0%nat).
Proof. reflexivity. Qed.

Example setslice_is_clamped :
  setslice [ [Empty; Empty; Empty] ] 0 1 5 Active
  = Ok [ [Empty; Active; Active] ].
Proof. reflexivity. Qed.

Example setitem_out_of_range :
  setitem [ [Empty; Empty] ] 1 0 Active = Raise IndexError.
Proof. reflexivity. Qed.

(** * Further properties of the generators *)

(** Two grids of the same shape with the same cells are equal. *)
Lemma grid_ext (gr1 gr2 : grid) n m :
  has_shape gr1 n m → has_shape gr2 n m →
  (∀ i j, 0 ≤ i < n → 0 ≤ j < m → cell_at gr1 i j = cell_at gr2 i j) →
  gr1 = gr2.
Proof.
  intros Hshape1 Hshape2 Hcells.
  rewrite (grid_rows gr1 n m Hshape1), (grid_rows gr2 n m Hshape2).
  apply list_fmap_ext. intros r i Hi.
  apply list_elem_of_lookup_2, elem_of_range in Hi.
  apply list_fmap_ext. intros c j Hj.
  apply list_elem_of_lookup_2, elem_of_range in Hj.
  unfold cell_or_empty. simpl. by rewrite Hcells.
Qed.

Section ShapeInvariant.
Context {G : Type} `{RandomSource G}.

(** X1: whatever [randomize], [empty_fraction] and [passive] are, the
    circular generator returns a [grid_size] x [grid_size] grid in which
    every cell that fails the generator's test (its computed distance
    [np.sqrt(...)] exceeds [radius]) is Empty and every cell that passes it
    is either Active or demoted ([Passive] if [passive], else Empty). *)
Theorem circular_cells_any_options
    grid_size radius randomize empty_fraction passive (g : G) :
  0 ≤ grid_size →
  ∃ grid g',
    create_circular_array grid_size radius randomize empty_fraction passive g
    = Ok (grid, g') ∧
    has_shape grid grid_size grid_size ∧
    ∀ i j, 0 ≤ i < grid_size → 0 ≤ j < grid_size →
      (in_circle grid_size radius i j →
         cell_at grid i j = Some Active ∨
         cell_at grid i j = Some (demoted passive)) ∧
      (¬ in_circle grid_size radius i j → cell_at grid i j = Some Empty).
Proof.
  intros Hgs.
  destruct (circular_scan grid_size radius randomize empty_fraction passive
              (λ _, True) g Hgs) as (grid & g' & Hrun & Hshape & Hcells).
  { intros g1.
    destruct (draw_gap_total randomize empty_fraction g1) as (gap & g2 & Hdraw).
    by exists gap, g2. }
  exists grid, g'. split; [done |]. split; [done |].
  intros i j Hi Hj. specialize (Hcells _ _ Hi Hj).
  case_bool_decide as Hin; split; try done.
  intros _. destruct Hcells as ([] & _ & ->); [by right | by left].
Qed.

(** X2: the same for the octagonal generator, with its two tests against
    the bounds as it computes them. *)
Theorem octagonal_cells_any_options
    grid_size side_length randomize empty_fraction passive (g : G) :
  0 ≤ grid_size →
  ∃ grid g',
    create_octagonal_array grid_size side_length randomize empty_fraction
      passive g = Ok (grid, g') ∧
    has_shape grid grid_size grid_size ∧
    ∀ i j, 0 ≤ i < grid_size → 0 ≤ j < grid_size →
      (in_octagon grid_size side_length i j →
         cell_at grid i j = Some Active ∨
         cell_at grid i j = Some (demoted passive)) ∧
      (¬ in_octagon grid_size side_length i j → cell_at grid i j = Some Empty).
Proof.
  intros Hgs.
  destruct (octagonal_scan grid_size side_length randomize empty_fraction passive
              (λ _, True) g Hgs) as (grid & g' & Hrun & Hshape & Hcells).
  { intros g1.
    destruct (draw_gap_total randomize empty_fraction g1) as (gap & g2 & Hdraw).
    by exists gap, g2. }
  exists grid, g'. split; [done |]. split; [done |].
  intros i j Hi Hj. specialize (Hcells _ _ Hi Hj).
  case_bool_decide as Hin; split; try done.
  intros _. destruct Hcells as ([] & _ & ->); [by right | by left].
Qed.

End ShapeInvariant.

(** ** The shapes without randomisation *)

Lemma in_circle_swap gs radius i j :
  in_circle gs radius i j ↔ in_circle gs radius j i.
Proof. unfold in_circle, computed_distance. by rewrite Z.add_comm. Qed.

Lemma in_circle_mirror gs radius i j :
  in_circle gs radius (2 * (gs `div` 2) - i) j ↔ in_circle gs radius i j.
Proof.
  unfold in_circle, computed_distance.
  by replace ((2 * (gs `div` 2) - i - gs `div` 2) ^ 2)
    with ((i - gs `div` 2) ^ 2) by ring.
Qed.

Lemma in_octagon_swap gs side i j :
  in_octagon gs side i j ↔ in_octagon gs side j i.
Proof. unfold in_octagon. by rewrite Z.add_comm, Z.max_comm. Qed.

Lemma in_octagon_mirror gs side i j :
  in_octagon gs side (2 * (gs `div` 2) - i) j ↔ in_octagon gs side i j.
Proof.
  unfold in_octagon.
  by replace (Z.abs (2 * (gs `div` 2) - i - gs `div` 2))
    with (Z.abs (i - gs `div` 2)) by lia.
Qed.

Lemma in_circle_centre gs radius :
  (0 <= radius)%R → in_circle gs radius (gs `div` 2) (gs `div` 2).
Proof. intros Hr. unfold in_circle. by rewrite computed_distance_centre. Qed.

Lemma in_circle_negative gs radius i j :
  (radius < 0)%R → ¬ in_circle gs radius i j.
Proof.
  unfold in_circle. intros Hr Hin.
  pose proof (computed_distance_nonneg gs i j). lra.
Qed.

(** A power of 4 between a number and four times it. *)
Lemma pow4_between a b :
  0 ≤ a → 1 ≤ b → 2 * a ≤ b → ∃ m, 0 ≤ m ∧ a ≤ 2 ^ (2 * m) ∧ 2 ^ (2 * m) ≤ 2 * b.
Proof.
  intros Ha Hb Hab. destruct (Z_le_gt_dec a 1) as [Hsmall | Hbig].
  - exists 0. simpl. lia.
  - pose proof (Z.log2_up_spec a ltac:(lia)) as [Hlo Hhi].
    pose proof (Z.log2_up_pos a ltac:(lia)) as Ht.
    set (t := Z.log2_up a) in *.
    exists ((t + 1) `div` 2).
    assert (t ≤ 2 * ((t + 1) `div` 2) ≤ t + 1) as H2m
      by (pose proof (Z.div_mod (t + 1) 2 ltac:(lia));
          pose proof (Z.mod_pos_bound (t + 1) 2 ltac:(lia)); lia).
    split; [apply Z.div_pos; lia |]. split.
    + etransitivity; [exact Hhi |]. apply Z.pow_le_mono_r; lia.
    + transitivity (2 ^ (t + 1)); [apply Z.pow_le_mono_r; lia |].
      replace (t + 1) with (Z.pred t + 2) by lia.
      rewrite Z.pow_add_r by lia. change (2 ^ 2) with 4. lia.
Qed.

Lemma in_circle_large gs radius i j :
  0 ≤ i < gs → 0 ≤ j < gs → (IZR gs * sqrt 2 <= radius)%R →
  in_circle gs radius i j.
Proof.
  intros Hi Hj Hr. unfold in_circle, computed_distance.
  assert (0 ≤ gs `div` 2 < gs) as Hc.
  { split; [apply Z.div_pos; lia | apply Z.div_lt_upper_bound; lia]. }
  assert (gs - 1 ≤ 2 * (gs `div` 2) ≤ gs) as Hhalf
    by (pose proof (Z.div_mod gs 2 ltac:(lia));
        pose proof (Z.mod_pos_bound gs 2 ltac:(lia)); lia).
  set (k := (i - gs `div` 2) ^ 2 + (j - gs `div` 2) ^ 2).
  assert (0 ≤ k ∧ 2 * k ≤ gs * gs) as [Hk0 Hk] by (unfold k; nia).
  destruct (pow4_between k (gs * gs) Hk0 ltac:(nia) Hk) as (m & Hm & Hlo & Hhi).
  assert (2 ^ (2 * m) = 2 ^ m * 2 ^ m) as Hsq
    by (rewrite <- Z.pow_add_r by lia; f_equal; lia).
  pose proof (IZR_pow2_pos m Hm) as Hpm.
  assert (float_of_int k <= IZR (2 ^ (2 * m)))%R as Hconv.
  { rewrite <- (fl64_pow2 (2 * m)) by lia. apply fl64_mono. by apply IZR_le. }
  assert (sqrt (float_of_int k) <= IZR (2 ^ m))%R as Hroot.
  { rewrite <- (sqrt_square (IZR (2 ^ m))) by lra. apply sqrt_le_1_alt.
    by rewrite <- mult_IZR, <- Hsq. }
  apply fl64_mono in Hroot. rewrite (fl64_pow2 m Hm) in Hroot.
  assert (IZR (2 ^ m) <= IZR gs * sqrt 2)%R as Hbound.
  { assert (0 <= IZR gs)%R as Hgs by (apply (IZR_le 0); lia).
    rewrite <- (sqrt_square (IZR (2 ^ m))) by lra.
    rewrite <- (sqrt_square (IZR gs)) at 1 by done.
    rewrite <- sqrt_mult by (nra || lra). apply sqrt_le_1_alt.
    rewrite <- !mult_IZR, <- Hsq. apply IZR_le. lia. }
  unfold np_sqrt. lra.
Qed.

(** The factors of the two bounds of the octagon are at least 1. *)
Lemma np_sqrt_2_ge_1 : (1 <= np_sqrt (float_of_int 2))%R.
Proof. apply np_sqrt_ge_1, float_of_int_pos. lia. Qed.

Lemma diamond_factor_ge_1 :
  (1 <= float_add 1 (float_div (np_sqrt (float_of_int 2)) 2))%R.
Proof.
  unfold float_add, float_div.
  rewrite <- (fl64_IZR 1) at 1 by (by apply Z.leb_le). apply fl64_mono.
  pose proof np_sqrt_2_ge_1 as Hroot.
  pose proof (fl64_nonneg (np_sqrt (float_of_int 2) / 2) ltac:(lra)). lra.
Qed.

Lemma octagon_bounds_mono s1 s2 :
  (s1 <= s2)%R →
  (diamond_bound s1 <= diamond_bound s2)%R ∧
  (square_bound s1 <= square_bound s2)%R.
Proof.
  intros Hs. pose proof np_sqrt_2_ge_1. pose proof diamond_factor_ge_1.
  unfold diamond_bound, square_bound, float_mul.
  split; apply fl64_mono; nra.
Qed.

Lemma octagon_bounds_zero : diamond_bound 0 = 0%R ∧ square_bound 0 = 0%R.
Proof.
  unfold diamond_bound, square_bound, float_mul.
  by rewrite !Rmult_0_l, fl64_0.
Qed.

Lemma in_octagon_centre gs side :
  (0 <= side)%R → in_octagon gs side (gs `div` 2) (gs `div` 2).
Proof.
  intros Hs. unfold in_octagon. rewrite Z.sub_diag.
  replace (Z.abs 0 + Z.abs 0) with 0 by lia.
  replace (Z.max (Z.abs 0) (Z.abs 0)) with 0 by lia.
  rewrite float_of_int_0.
  destruct (octagon_bounds_mono 0 side Hs) as [Hd Hq].
  destruct octagon_bounds_zero as [Hd0 Hq0]. rewrite Hd0 in Hd. rewrite Hq0 in Hq.
  done.
Qed.

(** A negative binary64 number is at most [-2^-1074]. *)
Lemma binary64_negative x :
  binary64 x → (x < 0)%R → (x <= - (1 / IZR (2 ^ 1074)))%R.
Proof.
  intros (m & q & Hq & Hm & ->) Hneg.
  pose proof (IZR_pow2_pos 1074 ltac:(lia)) as Hp.
  assert (IZR (m * 2 ^ q) < 0)%R as Hnum.
  { apply (Rmult_lt_reg_r (/ IZR (2 ^ 1074))); [by apply Rinv_0_lt_compat |].
    rewrite Rmult_0_l. exact Hneg. }
  apply (lt_IZR _ 0) in Hnum.
  assert (IZR (m * 2 ^ q) <= -1)%R as Hle by (apply (IZR_le _ (-1)); lia).
  apply (Rmult_le_reg_r (IZR (2 ^ 1074))); [done |].
  replace (IZR (m * 2 ^ q) / IZR (2 ^ 1074) * IZR (2 ^ 1074))%R
    with (IZR (m * 2 ^ q)) by (field; lra).
  replace (- (1 / IZR (2 ^ 1074)) * IZR (2 ^ 1074))%R with (-1)%R by (field; lra).
  done.
Qed.

Lemma in_octagon_negative gs side i j :
  (side < 0)%R → binary64 side → ¬ in_octagon gs side i j.
Proof.
  unfold in_octagon. intros Hs Hfloat [_ Hmax].
  pose proof (float_of_int_nonneg
                (Z.max (Z.abs (i - gs `div` 2)) (Z.abs (j - gs `div` 2)))
                ltac:(lia)) as Hpos.
  pose proof (binary64_negative side Hfloat Hs) as Hside.
  pose proof np_sqrt_2_ge_1 as Hroot.
  pose proof (IZR_pow2_pos 1074 ltac:(lia)) as Hp.
  assert (0 < 1 / IZR (2 ^ 1074))%R as Heta
    by (apply Rdiv_lt_0_compat; lra).
  assert (square_bound side <= - (1 / IZR (2 ^ 1074)))%R as Hbound.
  { unfold square_bound, float_mul.
    rewrite <- (fl64_binary64 (- (1 / IZR (2 ^ 1074)))).
    - apply fl64_mono. nra.
    - exists (-1), 0. split; [lia |]. split; [by apply Z.ltb_lt |].
      change (-1 * 2 ^ 0) with (-1). lra. }
  lra.
Qed.

Lemma in_octagon_zero gs i j :
  in_octagon gs 0 i j ↔ (i = gs `div` 2 ∧ j = gs `div` 2).
Proof.
  split.
  - unfold in_octagon. intros [_ Hmax].
    destruct octagon_bounds_zero as [_ Hq0]. rewrite Hq0 in Hmax.
    destruct (Z_le_gt_dec
                (Z.max (Z.abs (i - gs `div` 2)) (Z.abs (j - gs `div` 2))) 0)
      as [Hle | Hgt]; [lia |].
    pose proof (float_of_int_pos
                  (Z.max (Z.abs (i - gs `div` 2)) (Z.abs (j - gs `div` 2)))
                  ltac:(lia)) as Hone.
    lra.
  - intros [-> ->]. apply in_octagon_centre. lra.
Qed.

Section PlainShapes.
Context {G : Type} `{RandomSource G}.

Lemma circular_plain grid_size radius f passive (g : G) :
  0 ≤ grid_size →
  ∃ grid,
    create_circular_array grid_size radius false f passive g = Ok (grid, g) ∧
    has_shape grid grid_size grid_size ∧
    ∀ i j, 0 ≤ i < grid_size → 0 ≤ j < grid_size →
      cell_at grid i j =
      Some (if bool_decide (in_circle grid_size radius i j) then Active else Empty).
Proof.
  intros Hgs.
  destruct (circular_uniform grid_size radius false f passive false g Hgs)
    as (grid & g' & Hrun & Hshape & Hcells); [by eexists |].
  exists grid. split; [| done].
  pose proof (state_unchanged_lift (circular_pure grid_size radius) g) as Hsame.
  rewrite <- (circular_not_randomized grid_size radius f passive g), Hrun in Hsame.
  simpl in Hsame. by subst g'.
Qed.

Lemma octagonal_plain grid_size side_length f passive (g : G) :
  0 ≤ grid_size →
  ∃ grid,
    create_octagonal_array grid_size side_length false f passive g = Ok (grid, g) ∧
    has_shape grid grid_size grid_size ∧
    ∀ i j, 0 ≤ i < grid_size → 0 ≤ j < grid_size →
      cell_at grid i j =
      Some (if bool_decide (in_octagon grid_size side_length i j)
            then Active else Empty).
Proof.
  intros Hgs.
  destruct (octagonal_uniform grid_size side_length false f passive false g Hgs)
    as (grid & g' & Hrun & Hshape & Hcells); [by eexists |].
  exists grid. split; [| done].
  pose proof (state_unchanged_lift (octagonal_pure grid_size side_length) g) as Hsame.
  rewrite <- (octagonal_not_randomized grid_size side_length f passive g), Hrun
    in Hsame.
  simpl in Hsame. by subst g'.
Qed.

(** X3: without randomisation the circular and the octagonal pattern are
    symmetric: the grid is equal to its transpose, and a row [i] equals the
    row [2 * (grid_size // 2) - i] mirrored at the centre row, whenever that
    row is inside the grid. *)
Theorem circular_octagonal_symmetric
    grid_size radius side_length empty_fraction passive (g : G) :
  0 ≤ grid_size →
  (∃ grid,
     create_circular_array grid_size radius false empty_fraction passive g
     = Ok (grid, g) ∧
     ∀ i j, 0 ≤ i < grid_size → 0 ≤ j < grid_size →
       cell_at grid i j = cell_at grid j i ∧
       (0 ≤ 2 * (grid_size `div` 2) - i < grid_size →
        cell_at grid (2 * (grid_size `div` 2) - i) j = cell_at grid i j)) ∧
  (∃ grid,
     create_octagonal_array grid_size side_length false empty_fraction passive g
     = Ok (grid, g) ∧
     ∀ i j, 0 ≤ i < grid_size → 0 ≤ j < grid_size →
       cell_at grid i j = cell_at grid j i ∧
       (0 ≤ 2 * (grid_size `div` 2) - i < grid_size →
        cell_at grid (2 * (grid_size `div` 2) - i) j = cell_at grid i j)).
Proof.
  intros Hgs. split.
  - destruct (circular_plain grid_size radius empty_fraction passive g Hgs)
      as (grid & Hrun & _ & Hcells).
    exists grid. split; [done |]. intros i j Hi Hj. split.
    + rewrite !Hcells by done.
      by rewrite (bool_decide_ext _ _ (in_circle_swap grid_size radius i j)).
    + intros Hm. rewrite !Hcells by done.
      by rewrite (bool_decide_ext _ _ (in_circle_mirror grid_size radius i j)).
  - destruct (octagonal_plain grid_size side_length empty_fraction passive g Hgs)
      as (grid & Hrun & _ & Hcells).
    exists grid. split; [done |]. intros i j Hi Hj. split.
    + rewrite !Hcells by done.
      by rewrite (bool_decide_ext _ _ (in_octagon_swap grid_size side_length i j)).
    + intros Hm. rewrite !Hcells by done.
      by rewrite (bool_decide_ext _ _ (in_octagon_mirror grid_size side_length i j)).
Qed.

(** X4: without randomisation the patterns grow with their size
    parameter: a cell that is Active for a radius (side length) is Active
    for every larger one on the same grid. *)
Theorem circular_octagonal_monotone
    grid_size (r1 r2 s1 s2 : R) empty_fraction passive (g : G) :
  0 ≤ grid_size → (r1 <= r2)%R → (s1 <= s2)%R →
  (∃ grid1 grid2,
     create_circular_array grid_size r1 false empty_fraction passive g
     = Ok (grid1, g) ∧
     create_circular_array grid_size r2 false empty_fraction passive g
     = Ok (grid2, g) ∧
     ∀ i j, 0 ≤ i < grid_size → 0 ≤ j < grid_size →
       cell_at grid1 i j = Some Active → cell_at grid2 i j = Some Active) ∧
  (∃ grid1 grid2,
     create_octagonal_array grid_size s1 false empty_fraction passive g
     = Ok (grid1, g) ∧
     create_octagonal_array grid_size s2 false empty_fraction passive g
     = Ok (grid2, g) ∧
     ∀ i j, 0 ≤ i < grid_size → 0 ≤ j < grid_size →
       cell_at grid1 i j = Some Active → cell_at grid2 i j = Some Active).
Proof.
  intros Hgs Hr Hs. split.
  - destruct (circular_plain grid_size r1 empty_fraction passive g Hgs)
      as (grid1 & Hrun1 & _ & Hcells1).
    destruct (circular_plain grid_size r2 empty_fraction passive g Hgs)
      as (grid2 & Hrun2 & _ & Hcells2).
    exists grid1, grid2. split; [done |]. split; [done |].
    intros i j Hi Hj. rewrite Hcells1, Hcells2 by done.
    case_bool_decide as Hin; [| done]. intros _.
    rewrite bool_decide_eq_true_2; [done |]. unfold in_circle in *. lra.
  - destruct (octagonal_plain grid_size s1 empty_fraction passive g Hgs)
      as (grid1 & Hrun1 & _ & Hcells1).
    destruct (octagonal_plain grid_size s2 empty_fraction passive g Hgs)
      as (grid2 & Hrun2 & _ & Hcells2).
    exists grid1, grid2. split; [done |]. split; [done |].
    intros i j Hi Hj. rewrite Hcells1, Hcells2 by done.
    case_bool_decide as Hin; [| done]. intros _.
    rewrite bool_decide_eq_true_2; [done |].
    destruct (octagon_bounds_mono s1 s2 Hs) as [Hd Hq].
    unfold in_octagon in *. destruct Hin. split; lra.
Qed.

(** X5: the circular generator at the ends of the radius range, without
    randomisation: a negative radius gives a grid of Empty cells and no
    error; a radius of at least 0 makes the centre cell Active; a radius of
    at least [grid_size * sqrt 2] makes every cell Active. *)
Theorem circular_extreme_radii grid_size radius empty_fraction passive (g : G) :
  1 ≤ grid_size →
  ∃ grid,
    create_circular_array grid_size radius false empty_fraction passive g
    = Ok (grid, g) ∧
    has_shape grid grid_size grid_size ∧
    ((radius < 0)%R →
       ∀ i j, 0 ≤ i < grid_size → 0 ≤ j < grid_size →
         cell_at grid i j = Some Empty) ∧
    ((0 <= radius)%R →
       cell_at grid (grid_size `div` 2) (grid_size `div` 2) = Some Active) ∧
    ((IZR grid_size * sqrt 2 <= radius)%R →
       ∀ i j, 0 ≤ i < grid_size → 0 ≤ j < grid_size →
         cell_at grid i j = Some Active).
Proof.
  intros Hgs.
  destruct (circular_plain grid_size radius empty_fraction passive g)
    as (grid & Hrun & Hshape & Hcells); [lia |].
  assert (0 ≤ grid_size `div` 2 < grid_size) as Hc.
  { split; [apply Z.div_pos; lia | apply Z.div_lt_upper_bound; lia]. }
  exists grid. split; [done |]. split; [done |]. split; [| split].
  - intros Hneg i j Hi Hj. rewrite Hcells by done.
    rewrite bool_decide_eq_false_2; [done | by apply in_circle_negative].
  - intros Hpos. rewrite Hcells by done.
    rewrite bool_decide_eq_true_2; [done | by apply in_circle_centre].
  - intros Hbig i j Hi Hj. rewrite Hcells by done.
    rewrite bool_decide_eq_true_2; [done | by apply in_circle_large].
Qed.

(** X6: the octagonal generator at the ends of the side-length range,
    without randomisation: a negative side length (a binary64 number, as
    every float argument is) gives a grid of Empty cells and no error; side
    length 0 leaves exactly the centre cell Active; any side length of at
    least 0 makes the centre cell Active. *)
Theorem octagonal_extreme_sides grid_size side_length empty_fraction passive (g : G) :
  1 ≤ grid_size →
  ∃ grid,
    create_octagonal_array grid_size side_length false empty_fraction passive g
    = Ok (grid, g) ∧
    has_shape grid grid_size grid_size ∧
    ((side_length < 0)%R → binary64 side_length →
       ∀ i j, 0 ≤ i < grid_size → 0 ≤ j < grid_size →
         cell_at grid i j = Some Empty) ∧
    (side_length = 0%R →
       ∀ i j, 0 ≤ i < grid_size → 0 ≤ j < grid_size →
         cell_at grid i j =
         Some (if bool_decide (i = grid_size `div` 2 ∧ j = grid_size `div` 2)
               then Active else Empty)) ∧
    ((0 <= side_length)%R →
       cell_at grid (grid_size `div` 2) (grid_size `div` 2) = Some Active).
Proof.
  intros Hgs.
  destruct (octagonal_plain grid_size side_length empty_fraction passive g)
    as (grid & Hrun & Hshape & Hcells); [lia |].
  assert (0 ≤ grid_size `div` 2 < grid_size) as Hc.
  { split; [apply Z.div_pos; lia | apply Z.div_lt_upper_bound; lia]. }
  exists grid. split; [done |]. split; [done |]. split; [| split].
  - intros Hneg Hfloat i j Hi Hj. rewrite Hcells by done.
    rewrite bool_decide_eq_false_2; [done | by apply in_octagon_negative].
  - intros -> i j Hi Hj. rewrite Hcells by done.
    by rewrite (bool_decide_ext _ _ (in_octagon_zero grid_size i j)).
  - intros Hpos. rewrite Hcells by done.
    rewrite bool_decide_eq_true_2; [done | by apply in_octagon_centre].
Qed.

End PlainShapes.

(** ** The hexagon *)

Lemma length_bind_affine {B} (w : Z → list B) (a α β : Z) (n : nat) :
  (∀ i, a ≤ i < a + Z.of_nat n → Z.of_nat (length (w i)) = α + β * i) →
  2 * Z.of_nat (length (seqZ a (Z.of_nat n) ≫= w))
  = Z.of_nat n * (2 * α + β * (2 * a + Z.of_nat n - 1)).
Proof.
  induction n as [| n IH]; intros Hw; [done |].
  rewrite seqZ_S, bind_app, length_app, Nat2Z.inj_add.
  rewrite Z.mul_add_distr_l, IH by (intros i Hi; apply Hw; lia).
  rewrite bind_cons, app_nil_r, Hw by lia. nia.
Qed.

Lemma length_range2 a b : a ≤ b → Z.of_nat (length (range2 a b)) = b - a.
Proof. intros Hab. unfold range2. rewrite length_seqZ. lia. Qed.

(** The hexagon of radius [r] has [3 r^2 + 3 r + 1] cells. *)
Lemma length_hex_cells radius :
  0 ≤ radius →
  Z.of_nat (length (hex_cells radius)) = 3 * radius ^ 2 + 3 * radius + 1.
Proof.
  intros Hradius. unfold hex_cells, range.
  replace (2 * radius + 1) with ((radius + 1) + radius) at 1 by lia.
  rewrite seqZ_app, bind_app, length_app, Nat2Z.inj_add by lia.
  pose proof (length_bind_affine
    (λ i, (λ j, (i, j)) <$> range2 (hex_start radius i) (hex_end radius i))
    0 (radius + 1) 1 (Z.to_nat (radius + 1))) as Hupper.
  pose proof (length_bind_affine
    (λ i, (λ j, (i, j)) <$> range2 (hex_start radius i) (hex_end radius i))
    (0 + (radius + 1)) (3 * radius + 1) (-1) (Z.to_nat radius)) as Hlower.
  rewrite !Z2Nat.id in Hupper, Hlower by lia.
  assert (∀ i, 0 ≤ i < 2 * radius + 1 →
            Z.of_nat (length ((λ j, (i, j)) <$>
                                range2 (hex_start radius i) (hex_end radius i)))
            = hex_end radius i - hex_start radius i) as Hwidth.
  { intros i Hi. rewrite length_fmap. apply length_range2.
    unfold hex_start, hex_end. lia. }
  assert (Hu := Hupper
    ltac:(intros i Hi; rewrite Hwidth by lia; unfold hex_start, hex_end; lia)).
  assert (Hl := Hlower
    ltac:(intros i Hi; rewrite Hwidth by lia; unfold hex_start, hex_end; lia)).
  clear Hupper Hlower Hwidth. nia.
Qed.

Section HexagonShape.
Context {G : Type} `{RandomSource G}.

Lemma hexagonal_plain radius f passive (g : G) :
  0 ≤ radius →
  ∃ grid,
    create_hexagonal_array radius false f passive g = Ok (grid, g) ∧
    has_shape grid (2 * radius + 1) (2 * radius + 1) ∧
    ∀ i j, 0 ≤ i < 2 * radius + 1 → 0 ≤ j < 2 * radius + 1 →
      cell_at grid i j =
      Some (if bool_decide (hex_start radius i ≤ j < hex_end radius i)
            then Active else Empty).
Proof.
  intros Hradius.
  destruct (hex_fill radius g Hradius) as (grid & Hloop & Hshape & Hcells).
  exists grid. split; [| done].
  unfold create_hexagonal_array.
  rewrite (bind_lift_Ok _ _ _ g
             (np_full_ok (2 * radius + 1) (2 * radius + 1) Empty
                ltac:(lia) ltac:(lia))).
  by rewrite (bind_Ok _ _ _ _ _ Hloop).
Qed.

(** X7: without randomisation, a cell [(i, j)] of the hexagonal grid is
    Active iff [radius <= i + j <= 3 * radius], and Empty otherwise: the
    hexagon is the band between two anti-diagonals.  So the grid equals its
    transpose and is unchanged by the half turn
    [(i, j) -> (2 * radius - i, 2 * radius - j)]. *)
Theorem hexagonal_is_antidiagonal_band radius empty_fraction passive (g : G) :
  0 ≤ radius →
  ∃ grid,
    create_hexagonal_array radius false empty_fraction passive g = Ok (grid, g) ∧
    ∀ i j, 0 ≤ i < 2 * radius + 1 → 0 ≤ j < 2 * radius + 1 →
      cell_at grid i j =
      Some (if bool_decide (radius ≤ i + j ≤ 3 * radius) then Active else Empty) ∧
      cell_at grid j i = cell_at grid i j ∧
      cell_at grid (2 * radius - i) (2 * radius - j) = cell_at grid i j.
Proof.
  intros Hradius.
  destruct (hexagonal_plain radius empty_fraction passive g Hradius)
    as (grid & Hrun & _ & Hcells).
  exists grid. split; [done |].
  assert (∀ i j, 0 ≤ i < 2 * radius + 1 → 0 ≤ j < 2 * radius + 1 →
            cell_at grid i j =
            Some (if bool_decide (radius ≤ i + j ≤ 3 * radius)
                  then Active else Empty)) as Hband.
  { intros i j Hi Hj. rewrite Hcells by done.
    f_equal. apply (f_equal (λ b : bool, if b then Active else Empty)).
    apply bool_decide_ext. unfold hex_start, hex_end. lia. }
  intros i j Hi Hj. split; [by apply Hband |]. split.
  - rewrite !Hband by done.
    f_equal. apply (f_equal (λ b : bool, if b then Active else Empty)).
    apply bool_decide_ext. lia.
  - rewrite !Hband by lia.
    f_equal. apply (f_equal (λ b : bool, if b then Active else Empty)).
    apply bool_decide_ext. lia.
Qed.

(** X8: without randomisation the hexagonal grid of radius [r] has exactly
    [3 r^2 + 3 r + 1] Active cells, which is also the length of the
    [cell_positions] list the generator samples from. *)
Theorem hexagonal_active_count radius empty_fraction passive (g : G) :
  0 ≤ radius →
  ∃ grid,
    create_hexagonal_array radius false empty_fraction passive g = Ok (grid, g) ∧
    Z.of_nat (count_active grid) = 3 * radius ^ 2 + 3 * radius + 1 ∧
    Z.of_nat (length (hex_cells radius)) = 3 * radius ^ 2 + 3 * radius + 1.
Proof.
  intros Hradius.
  destruct (hexagonal_plain radius empty_fraction passive g Hradius)
    as (grid & Hrun & Hshape & Hcells).
  exists grid. split; [done |].
  split; [| by apply length_hex_cells].
  rewrite <- (length_hex_cells radius Hradius). f_equal.
  unfold count_active.
  apply (count_filter_grid grid (2 * radius + 1) (2 * radius + 1));
    [done | apply NoDup_hex_cells |].
  intros i j. rewrite elem_of_hex_cells. split.
  - intros [Hi Hj].
    assert (0 ≤ j < 2 * radius + 1) as Hj'
      by (unfold hex_start, hex_end in Hj; lia).
    split; [done |].
    rewrite (cell_or_empty_Some _ _ _ _ (Hcells _ _ Hi Hj')).
    by rewrite bool_decide_eq_true_2.
  - intros [[Hi Hj] Hact]. split; [done |].
    rewrite (cell_or_empty_Some _ _ _ _ (Hcells _ _ Hi Hj)) in Hact.
    by case_bool_decide.
Qed.

End HexagonShape.

(** ** Options that have no effect *)

(** The conversion of [2^53 + 3] rounds up, to [2^53 + 4]. *)
Lemma float_of_int_rounds_up : float_of_int (2 ^ 53 + 3) = IZR (2 ^ 53 + 4).
Proof.
  unfold float_of_int. rewrite (fl64_scaled_up _ 1 (2 ^ 52 + 2)).
  - f_equal; by apply Z.eqb_eq.
  - lia.
  - change (2 ^ 53 + 3) with 9007199254740995. pow2_values. lra.
  - rewrite (py_round_tie _ (2 ^ 52 + 1)); [done |].
    change (2 ^ 53 + 3) with 9007199254740995.
    change (2 ^ 52 + 1) with 4503599627370497. pow2_values. lra.
Qed.

Section NoEffect.
Context {G : Type} `{RandomSource G}.

(** Arrays of any size are allocated here; one with more cells than the
    float range holds makes a randomised call fail in the product
    [N * empty_fraction], whatever the fraction. *)
Lemma zero_fraction_beyond_float_range passive (g : G) :
  create_rectangular_array (2 ^ 1024) 1 true 0 passive g = Raise OverflowError ∧
  ¬ raises (create_rectangular_array (2 ^ 1024) 1 false 0 passive g).
Proof.
  assert (0 ≤ 2 ^ 1024) as Hrows by (by apply Z.leb_le).
  split.
  - destruct (rectangular_outcome (2 ^ 1024) 1 0 passive g Hrows ltac:(lia))
      as (Hraise & _).
    apply Hraise, sample_size_overflow. left.
    rewrite Z.mul_1_r. unfold float_of_int. rewrite fl64_pow2 by lia.
    apply isinf_true. rewrite Rabs_pos_eq; [lra |].
    apply (IZR_le 0), Hrows.
  - destruct (not_randomized_returns (2 ^ 1024) 1 0 0 passive g) as [Hrect _].
    apply Hrect; [done | lia].
Qed.

(** Likewise, with more than [2^53] cells the sample size
    [int(N * empty_fraction)] can exceed the number of cells, for a
    fraction of [1]. *)
Lemma demotion_count_exceeds_cells passive (g : G) :
  sample_size (2 ^ 53 + 3) 1 = Ok (2 ^ 53 + 4) ∧
  create_rectangular_array (2 ^ 53 + 3) 1 true 1 passive g = Raise ValueError.
Proof.
  assert (float_mul (float_of_int (2 ^ 53 + 3)) 1 = IZR (2 ^ 53 + 4)) as Hmul.
  { unfold float_mul. rewrite float_of_int_rounds_up, Rmult_1_r.
    replace (2 ^ 53 + 4) with ((2 ^ 51 + 1) * 2 ^ 2) by (by apply Z.eqb_eq).
    apply fl64_binary64, binary64_pow2_mul; [by apply Z.ltb_lt | lia]. }
  assert (sample_size (2 ^ 53 + 3) 1 = Ok (2 ^ 53 + 4)) as Hsize.
  { rewrite sample_size_finite.
    - unfold demotion_count. rewrite Hmul.
      destruct (py_int_nonneg (IZR (2 ^ 53 + 4))) as [-> _];
        [apply (IZR_le 0); by apply Z.leb_le |].
      by rewrite Int_part_IZR.
    - rewrite float_of_int_rounds_up. apply isinf_small.
      rewrite Rabs_pos_eq by (apply (IZR_le 0); by apply Z.leb_le).
      apply IZR_lt. by apply Z.ltb_lt.
    - rewrite Hmul. apply isinf_small.
      rewrite Rabs_pos_eq by (apply (IZR_le 0); by apply Z.leb_le).
      apply IZR_lt. by apply Z.ltb_lt. }
  split; [done |].
  destruct (rectangular_outcome (2 ^ 53 + 3) 1 1 passive g) as (_ & Hout & _);
    [by apply Z.leb_le | lia |].
  apply (Hout (2 ^ 53 + 4)).
  - by rewrite Z.mul_1_r.
  - right. rewrite Z.mul_1_r. by apply Z.ltb_lt.
Qed.

Lemma draw_gap_never f (g : G) :
  (f <= 0)%R → draw_gap true f g = Ok (false, (random_sample g).2).
Proof.
  intros Hf. unfold draw_gap, bind, rand, ret.
  pose proof (random_sample_range g) as Hu.
  destruct (random_sample g) as [u g']. simpl in *.
  destruct (Rltb u f) eqn:Hlt; [| done].
  apply Rltb_true in Hlt. lra.
Qed.

Lemma sunflower_point_value_never f passive (g : G) :
  (f <= 0)%R →
  sunflower_point_value true f passive g = Ok (Active, (random_sample g).2).
Proof.
  intros Hf. unfold sunflower_point_value, bind, rand, ret.
  pose proof (random_sample_range g) as Hu.
  destruct (random_sample g) as [u g']. simpl in *.
  destruct (Rltb u f) eqn:Hlt; [| done].
  apply Rltb_true in Hlt. lra.
Qed.

(** X9: with [empty_fraction = 0] the [randomize] flag does not change the
    grid any generator returns: the grid is the one of the call without
    randomisation (only the state of the random source may differ).  For
    the rectangular and the hexagonal generator the number of cells is
    within the float range, as it is for every array that fits in memory:
    beyond it the product [N * 0.0] of the randomised call raises
    [OverflowError], see [zero_fraction_beyond_float_range]. *)
Theorem zero_fraction_demotes_nothing
    rows columns hex_radius n_points grid_size radius side_length
    f passive (g : G) :
  0 ≤ rows → 0 ≤ columns → 0 ≤ hex_radius → 0 ≤ grid_size →
  (isinf (float_of_int (rows * columns)) = false →
   value_of (create_rectangular_array rows columns true 0 passive g)
   = value_of (create_rectangular_array rows columns false f passive g)) ∧
  (isinf (float_of_int (3 * hex_radius ^ 2 + 3 * hex_radius + 1)) = false →
   value_of (create_hexagonal_array hex_radius true 0 passive g)
   = value_of (create_hexagonal_array hex_radius false f passive g)) ∧
  value_of (create_sunflower_array n_points radius grid_size true 0 passive g)
  = value_of (create_sunflower_array n_points radius grid_size false f passive g) ∧
  value_of (create_circular_array grid_size radius true 0 passive g)
  = value_of (create_circular_array grid_size radius false f passive g) ∧
  value_of (create_octagonal_array grid_size side_length true 0 passive g)
  = value_of (create_octagonal_array grid_size side_length false f passive g).
Proof.
  intros Hrows Hcols Hradius Hgs. split; [| split; [| split; [| split]]].
  - intros Hfin. unfold create_rectangular_array, np_ones.
    rewrite !(bind_lift_Ok _ _ _ g (np_full_ok rows columns Active Hrows Hcols)).
    cbv zeta. rewrite bind_sample_size.
    rewrite (bind_lift_Ok _ _ _ g (demotion_count_zero (rows * columns) Hfin)).
    assert (0 ≤ 0 ≤ rows * columns) as Hk by nia.
    by rewrite (bind_Ok _ _ _ _ _ (choice_in_range (rows * columns) 0 g Hk)).
  - intros Hfin. rewrite <- (length_hex_cells hex_radius Hradius) in Hfin.
    destruct (hex_fill hex_radius g Hradius) as (gr & Hloop & _).
    unfold create_hexagonal_array.
    rewrite !(bind_lift_Ok _ _ _ g
               (np_full_ok (2 * hex_radius + 1) (2 * hex_radius + 1) Empty
                  ltac:(lia) ltac:(lia))).
    rewrite !(bind_Ok _ _ _ _ _ Hloop).
    rewrite bind_sample_size.
    rewrite (bind_lift_Ok _ _ _ _
               (demotion_count_zero (Z.of_nat (length (hex_cells hex_radius)))
                  Hfin)).
    assert (0 ≤ 0 ≤ Z.of_nat (length (hex_cells hex_radius))) as Hk by lia.
    by rewrite (bind_Ok _ _ _ _ _ (choice_in_range _ 0 g Hk)).
  - rewrite sunflower_not_randomized, value_of_lift.
    unfold create_sunflower_array, sunflower_pure, bind at 1.
    destruct (np_full _ _ Empty) as [gr | e]; [| done]. cbn [lift].
    destruct (range n_points) as [| i l]; [done |].
    cbn [for_each_ctl]. unfold bind.
    destruct (_ && _); [| done].
    rewrite sunflower_point_value_never by lra.
    unfold lift, ret. by destruct (setitem _ _ _ _).
  - destruct (circular_uniform grid_size radius true 0 passive false g Hgs)
      as (grid & g' & Hrun & Hshape & Hcells).
    { intros g1. eexists. apply draw_gap_never. lra. }
    destruct (circular_uniform grid_size radius false f passive false g Hgs)
      as (grid0 & g0 & Hrun0 & Hshape0 & Hcells0); [by eexists |].
    rewrite Hrun, Hrun0. simpl. f_equal.
    apply (grid_ext _ _ grid_size grid_size); [done | done |].
    intros i j Hi Hj. by rewrite Hcells, Hcells0.
  - destruct (octagonal_uniform grid_size side_length true 0 passive false g Hgs)
      as (grid & g' & Hrun & Hshape & Hcells).
    { intros g1. eexists. apply draw_gap_never. lra. }
    destruct (octagonal_uniform grid_size side_length false f passive false g Hgs)
      as (grid0 & g0 & Hrun0 & Hshape0 & Hcells0); [by eexists |].
    rewrite Hrun, Hrun0. simpl. f_equal.
    apply (grid_ext _ _ grid_size grid_size); [done | done |].
    intros i j Hi Hj. by rewrite Hcells, Hcells0.
Qed.

(** X10: because the sunflower generator returns during its first
    iteration, [n_points] and [radius] have no effect: for
    [grid_size >= 1], any two calls with [n_points >= 1] that differ only in
    [n_points] and [radius] return the same grid and leave the random source
    in the same state. *)
Theorem sunflower_ignores_points_and_radius
    n1 n2 (r1 r2 : R) grid_size randomize empty_fraction passive (g : G) :
  1 ≤ n1 → 1 ≤ n2 → 1 ≤ grid_size →
  create_sunflower_array n1 r1 grid_size randomize empty_fraction passive g
  = create_sunflower_array n2 r2 grid_size randomize empty_fraction passive g.
Proof.
  intros Hn1 Hn2 Hgs.
  destruct (sunflower_first_point n1 r1 grid_size randomize empty_fraction
              passive g Hn1 Hgs) as (grid1 & -> & Hshape1 & Hcells1).
  destruct (sunflower_first_point n2 r2 grid_size randomize empty_fraction
              passive g Hn2 Hgs) as (grid2 & -> & Hshape2 & Hcells2).
  do 3 f_equal.
  apply (grid_ext _ _ grid_size grid_size); [done | done |].
  intros i j Hi Hj. by rewrite Hcells1, Hcells2.
Qed.

(** X11: how much of the random source a successful call uses.  The
    randomised rectangular and hexagonal generators shuffle once, a range of
    [rows * columns], respectively [3 r^2 + 3 r + 1], indices, and draw no
    number; the sunflower generator draws exactly one number when
    [randomize] is set and none otherwise.  The cell counts are at most
    [2^53], as they are for every array that fits in memory, so that their
    conversion to a float is exact (beyond it the count
    [int(N * empty_fraction)] can exceed [N], see
    [demotion_count_exceeds_cells]). *)
Theorem random_source_use
    rows columns hex_radius n_points grid_size radius randomize f passive (g : G) :
  (0 <= f <= 1)%R → 0 ≤ rows → 0 ≤ columns → 0 ≤ hex_radius →
  1 ≤ n_points → 1 ≤ grid_size →
  rows * columns ≤ 2 ^ 53 → 3 * hex_radius ^ 2 + 3 * hex_radius + 1 ≤ 2 ^ 53 →
  (∃ grid,
     create_rectangular_array rows columns true f passive g
     = Ok (grid, (permutation (rows * columns) g).2)) ∧
  (∃ grid,
     create_hexagonal_array hex_radius true f passive g
     = Ok (grid, (permutation (3 * hex_radius ^ 2 + 3 * hex_radius + 1) g).2)) ∧
  (∃ grid,
     create_sunflower_array n_points radius grid_size randomize f passive g
     = Ok (Some grid, if randomize then (random_sample g).2 else g)).
Proof.
  intros Hf Hrows Hcols Hradius Hn Hgs Hcells Hhex. split; [| split].
  - destruct (rectangular_randomized rows columns f passive g Hrows Hcols
                Hcells Hf) as (grid & Hrun & _). by exists grid.
  - rewrite <- (length_hex_cells hex_radius Hradius) in Hhex.
    destruct (hexagonal_randomized hex_radius f passive g Hradius Hhex Hf)
      as (grid & Hrun & _).
    rewrite (length_hex_cells hex_radius Hradius) in Hrun. by exists grid.
  - destruct (sunflower_first_point n_points radius grid_size randomize f
                passive g Hn Hgs) as (grid & Hrun & _).
    exists grid. rewrite Hrun. do 2 f_equal.
    unfold sunflower_cell. destruct randomize; [| done].
    by destruct (random_sample g).
Qed.

End NoEffect.

(** ** The order of the draws in the circular and the octagonal generator *)

Lemma inside_before_middle inside (done rest : list (Z * Z)) p :
  p ∉ done →
  inside_before inside (done ++ p :: rest) p = inside_count inside done.
Proof.
  unfold inside_count. induction done as [| q done IH]; intros Hp; simpl.
  - by rewrite bool_decide_eq_true_2.
  - apply not_elem_of_cons in Hp as [Hne Hp].
    rewrite bool_decide_eq_false_2 by done. rewrite (IH Hp).
    rewrite filter_cons. by destruct (inside q); simpl.
Qed.

Lemma bool_decide_position_snoc_ne (i j i' j' : Z) (done : list (Z * Z)) :
  ¬ (i' = i ∧ j' = j) →
  bool_decide ((i', j') ∈ done ++ [(i, j)]) = bool_decide ((i', j') ∈ done).
Proof.
  intros Hne. apply bool_decide_ext.
  rewrite elem_of_app, list_elem_of_singleton. split; [| tauto].
  intros [Hdone | Heq]; [done |]. inversion Heq; subst. tauto.
Qed.

Lemma inside_count_snoc inside (done : list (Z * Z)) p :
  inside_count inside (done ++ [p])
  = (inside_count inside done + if inside p then 1 else 0)%nat.
Proof.
  unfold inside_count. rewrite filter_app, length_app, filter_cons, filter_nil.
  by destruct (inside p); simpl.
Qed.

Section DrawOrder.
Context {G : Type} `{RandomSource G}.

Lemma for_each_app {I S} (l1 l2 : list I) (body : I → S → M G S) s (g : G) :
  for_each (l1 ++ l2) body s g
  = bind (for_each l1 body s) (for_each l2 body) g.
Proof.
  revert s g. induction l1 as [| i l1 IH]; intros s g; [done |].
  simpl. unfold bind.
  destruct (body i s g) as [[s' g'] | e]; [| done]. by rewrite IH.
Qed.

Lemma for_each_fmap {I J S} (h : I → J) (l : list I) (body : J → S → M G S)
    s (g : G) :
  for_each (h <$> l) body s g = for_each l (λ x, body (h x)) s g.
Proof.
  revert s g. induction l as [| i l IH]; intros s g; [done |].
  simpl. unfold bind.
  destruct (body (h i) s g) as [[s' g'] | e]; [apply IH | done].
Qed.

(** The two nested loops over a grid visit its positions row by row. *)
Lemma for_each_positions {S} n m (body : Z → Z → S → M G S) s (g : G) :
  for_each (range n) (λ i s, for_each (range m) (λ j s, body i j s) s) s g
  = for_each (positions n m) (λ p s, body p.1 p.2 s) s g.
Proof.
  unfold positions. generalize (range n) as l1. intros l1. revert s g.
  induction l1 as [| i l1 IH]; intros s g; [done |].
  rewrite bind_cons, for_each_app. simpl. unfold bind.
  rewrite for_each_fmap. simpl.
  destruct (for_each (range m) _ s g) as [[s' g'] | e]; [apply IH | done].
Qed.

Lemma draw_gap_run f (g : G) :
  draw_gap true f g = Ok (Rltb (random_sample g).1 f, (random_sample g).2).
Proof. unfold draw_gap, bind, rand, ret. by destruct (random_sample g). Qed.

(** A randomised scan: the cells inside the shape are visited row by row,
    each takes the next random number and is demoted iff that number is
    below [f]. *)
Lemma scan_draws (n : Z) (inside : Z * Z → bool) f passive
    (body : Z → Z → grid → M G grid) (g : G) :
  0 ≤ n →
  (∀ i j gr g1,
     body i j gr g1 =
     (if inside (i, j) then
        gap <- draw_gap true f;;
        if gap then lift (setitem gr i j (demoted passive))
        else lift (setitem gr i j Active)
      else ret gr) g1) →
  ∃ gr',
    for_each (range n) (λ i gr, for_each (range n) (λ j gr, body i j gr) gr)
      (replicate (Z.to_nat n) (replicate (Z.to_nat n) Empty)) g
    = Ok (gr', after_draws (inside_count inside (positions n n)) g) ∧
    has_shape gr' n n ∧
    ∀ i j, 0 ≤ i < n → 0 ≤ j < n →
      cell_at gr' i j =
      Some (if inside (i, j) then
              if Rltb (nth_draw (inside_before inside (positions n n) (i, j)) g) f
              then demoted passive else Active
            else Empty).
Proof.
  intros Hn Hbody. rewrite for_each_positions.
  destruct (for_each_inv
    (λ done gr' g',
       g' = after_draws (inside_count inside done) g ∧
       has_shape gr' n n ∧
       ∀ i j, 0 ≤ i < n → 0 ≤ j < n →
         cell_at gr' i j =
         Some (if bool_decide ((i, j) ∈ done) && inside (i, j) then
                 if Rltb (nth_draw (inside_before inside (positions n n) (i, j)) g) f
                 then demoted passive else Active
               else Empty))
    (λ p gr, body p.1 p.2 gr) (positions n n)
    (replicate (Z.to_nat n) (replicate (Z.to_nat n) Empty)) g)
    as (gr' & g' & Hrun & -> & Hshape & Hcells).
  - intros done [i j] rest gr1 g1 Hsplit (-> & Hshape1 & Hcells1).
    assert (0 ≤ i < n ∧ 0 ≤ j < n) as [Hi Hj]
      by (apply elem_of_positions; by eapply elem_of_middle).
    assert ((i, j) ∉ done) as Hfresh.
    { pose proof (NoDup_positions n n) as Hnd. rewrite Hsplit in Hnd.
      apply NoDup_app in Hnd as (_ & Hdisj & _).
      intros Hin. apply (Hdisj _ Hin). apply list_elem_of_here. }
    pose proof (inside_before_middle inside done rest (i, j) Hfresh) as Hrank.
    rewrite <- Hsplit in Hrank.
    rewrite Hbody, inside_count_snoc. simpl.
    destruct (inside (i, j)) eqn:Hin.
    + rewrite (bind_Ok _ _ _ _ _ (draw_gap_run f _)).
      set (v := if Rltb (random_sample
                           (after_draws (inside_count inside done) g)).1 f
                then demoted passive else Active).
      destruct (setitem_spec gr1 n n i j v Hshape1 Hi Hj)
        as (gr2 & Hset & Hshape2 & Hcells2).
      exists gr2, (random_sample (after_draws (inside_count inside done) g)).2.
      split.
      { unfold v in Hset. unfold lift.
        destruct (Rltb _ f); by rewrite Hset. }
      split; [by rewrite Nat.add_1_r |]. split; [done |].
      intros i' j' Hi' Hj'. rewrite Hcells2.
      destruct (decide (i' = i ∧ j' = j)) as [[-> ->] | Hne].
      * rewrite bool_decide_eq_true_2 by done.
        rewrite bool_decide_eq_true_2
          by (apply elem_of_app; right; apply list_elem_of_here).
        rewrite Hin. simpl. by rewrite Hrank.
      * rewrite bool_decide_eq_false_2 by done.
        rewrite (Hcells1 i' j' Hi' Hj').
        by rewrite (bool_decide_position_snoc_ne _ _ _ _ _ Hne).
    + exists gr1, (after_draws (inside_count inside done) g).
      split; [done |]. split; [by rewrite Nat.add_0_r |]. split; [done |].
      intros i' j' Hi' Hj'. rewrite (Hcells1 i' j' Hi' Hj').
      destruct (decide (i' = i ∧ j' = j)) as [[-> ->] | Hne].
      * by rewrite Hin, !andb_false_r.
      * by rewrite (bool_decide_position_snoc_ne _ _ _ _ _ Hne).
  - split; [done |]. split; [by apply has_shape_full |].
    intros i j Hi Hj. by rewrite cell_at_full.
  - exists gr'. split; [done |]. split; [done |].
    intros i j Hi Hj. rewrite (Hcells i j Hi Hj).
    rewrite bool_decide_eq_true_2 by (by apply elem_of_positions). done.
Qed.

(** X21: the randomised circular generator, cell by cell.  The cells that
    pass the generator's test (computed distance [np.sqrt(...) <= radius])
    are visited row by row; each takes exactly one random number, in that
    order, and is demoted iff its number is below [empty_fraction]; a cell
    that fails the test takes none and stays Empty.  So the call draws as
    many numbers as there are cells passing the test. *)
Theorem circular_randomized_draw_order
    grid_size radius empty_fraction passive (g : G) :
  0 ≤ grid_size →
  ∃ grid,
    create_circular_array grid_size radius true empty_fraction passive g
    = Ok (grid,
          after_draws
            (inside_count (circle_inside grid_size radius)
               (positions grid_size grid_size)) g) ∧
    ∀ i j, 0 ≤ i < grid_size → 0 ≤ j < grid_size →
      cell_at grid i j =
      Some (if circle_inside grid_size radius (i, j) then
              if Rltb
                   (nth_draw
                      (inside_before (circle_inside grid_size radius)
                         (positions grid_size grid_size) (i, j)) g)
                   empty_fraction
              then demoted passive else Active
            else Empty).
Proof.
  intros Hgs. unfold create_circular_array.
  rewrite (bind_lift_Ok _ _ _ g (np_full_ok grid_size grid_size Empty Hgs Hgs)).
  destruct (scan_draws grid_size (circle_inside grid_size radius)
              empty_fraction passive
              (λ i j grid,
                 if Rleb (computed_distance grid_size i j) radius
                 then gap <- draw_gap true empty_fraction;;
                      if gap then lift (setitem grid i j (demoted passive))
                      else lift (setitem grid i j Active)
                 else ret grid) g Hgs)
    as (grid & Hrun & _ & Hcells).
  - intros i j gr g1. unfold circle_inside, in_circle. simpl.
    destruct (Rleb _ radius) eqn:Hin.
    + apply Rleb_true in Hin. by rewrite bool_decide_eq_true_2.
    + rewrite bool_decide_eq_false_2; [done |].
      intros Hle. apply Rleb_true in Hle. congruence.
  - by exists grid.
Qed.

(** X22: the same for the octagonal generator: one random number for
    every cell that passes its two tests against the bounds as computed,
    taken row by row, none for the others. *)
Theorem octagonal_randomized_draw_order
    grid_size side_length empty_fraction passive (g : G) :
  0 ≤ grid_size →
  ∃ grid,
    create_octagonal_array grid_size side_length true empty_fraction passive g
    = Ok (grid,
          after_draws
            (inside_count (octagon_inside grid_size side_length)
               (positions grid_size grid_size)) g) ∧
    ∀ i j, 0 ≤ i < grid_size → 0 ≤ j < grid_size →
      cell_at grid i j =
      Some (if octagon_inside grid_size side_length (i, j) then
              if Rltb
                   (nth_draw
                      (inside_before (octagon_inside grid_size side_length)
                         (positions grid_size grid_size) (i, j)) g)
                   empty_fraction
              then demoted passive else Active
            else Empty).
Proof.
  intros Hgs. unfold create_octagonal_array.
  rewrite (bind_lift_Ok _ _ _ g (np_full_ok grid_size grid_size Empty Hgs Hgs)).
  destruct (scan_draws grid_size (octagon_inside grid_size side_length)
              empty_fraction passive
              (λ i j grid,
                 if Rleb (float_of_int (Z.abs (i - grid_size `div` 2)
                                    + Z.abs (j - grid_size `div` 2)))
                 (diamond_bound side_length)
               && Rleb (float_of_int (Z.max (Z.abs (i - grid_size `div` 2))
                                        (Z.abs (j - grid_size `div` 2))))
                    (square_bound side_length)
                 then gap <- draw_gap true empty_fraction;;
                      if gap then lift (setitem grid i j (demoted passive))
                      else lift (setitem grid i j Active)
                 else ret grid) g Hgs)
    as (grid & Hrun & _ & Hcells).
  - intros i j gr g1. unfold octagon_inside, in_octagon. simpl.
    destruct (Rleb _ (diamond_bound side_length)) eqn:Hin1;
      destruct (Rleb _ (square_bound side_length)) eqn:Hin2; simpl.
    + apply Rleb_true in Hin1, Hin2. by rewrite bool_decide_eq_true_2.
    + rewrite bool_decide_eq_false_2; [done |].
      intros [_ Hle]. apply Rleb_true in Hle. congruence.
    + rewrite bool_decide_eq_false_2; [done |].
      intros [Hle _]. apply Rleb_true in Hle. congruence.
    + rewrite bool_decide_eq_false_2; [done |].
      intros [Hle _]. apply Rleb_true in Hle. congruence.
  - by exists grid.
Qed.

End DrawOrder.

(** * The window *)

(** ** Drawing a grid *)

Lemma cell_at_in_range gr n m i j :
  has_shape gr n m → 0 ≤ i < n → 0 ≤ j < m →
  ∃ c, cell_at gr i j = Some c ∧ getitem gr i j = Ok c.
Proof.
  intros [Hlen Hrows] Hi Hj. unfold cell_at, getitem.
  destruct (i <? 0) eqn:E1; [lia |]. destruct (j <? 0) eqn:E2; [lia |].
  simpl. rewrite norm_index_in_range by lia.
  destruct (lookup_lt_is_Some_2 gr (Z.to_nat i)) as [row Hrow]; [lia |].
  rewrite Hrow. simpl.
  assert (Z.of_nat (length row) = m) as Hrowlen.
  { rewrite Forall_lookup in Hrows. by apply (Hrows _ _ Hrow). }
  rewrite norm_index_in_range by lia.
  destruct (lookup_lt_is_Some_2 row (Z.to_nat j)) as [c Hc]; [lia |].
  rewrite Hc. by exists c.
Qed.

Lemma for_each_pure_collect {I B} (l : list I)
    (body : I → list B → result (list B)) (f : I → list B) (acc : list B) :
  (∀ x acc, x ∈ l → body x acc = Ok (acc ++ f x)) →
  for_each_pure l body acc = Ok (acc ++ (l ≫= f)).
Proof.
  revert acc. induction l as [| x l IH]; intros acc Hbody.
  - by rewrite app_nil_r.
  - cbn [for_each_pure]. rewrite Hbody by apply list_elem_of_here.
    rewrite IH by (intros y acc' Hy; apply Hbody; by apply list_elem_of_further).
    by rewrite bind_cons, app_assoc.
Qed.

Lemma bind_fmap_pair {B} (F : Z * Z → list B) (i : Z) (k : list Z) :
  ((λ j, (i, j)) <$> k) ≫= F = k ≫= λ j, F (i, j).
Proof.
  induction k as [| j k IH]; [reflexivity |].
  by rewrite fmap_cons, !bind_cons, IH.
Qed.

Lemma positions_bind {B} (F : Z * Z → list B) n m :
  positions n m ≫= F = range n ≫= λ i, range m ≫= λ j, F (i, j).
Proof.
  unfold positions. generalize (range n) as l.
  induction l as [| i l IH]; [reflexivity |].
  by rewrite !bind_cons, bind_app, IH, bind_fmap_pair.
Qed.

Lemma draw_cells_scene_of gr n m scene :
  has_shape gr n m →
  draw_cells gr (n, m) scene = Ok (scene ++ scene_of gr n m).
Proof.
  intros Hshape. unfold draw_cells, scene_of. rewrite positions_bind. simpl.
  apply for_each_pure_collect. intros i acc Hi. apply elem_of_range in Hi.
  apply for_each_pure_collect. intros j acc' Hj. apply elem_of_range in Hj.
  destruct (cell_at_in_range gr n m i j Hshape Hi Hj) as (c & Hcell & ->).
  unfold cell_items. rewrite (cell_or_empty_Some _ _ _ _ Hcell).
  destruct c; by rewrite ?app_nil_r.
Qed.

Lemma length_bind_cell_items gr (l : list (Z * Z)) :
  length (l ≫= cell_items gr)
  = length (filter (λ p, cell_or_empty gr p ≠ Empty) l).
Proof.
  induction l as [| p l IH]; [done |].
  rewrite bind_cons, length_app, IH, filter_cons. unfold cell_items.
  destruct (cell_or_empty gr p); destruct (decide _) as [Hd | Hd]; simpl;
    try done; by exfalso; apply Hd.
Qed.

Lemma length_scene_of gr n m :
  has_shape gr n m → length (scene_of gr n m) = count_non_empty gr.
Proof.
  intros Hshape. unfold scene_of, count_non_empty.
  by rewrite length_bind_cell_items, (mjoin_positions gr n m Hshape),
    length_filter_fmap.
Qed.

Lemma elem_of_cell_items gr p e :
  e ∈ cell_items gr p ↔
  cell_or_empty gr p ≠ Empty ∧ e = ellipse_of p.1 p.2 (cell_or_empty gr p).
Proof.
  unfold cell_items. destruct (cell_or_empty gr p).
  - split; [by intros ?%not_elem_of_nil | by intros [? _]].
  - rewrite list_elem_of_singleton. split; [by intros -> | by intros [_ ->]].
  - rewrite list_elem_of_singleton. split; [by intros -> | by intros [_ ->]].
Qed.

Lemma elem_of_scene_of gr n m e :
  has_shape gr n m →
  e ∈ scene_of gr n m ↔
  ∃ i j c, 0 ≤ i < n ∧ 0 ≤ j < m ∧ cell_at gr i j = Some c ∧ c ≠ Empty ∧
           e = ellipse_of i j c.
Proof.
  intros Hshape. unfold scene_of. rewrite list_elem_of_bind. split.
  - intros ([i j] & Hin & Hp). apply elem_of_positions in Hp as [Hi Hj].
    apply elem_of_cell_items in Hin as [Hne ->].
    destruct (cell_at_in_range gr n m i j Hshape Hi Hj) as (c & Hcell & _).
    rewrite (cell_or_empty_Some _ _ _ _ Hcell) in *.
    by exists i, j, c.
  - intros (i & j & c & Hi & Hj & Hcell & Hne & ->).
    exists (i, j). split; [| by apply elem_of_positions].
    apply elem_of_cell_items. by rewrite (cell_or_empty_Some _ _ _ _ Hcell).
Qed.

Lemma NoDup_scene_of gr n m : NoDup (scene_of gr n m).
Proof.
  unfold scene_of. apply NoDup_bind; [| | apply NoDup_positions].
  - intros [i1 j1] [i2 j2] e _ _ [_ ->]%elem_of_cell_items
      [_ Heq]%elem_of_cell_items.
    unfold ellipse_of in Heq. simpl in Heq. injection Heq as Hx Hy _.
    f_equal; lia.
  - intros p _. unfold cell_items.
    destruct (cell_or_empty gr p); [apply NoDup_nil_2 | apply NoDup_singleton ..].
Qed.

(** X12: the drawing loop of [preview_array] adds to the scene exactly one
    ellipse for every cell of the array that is not Empty: an 8 x 8 ellipse
    at [(10 * j, 10 * i)], red for an Active cell and blue for a Passive
    one.  No two of the ellipses coincide and there are as many as the grid
    has non-Empty cells; what was in the scene stays in front of them. *)
Theorem draw_cells_one_ellipse_per_cell gr n m scene :
  has_shape gr n m →
  ∃ items,
    draw_cells gr (n, m) scene = Ok (scene ++ items) ∧
    length items = count_non_empty gr ∧
    NoDup items ∧
    ∀ e, e ∈ items ↔
         ∃ i j c, 0 ≤ i < n ∧ 0 ≤ j < m ∧ cell_at gr i j = Some c ∧
                  c ≠ Empty ∧
                  e = Ellipse (j * 10) (i * 10) 8 8
                        (if decide (c = Passive) then Blue else Red).
Proof.
  intros Hshape. exists (scene_of gr n m).
  split; [by apply draw_cells_scene_of |].
  split; [by apply length_scene_of |].
  split; [apply NoDup_scene_of |].
  intros e. by apply elem_of_scene_of.
Qed.

(** ** The handlers *)

Lemma slider_fraction s : 0 ≤ s ≤ 100 → (0 <= int_truediv s 100 <= 1)%R.
Proof.
  intros [Hlo Hhi]. apply IZR_le in Hlo, Hhi. unfold int_truediv. split.
  - apply fl64_nonneg. lra.
  - rewrite <- (fl64_IZR 1) by (by apply Z.leb_le). apply fl64_mono. lra.
Qed.

Lemma bind_options_standard randomize f passive :
  bind_options [("randomize", PyBool randomize); ("empty_fraction", PyFloat f);
                ("passive", PyBool passive)]%string
  = UOk (randomize, f, passive).
Proof. reflexivity. Qed.

Lemma bind_options_air_gap_prob randomize f passive :
  bind_options [("randomize", PyBool randomize); ("air_gap_prob", PyFloat f);
                ("passive", PyBool passive)]%string
  = URaise TypeError.
Proof. reflexivity. Qed.

Lemma py_shape_NdArray gr n m :
  has_shape gr n m → 1 ≤ n → py_shape (NdArray gr) = UOk (n, m).
Proof.
  intros [Hlen Hrows] Hn. simpl. destruct gr as [| row gr]; [simpl in *; lia |].
  apply Forall_cons in Hrows as [Hrow _]. by rewrite Hlen, Hrow.
Qed.

Lemma py_len_NdArray gr n m :
  has_shape gr n m → py_len (NdArray gr) = UOk n.
Proof. intros [Hlen _]. simpl. by rewrite Hlen. Qed.

Section HandlerFacts.
Context {G : Type} `{RandomSource G}.

Lemma call_generator_standard {A} randomize f passive
    (generator : bool → R → bool → M G A) (wrap : A → py_array) (g g' : G) a :
  generator randomize f passive g = Ok (a, g') →
  call_generator
    [("randomize", PyBool randomize); ("empty_fraction", PyFloat f);
     ("passive", PyBool passive)]%string generator wrap g
  = UOk (wrap a, g').
Proof.
  intros Hrun. unfold call_generator.
  by rewrite bind_options_standard, Hrun.
Qed.

Lemma rectangular_succeeds rows columns randomize f passive (g : G) :
  0 ≤ rows → 0 ≤ columns → rows * columns ≤ 2 ^ 53 → (0 <= f <= 1)%R →
  ∃ grid g',
    create_rectangular_array rows columns randomize f passive g = Ok (grid, g') ∧
    has_shape grid rows columns.
Proof.
  intros Hrows Hcols Hsize Hf. destruct randomize.
  - destruct (rectangular_randomized rows columns f passive g Hrows Hcols
                Hsize Hf) as (grid & Hrun & Hshape & _).
    by exists grid, (permutation (rows * columns) g).2.
  - exists (replicate (Z.to_nat rows) (replicate (Z.to_nat columns) Active)), g.
    split; [| by apply has_shape_full].
    unfold create_rectangular_array, np_ones.
    by rewrite (bind_lift_Ok _ _ _ g (np_full_ok rows columns Active Hrows Hcols)).
Qed.

Lemma hexagonal_succeeds radius randomize f passive (g : G) :
  0 ≤ radius → radius ≤ 2 ^ 25 → (0 <= f <= 1)%R →
  ∃ grid g',
    create_hexagonal_array radius randomize f passive g = Ok (grid, g') ∧
    has_shape grid (2 * radius + 1) (2 * radius + 1).
Proof.
  intros Hradius Hsmall Hf. destruct randomize.
  - assert (Z.of_nat (length (hex_cells radius)) ≤ 2 ^ 53) as Hsize.
    { rewrite (length_hex_cells radius Hradius).
      change (2 ^ 25) with 33554432 in Hsmall.
      change (2 ^ 53) with 9007199254740992. nia. }
    destruct (hexagonal_randomized radius f passive g Hradius Hsize Hf)
      as (grid & Hrun & Hshape & _).
    by exists grid, (permutation (Z.of_nat (length (hex_cells radius))) g).2.
  - destruct (hexagonal_plain radius f passive g Hradius)
      as (grid & Hrun & Hshape & _). by exists grid, g.
Qed.

Lemma circular_succeeds grid_size radius randomize f passive (g : G) :
  0 ≤ grid_size →
  ∃ grid g',
    create_circular_array grid_size radius randomize f passive g = Ok (grid, g') ∧
    has_shape grid grid_size grid_size.
Proof.
  intros Hgs.
  destruct (circular_scan grid_size radius randomize f passive (λ _, True) g Hgs)
    as (grid & g' & Hrun & Hshape & _); [| by exists grid, g'].
  intros g1. destruct (draw_gap_total randomize f g1) as (gap & g2 & Hdraw).
  by exists gap, g2.
Qed.

Lemma octagonal_succeeds grid_size side_length randomize f passive (g : G) :
  0 ≤ grid_size →
  ∃ grid g',
    create_octagonal_array grid_size side_length randomize f passive g
    = Ok (grid, g') ∧
    has_shape grid grid_size grid_size.
Proof.
  intros Hgs.
  destruct (octagonal_scan grid_size side_length randomize f passive (λ _, True)
              g Hgs)
    as (grid & g' & Hrun & Hshape & _); [| by exists grid, g'].
  intros g1. destruct (draw_gap_total randomize f g1) as (gap & g2 & Hdraw).
  by exists gap, g2.
Qed.

(** The array a click on Preview computes, for widgets within their
    ranges. *)
Lemma previewed_array (u : ui) (g : G) :
  widgets_in_range u →
  ∃ grid g',
    has_shape grid (expected_shape u).1 (expected_shape u).2 ∧
    1 ≤ (expected_shape u).1 ∧
    preview_array u g
    = Handled (with_scene (scene_of grid (expected_shape u).1 (expected_shape u).2)
                 (with_array (NdArray grid) u)) [] g' ∧
    (array_type_combo u ≠ Sunflower → array u = PyEmptyList →
     generate_array u g
     = Handled (with_array (NdArray grid) u)
         [ComponentLine (component_file_path u);
          VersionLine (version_combo u) (non_graphical_mode_check u);
          ArrayLine (NdArray grid)] g').
Proof.
  intros (Hslider & Hradius & Hrows & Hcols & Hn & Hgs & Hside).
  pose proof (slider_fraction _ Hslider) as Hf.
  unfold preview_array, generate_array, expected_shape.
  destruct u as [a kind rz pv s rad rows cols n gs side path ver ng scene].
  ui_fields.
  destruct kind; ui_fields.
  - destruct (rectangular_succeeds rows cols rz (int_truediv s 100) pv g)
      as (grid & g' & Hrun & Hshape); [lia | lia | | done |].
    { change (2 ^ 53) with 9007199254740992. nia. }
    exists grid, g'. split; [done |]. split; [lia |].
    rewrite (call_generator_standard _ _ _ _ _ _ _ _ Hrun). ui_fields.
    rewrite (py_shape_NdArray _ _ _ Hshape) by lia.
    rewrite (draw_cells_scene_of _ _ _ _ Hshape). split; [done |].
    by intros _ ->.
  - destruct (circular_succeeds gs (IZR rad) rz (int_truediv s 100) pv g)
      as (grid & g' & Hrun & Hshape); [lia |].
    exists grid, g'. split; [done |]. split; [lia |].
    rewrite (call_generator_standard _ _ _ _ _ _ _ _ Hrun). ui_fields.
    rewrite (py_shape_NdArray _ _ _ Hshape) by lia.
    rewrite (draw_cells_scene_of _ _ _ _ Hshape). split; [done |].
    by intros _ ->.
  - destruct (octagonal_succeeds gs (IZR side) rz (int_truediv s 100) pv g)
      as (grid & g' & Hrun & Hshape); [lia |].
    exists grid, g'. split; [done |]. split; [lia |].
    rewrite (call_generator_standard _ _ _ _ _ _ _ _ Hrun). ui_fields.
    rewrite (py_shape_NdArray _ _ _ Hshape) by lia.
    rewrite (draw_cells_scene_of _ _ _ _ Hshape). split; [done |].
    by intros _ ->.
  - destruct (hexagonal_succeeds rad rz (int_truediv s 100) pv g)
      as (grid & g' & Hrun & Hshape); [lia | | done |].
    { change (2 ^ 25) with 33554432. lia. }
    exists grid, g'. split; [done |]. split; [lia |].
    rewrite (call_generator_standard _ _ _ _ _ _ _ _ Hrun). ui_fields.
    rewrite (py_shape_NdArray _ _ _ Hshape) by lia.
    rewrite (draw_cells_scene_of _ _ _ _ Hshape). split; [done |].
    by intros _ ->.
  - destruct (sunflower_first_point n (IZR rad) gs rz (int_truediv s 100) pv g)
      as (grid & Hrun & Hshape & _); [lia | lia |].
    exists grid, (sunflower_cell rz (int_truediv s 100) pv g).2.
    split; [done |]. split; [lia |].
    rewrite (call_generator_standard _ _ _ _ _ _ _ _ Hrun).
    cbn [wrap_optional]. ui_fields.
    rewrite (py_shape_NdArray _ _ _ Hshape) by lia.
    rewrite (draw_cells_scene_of _ _ _ _ Hshape). split; [done |].
    by intros [].
Qed.

Lemma lift_any_state {A} (r : result A) (g0 g g' : G) a :
  lift r g0 = Ok (a, g') → lift r g = Ok (a, g).
Proof. destruct r as [a' | e]; simpl; [| done]. by intros [= -> _]. Qed.

(** The array a generator returns without randomisation, for widgets
    within their ranges: the same from every random state, and without a
    Passive cell. *)
Lemma plain_call (u : ui) (g0 : G) :
  widgets_in_range u →
  ∃ grid,
    has_shape grid (expected_shape u).1 (expected_shape u).2 ∧
    1 ≤ (expected_shape u).1 ∧
    (∀ i j, 0 ≤ i < (expected_shape u).1 → 0 ≤ j < (expected_shape u).2 →
       cell_at grid i j ≠ Some Passive) ∧
    ∀ f passive (g : G),
      match array_type_combo u with
      | Hexagonal =>
          call_generator
            [("randomize", PyBool false); ("empty_fraction", PyFloat f);
             ("passive", PyBool passive)]%string
            (create_hexagonal_array (radius_spin u)) NdArray g
      | Rectangular =>
          call_generator
            [("randomize", PyBool false); ("empty_fraction", PyFloat f);
             ("passive", PyBool passive)]%string
            (create_rectangular_array (rows_spin u) (columns_spin u)) NdArray g
      | Sunflower =>
          call_generator
            [("randomize", PyBool false); ("empty_fraction", PyFloat f);
             ("passive", PyBool passive)]%string
            (create_sunflower_array (n_points_spin u) (IZR (radius_spin u))
               (grid_size_spin u))
            wrap_optional g
      | Circular =>
          call_generator
            [("randomize", PyBool false); ("empty_fraction", PyFloat f);
             ("passive", PyBool passive)]%string
            (create_circular_array (grid_size_spin u) (IZR (radius_spin u)))
            NdArray g
      | Octagonal =>
          call_generator
            [("randomize", PyBool false); ("empty_fraction", PyFloat f);
             ("passive", PyBool passive)]%string
            (create_octagonal_array (grid_size_spin u) (IZR (side_length_spin u)))
            NdArray g
      end = UOk (NdArray grid, g).
Proof.
  intros (Hslider & Hradius & Hrows & Hcols & Hn & Hgs & Hside).
  unfold expected_shape.
  destruct u as [a kind rz pv s rad rows cols n gs side path ver ng scene].
  ui_fields.
  destruct kind; ui_fields.
  - exists (replicate (Z.to_nat rows) (replicate (Z.to_nat cols) Active)).
    split; [apply has_shape_full; lia |]. split; [lia |]. split.
    + intros i j Hi Hj. by rewrite cell_at_full.
    + intros f passive g. apply call_generator_standard.
      rewrite rectangular_not_randomized.
      unfold rectangular_pure, np_ones. by rewrite np_full_ok by lia.
  - destruct (circular_plain gs (IZR rad) 0 false g0)
      as (grid & Hrun & Hshape & Hcells); [lia |].
    exists grid. split; [done |]. split; [lia |]. split.
    + intros i j Hi Hj. rewrite (Hcells i j Hi Hj). by case_bool_decide.
    + intros f passive g. apply call_generator_standard.
      rewrite circular_not_randomized in *. by eapply lift_any_state.
  - destruct (octagonal_plain gs (IZR side) 0 false g0)
      as (grid & Hrun & Hshape & Hcells); [lia |].
    exists grid. split; [done |]. split; [lia |]. split.
    + intros i j Hi Hj. rewrite (Hcells i j Hi Hj). by case_bool_decide.
    + intros f passive g. apply call_generator_standard.
      rewrite octagonal_not_randomized in *. by eapply lift_any_state.
  - destruct (hexagonal_plain rad 0 false g0)
      as (grid & Hrun & Hshape & Hcells); [lia |].
    exists grid. split; [done |]. split; [lia |]. split.
    + intros i j Hi Hj. rewrite (Hcells i j Hi Hj). by case_bool_decide.
    + intros f passive g. apply call_generator_standard.
      rewrite hexagonal_not_randomized in *. by eapply lift_any_state.
  - destruct (sunflower_first_point n (IZR rad) gs false 0 false g0)
      as (grid & Hrun & Hshape & Hcells); [lia | lia |].
    exists grid. split; [done |]. split; [lia |]. split.
    + intros i j Hi Hj. rewrite (Hcells i j Hi Hj). by case_bool_decide.
    + intros f passive g.
      apply (call_generator_standard false f passive _ wrap_optional g g (Some grid)).
      rewrite sunflower_not_randomized in *. by eapply lift_any_state.
Qed.

(** A click on Preview with Randomize unchecked, whatever [self.array] and
    the scene held. *)
Lemma preview_array_plain (u : ui) (g0 : G) :
  widgets_in_range u → randomize_check u = false →
  ∃ grid,
    has_shape grid (expected_shape u).1 (expected_shape u).2 ∧
    (∀ i j, 0 ≤ i < (expected_shape u).1 → 0 ≤ j < (expected_shape u).2 →
       cell_at grid i j ≠ Some Passive) ∧
    ∀ a scene (g : G),
      preview_array (with_scene scene (with_array a u)) g
      = Handled
          (with_scene (scene_of grid (expected_shape u).1 (expected_shape u).2)
             (with_array (NdArray grid) u)) [] g.
Proof.
  intros Hrange Hplain.
  destruct (plain_call u g0 Hrange) as (grid & Hshape & Hn & Hcells & Hcall).
  exists grid. split; [done |]. split; [done |].
  intros a scene g. unfold preview_array.
  specialize (Hcall (int_truediv (empty_fraction_slider u) 100)
                (passive_cell_radio u) g).
  revert Hshape Hn Hcall. unfold expected_shape.
  destruct u as [a0 kind rz pv s rad rows cols n gs side path ver ng scene0].
  ui_fields. subst rz. intros Hshape Hn Hcall.
  destruct kind; ui_fields; rewrite Hcall; ui_fields;
    rewrite (py_shape_NdArray _ _ _ Hshape) by done;
    by rewrite (draw_cells_scene_of _ _ _ _ Hshape).
Qed.

End HandlerFacts.

Lemma scene_of_single gr n ci cj v :
  has_shape gr n n → 0 ≤ ci < n → 0 ≤ cj < n → v ≠ Empty →
  (∀ i j, 0 ≤ i < n → 0 ≤ j < n →
     cell_at gr i j = Some (if bool_decide (i = ci ∧ j = cj) then v else Empty)) →
  scene_of gr n n = [ellipse_of ci cj v].
Proof.
  intros Hshape Hci Hcj Hv Hcells.
  pose proof (length_scene_of gr n n Hshape) as Hlen.
  rewrite (count_non_empty_single gr n ci cj v) in Hlen by done.
  assert (ellipse_of ci cj v ∈ scene_of gr n n) as Hin.
  { apply (elem_of_scene_of gr n n); [done |]. exists ci, cj, v.
    rewrite (Hcells _ _ Hci Hcj), bool_decide_eq_true_2 by done. done. }
  destruct (scene_of gr n n) as [| e [| e' l]]; [done | | done].
  apply list_elem_of_singleton in Hin. by subst e.
Qed.

Section HandlerClaims.
Context {G : Type} `{RandomSource G}.

(** X13: with every widget within the range the source gives it, a click
    on Preview never fails: it stores an array of the shape that belongs to
    the selected type in [self.array], replaces the scene by one ellipse per
    non-Empty cell of that array, prints nothing, and changes no widget. *)
Theorem preview_array_succeeds (u : ui) (g : G) :
  widgets_in_range u →
  ∃ grid items g',
    preview_array u g
    = Handled (with_scene items (with_array (NdArray grid) u)) [] g' ∧
    has_shape grid (expected_shape u).1 (expected_shape u).2 ∧
    length items = count_non_empty grid ∧
    ∀ e, e ∈ items ↔
         ∃ i j c, 0 ≤ i < (expected_shape u).1 ∧ 0 ≤ j < (expected_shape u).2 ∧
                  cell_at grid i j = Some c ∧ c ≠ Empty ∧
                  e = Ellipse (j * 10) (i * 10) 8 8
                        (if decide (c = Passive) then Blue else Red).
Proof.
  intros Hrange.
  destruct (previewed_array u g Hrange) as (grid & g' & Hshape & _ & Hrun & _).
  exists grid, (scene_of grid (expected_shape u).1 (expected_shape u).2), g'.
  split; [done |]. split; [done |].
  split; [by apply length_scene_of |].
  intros e. by apply elem_of_scene_of.
Qed.

(** X14: the preview of a sunflower array shows a single dot.  With the
    widgets in range and the type Sunflower, Preview leaves exactly one
    ellipse in the scene, at the centre [(10 * (grid_size // 2),
    10 * (grid_size // 2))], whatever the number of points and the radius
    are; it is red unless the passive option is set. *)
Theorem sunflower_preview_is_one_ellipse (u : ui) (g : G) :
  widgets_in_range u → array_type_combo u = Sunflower →
  ∃ u' g' brush,
    preview_array u g = Handled u' [] g' ∧
    graphics_scene u'
    = [Ellipse (grid_size_spin u `div` 2 * 10) (grid_size_spin u `div` 2 * 10)
         8 8 brush] ∧
    (passive_cell_radio u = false → brush = Red).
Proof.
  intros (Hslider & Hradius & Hrows & Hcols & Hn & Hgs & Hside) Hkind.
  unfold preview_array.
  destruct u as [a kind rz pv s rad rows cols n gs side path ver ng scene].
  ui_fields. subst kind.
  destruct (sunflower_first_point n (IZR rad) gs rz (int_truediv s 100) pv g)
    as (grid & Hrun & Hshape & Hcells); [lia | lia |].
  rewrite (call_generator_standard _ _ _ _ _ _ _ _ Hrun).
  cbn [wrap_optional]. ui_fields.
  rewrite (py_shape_NdArray _ _ _ Hshape) by lia.
  rewrite (draw_cells_scene_of _ _ _ _ Hshape).
  assert (0 ≤ gs `div` 2 < gs) as Hc.
  { split; [apply Z.div_pos; lia | apply Z.div_lt_upper_bound; lia]. }
  rewrite (scene_of_single grid gs (gs `div` 2) (gs `div` 2)
             (sunflower_cell rz (int_truediv s 100) pv g).1 Hshape Hc Hc
             (sunflower_cell_not_Empty _ _ _ _) Hcells).
  eexists _, _, _. split; [done |]. split; [done |].
  intros ->. unfold sunflower_cell. destruct rz; [| done].
  destruct (random_sample g). simpl. by rewrite andb_false_r.
Qed.

(** X15: with the type Sunflower and no array cached, a click on Generate
    always ends with a [TypeError], whatever the widgets hold: the call
    passes the keyword [air_gap_prob], which is no parameter of
    [create_sunflower_array].  Nothing is printed and [self.array] is still
    empty when the exception is raised. *)
Theorem generate_array_sunflower_type_error (u : ui) (g : G) :
  array_type_combo u = Sunflower → array u = PyEmptyList →
  generate_array u g = Failed TypeError u.
Proof.
  intros Hkind Harray. unfold generate_array.
  by rewrite Harray, Hkind.
Qed.

(** X16: for the other four types, with no array cached and the widgets in
    range, Generate and Preview make the same generator call: from the same
    random state they store the same array and leave the same random state;
    Generate prints that array after the component and version lines. *)
Theorem generate_array_computes_previewed_array (u : ui) (g : G) :
  widgets_in_range u → array_type_combo u ≠ Sunflower → array u = PyEmptyList →
  ∃ grid items g',
    preview_array u g
    = Handled (with_scene items (with_array (NdArray grid) u)) [] g' ∧
    generate_array u g
    = Handled (with_array (NdArray grid) u)
        [ComponentLine (component_file_path u);
         VersionLine (version_combo u) (non_graphical_mode_check u);
         ArrayLine (NdArray grid)] g'.
Proof.
  intros Hrange Hkind Harray.
  destruct (previewed_array u g Hrange) as (grid & g' & _ & _ & Hrun & Hgen).
  exists grid, (scene_of grid (expected_shape u).1 (expected_shape u).2), g'.
  split; [done |]. by apply Hgen.
Qed.

(** X17: Generate reuses what Preview left in [self.array].  After a
    successful Preview, a click on Generate in any window that still holds
    that array calls no generator: it leaves the window and the random state
    untouched and prints the previewed array, whatever the spin boxes, the
    slider and the check boxes show by then, and also for the type
    Sunflower, for which Generate on an empty [self.array] fails. *)
Theorem generate_array_reuses_previewed_array
    (u u1 u2 : ui) (g g1 g2 : G) (out : list printed) :
  widgets_in_range u →
  preview_array u g = Handled u1 out g1 →
  array u2 = array u1 →
  generate_array u2 g2
  = Handled u2
      [ComponentLine (component_file_path u2);
       VersionLine (version_combo u2) (non_graphical_mode_check u2);
       ArrayLine (array u1)] g2.
Proof.
  intros Hrange Hpreview Harray.
  destruct (previewed_array u g Hrange) as (grid & g' & Hshape & Hn & Hrun & _).
  rewrite Hrun in Hpreview. injection Hpreview as <- _ _.
  ui_fields. unfold generate_array. rewrite Harray.
  rewrite (py_len_NdArray _ _ _ Hshape).
  destruct (_ =? 0) eqn:Hzero; [lia |]. by rewrite Harray.
Qed.

(** X18: changing the array type empties the cache.  After
    [update_inputs], with the widgets in range and a type other than
    Sunflower, Generate computes a new array, of the shape the freshly built
    form stands for: 3 x 3 for the hexagon (radius 1), 1 x 1 otherwise,
    whatever [self.array] held before. *)
Theorem generate_array_after_update_inputs (u : ui) (g : G) :
  widgets_in_range u → array_type_combo u ≠ Sunflower →
  ∃ grid g',
    generate_array (update_inputs u) g
    = Handled (with_array (NdArray grid) (update_inputs u))
        [ComponentLine (component_file_path u);
         VersionLine (version_combo u) (non_graphical_mode_check u);
         ArrayLine (NdArray grid)] g' ∧
    has_shape grid
      (match array_type_combo u with Hexagonal => 3 | _ => 1 end)
      (match array_type_combo u with Hexagonal => 3 | _ => 1 end).
Proof.
  intros Hrange Hkind.
  assert (widgets_in_range (update_inputs u)) as Hrange'.
  { destruct Hrange as (Hslider & Hradius & Hrows & Hcols & Hn & Hgs & Hside).
    destruct u as [a kind rz pv s rad rows cols n gs side path ver ng scene].
    unfold widgets_in_range. ui_fields. destruct kind; ui_fields; lia. }
  destruct (previewed_array (update_inputs u) g Hrange')
    as (grid & g' & Hshape & _ & _ & Hgen).
  exists grid, g'.
  destruct u as [a kind rz pv s rad rows cols n gs side path ver ng scene].
  ui_fields. destruct kind; ui_fields; try done;
    (split; [by apply Hgen | done]).
Qed.

(** X19: with Randomize unchecked and the widgets in range, Preview uses
    no random number, draws red ellipses only, and is repeatable: a second
    click, from any random state, leaves the window exactly as the first
    one did, so the ellipses of the first preview are not drawn twice. *)
Theorem preview_array_without_randomize (u : ui) (g g2 : G) :
  widgets_in_range u → randomize_check u = false →
  ∃ u',
    preview_array u g = Handled u' [] g ∧
    (∀ e, e ∈ graphics_scene u' → ellipse_brush e = Red) ∧
    preview_array u' g2 = Handled u' [] g2.
Proof.
  intros Hrange Hplain.
  destruct (preview_array_plain u g Hrange Hplain)
    as (grid & Hshape & Hcells & Hrun).
  exists (with_scene (scene_of grid (expected_shape u).1 (expected_shape u).2)
            (with_array (NdArray grid) u)).
  split; [| split].
  - rewrite <- (Hrun (array u) (graphics_scene u) g). by destruct u.
  - intros e He. ui_fields.
    apply (elem_of_scene_of _ _ _ _ Hshape) in He
      as (i & j & c & Hi & Hj & Hcell & _ & ->).
    unfold ellipse_of. simpl. destruct (decide (c = Passive)) as [-> |]; [| done].
    by destruct (Hcells i j Hi Hj).
  - apply Hrun.
Qed.

(** X20: a second click on Generate repeats the first.  When Generate
    succeeds in a window whose [self.array] was empty and whose widgets
    are in range, the next click on Generate, from any random state, prints
    exactly the same three lines, draws no random number and leaves the
    window as it is, also with Randomize checked. *)
Theorem generate_array_second_click
    (u u1 : ui) (g g1 g2 : G) (out : list printed) :
  widgets_in_range u → array u = PyEmptyList →
  generate_array u g = Handled u1 out g1 →
  generate_array u1 g2 = Handled u1 out g2.
Proof.
  intros Hrange Harray Hfirst.
  destruct (previewed_array u g Hrange) as (grid & g' & Hshape & Hn & _ & Hgen).
  assert (array_type_combo u = Sunflower ∨ array_type_combo u ≠ Sunflower)
    as [Hkind | Hkind] by (destruct (array_type_combo u); (by left) || (by right)).
  { unfold generate_array in Hfirst. by rewrite Harray, Hkind in Hfirst. }
  rewrite (Hgen Hkind Harray) in Hfirst. injection Hfirst as <- <- _.
  unfold generate_array. ui_fields.
  rewrite (py_len_NdArray _ _ _ Hshape).
  by destruct (_ =? 0) eqn:Hzero; [lia |].
Qed.

End HandlerClaims.

(** ** The further properties at concrete inputs *)

Lemma circular_cells_any_options_witness :
  0 ≤ 4 ∧
  ∃ grid g',
    create_circular_array 4 (3 / 2) true (1 / 4) true 0%nat = Ok (grid, g') ∧
    has_shape grid 4 4.
Proof.
  split; [lia |].
  destruct (circular_cells_any_options 4 (3 / 2) true (1 / 4) true 0%nat)
    as (grid & g' & Hrun & Hshape & _); [lia |]. by exists grid, g'.
Defined.

Lemma octagonal_cells_any_options_witness :
  0 ≤ 6 ∧
  ∃ grid g',
    create_octagonal_array 6 2 true (1 / 4) false 0%nat = Ok (grid, g') ∧
    has_shape grid 6 6.
Proof.
  split; [lia |].
  destruct (octagonal_cells_any_options 6 2 true (1 / 4) false 0%nat)
    as (grid & g' & Hrun & Hshape & _); [lia |]. by exists grid, g'.
Defined.

Lemma circular_octagonal_symmetric_witness :
  0 ≤ 5 ∧
  ∃ grid,
    create_circular_array 5 2 false (1 / 10) false 0%nat = Ok (grid, 0%nat) ∧
    cell_at grid 1 3 = cell_at grid 3 1.
Proof.
  split; [lia |].
  destruct (circular_octagonal_symmetric 5 2 1 (1 / 10) false 0%nat)
    as [(grid & Hrun & Hsym) _]; [lia |].
  exists grid. split; [done |]. apply Hsym; lia.
Defined.

Lemma circular_octagonal_monotone_witness :
  (0 ≤ 5 ∧ (1 <= 2)%R ∧ (1 <= 3)%R) ∧
  ∃ grid1 grid2,
    create_circular_array 5 1 false (1 / 10) false 0%nat = Ok (grid1, 0%nat) ∧
    create_circular_array 5 2 false (1 / 10) false 0%nat = Ok (grid2, 0%nat) ∧
    (cell_at grid1 2 3 = Some Active → cell_at grid2 2 3 = Some Active).
Proof.
  split; [split; [lia | split; lra] |].
  destruct (circular_octagonal_monotone 5 1 2 1 3 (1 / 10) false 0%nat)
    as [(grid1 & grid2 & Hrun1 & Hrun2 & Hmono) _]; [lia | lra | lra |].
  exists grid1, grid2. split; [done |]. split; [done |]. apply Hmono; lia.
Defined.

Lemma circular_extreme_radii_witness :
  1 ≤ 3 ∧
  ∃ grid,
    create_circular_array 3 (-1) false (1 / 10) false 0%nat = Ok (grid, 0%nat) ∧
    cell_at grid 1 1 = Some Empty.
Proof.
  split; [lia |].
  destruct (circular_extreme_radii 3 (-1) (1 / 10) false 0%nat)
    as (grid & Hrun & _ & Hneg & _); [lia |].
  exists grid. split; [done |]. apply Hneg; [lra | lia | lia].
Defined.

Lemma octagonal_extreme_sides_witness :
  (1 ≤ 3 ∧ (-1 < 0)%R ∧ binary64 (-1)) ∧
  ∃ grid,
    create_octagonal_array 3 (-1) false (1 / 10) false 0%nat = Ok (grid, 0%nat) ∧
    cell_at grid 1 1 = Some Empty.
Proof.
  assert (binary64 (-1)) as Hfloat by (apply binary64_IZR; by apply Z.leb_le).
  split; [split; [lia | split; [lra | done]] |].
  destruct (octagonal_extreme_sides 3 (-1) (1 / 10) false 0%nat)
    as (grid & Hrun & _ & Hneg & _); [lia |].
  exists grid. split; [done |]. apply Hneg; [lra | done | lia | lia].
Defined.

Lemma hexagonal_is_antidiagonal_band_witness :
  0 ≤ 2 ∧
  ∃ grid,
    create_hexagonal_array 2 false (1 / 10) false 0%nat = Ok (grid, 0%nat) ∧
    cell_at grid 0 1 = Some Empty ∧ cell_at grid 0 2 = Some Active.
Proof.
  split; [lia |].
  destruct (hexagonal_is_antidiagonal_band 2 (1 / 10) false 0%nat)
    as (grid & Hrun & Hband); [lia |].
  exists grid. split; [done |]. split.
  - by destruct (Hband 0 1 ltac:(lia) ltac:(lia)) as [-> _].
  - by destruct (Hband 0 2 ltac:(lia) ltac:(lia)) as [-> _].
Defined.

Lemma hexagonal_active_count_witness :
  0 ≤ 2 ∧
  ∃ grid,
    create_hexagonal_array 2 false (1 / 10) false 0%nat = Ok (grid, 0%nat) ∧
    Z.of_nat (count_active grid) = 19.
Proof.
  split; [lia |].
  destruct (hexagonal_active_count 2 (1 / 10) false 0%nat)
    as (grid & Hrun & Hcount & _); [lia |].
  by exists grid.
Defined.

Lemma zero_fraction_demotes_nothing_witness :
  (0 ≤ 2 ∧ 0 ≤ 3 ∧ 0 ≤ 1 ∧ 0 ≤ 4) ∧
  value_of (create_rectangular_array 2 3 true 0 true 0%nat)
  = value_of (create_rectangular_array 2 3 false (1 / 2) true 0%nat) ∧
  value_of (create_circular_array 4 2 true 0 true 0%nat)
  = value_of (create_circular_array 4 2 false (1 / 2) true 0%nat).
Proof.
  split; [lia |].
  destruct (zero_fraction_demotes_nothing 2 3 1 5 4 2 2 (1 / 2) true 0%nat)
    as (Hrect & _ & _ & Hcirc & _); [lia | lia | lia | lia |].
  split; [| done]. apply Hrect, float_of_int_finite. by apply Z.leb_le.
Defined.

Lemma sunflower_ignores_points_and_radius_witness :
  (1 ≤ 3 ∧ 1 ≤ 200 ∧ 1 ≤ 9) ∧
  create_sunflower_array 3 1 9 true (1 / 2) true 0%nat
  = create_sunflower_array 200 4 9 true (1 / 2) true 0%nat.
Proof.
  split; [lia |].
  apply (sunflower_ignores_points_and_radius 3 200 1 4 9 true (1 / 2) true 0%nat);
    lia.
Defined.

Lemma random_source_use_witness :
  ((0 <= 1 / 2 <= 1)%R ∧ 0 ≤ 2 ∧ 0 ≤ 3 ∧ 0 ≤ 1 ∧ 1 ≤ 5 ∧ 1 ≤ 7 ∧
   2 * 3 ≤ 2 ^ 53 ∧ 3 * 1 ^ 2 + 3 * 1 + 1 ≤ 2 ^ 53) ∧
  (∃ grid,
     create_rectangular_array 2 3 true (1 / 2) false 0%nat
     = Ok (grid, (permutation (2 * 3) 0%nat).2)) ∧
  (∃ grid,
     create_sunflower_array 5 2 7 true (1 / 2) false 0%nat
     = Ok (Some grid, (random_sample 0%nat).2)).
Proof.
  split.
  { split; [lra |]. do 5 (split; [lia |]). split; by apply Z.leb_le. }
  destruct (random_source_use 2 3 1 5 7 2 true (1 / 2) false 0%nat)
    as (Hrect & _ & Hsun);
    [lra | lia | lia | lia | lia | lia | by apply Z.leb_le | by apply Z.leb_le |].
  by split.
Defined.

Lemma draw_cells_one_ellipse_per_cell_witness :
  has_shape [ [Active; Empty]; [Passive; Active] ] 2 2 ∧
  ∃ items,
    draw_cells [ [Active; Empty]; [Passive; Active] ] (2, 2) [] = Ok ([] ++ items) ∧
    length items = count_non_empty [ [Active; Empty]; [Passive; Active] ].
Proof.
  assert (has_shape [ [Active; Empty]; [Passive; Active] ] 2 2) as Hshape
    by (split; [reflexivity | by repeat constructor]).
  split; [done |].
  destruct (draw_cells_one_ellipse_per_cell
              [ [Active; Empty]; [Passive; Active] ] 2 2 [] Hshape)
    as (items & Hrun & Hlen & _).
  by exists items.
Defined.

(** A window with the type Sunflower selected and randomisation on. *)
Lemma sunflower_window_in_range :
  widgets_in_range
    (Ui PyEmptyList Sunflower true false 30 4 1 1 9 5 1 None "2024.2" false []).
Proof. unfold widgets_in_range. simpl. lia. Defined.

Lemma initial_window_in_range : widgets_in_range initial_window.
Proof. unfold widgets_in_range. simpl. lia. Defined.

Lemma preview_array_succeeds_witness :
  widgets_in_range initial_window ∧
  ∃ grid items g',
    preview_array initial_window 0%nat
    = Handled (with_scene items (with_array (NdArray grid) initial_window)) [] g' ∧
    has_shape grid 1 1.
Proof.
  split; [apply initial_window_in_range |].
  destruct (preview_array_succeeds initial_window 0%nat initial_window_in_range)
    as (grid & items & g' & Hrun & Hshape & _).
  by exists grid, items, g'.
Defined.

Lemma sunflower_preview_is_one_ellipse_witness :
  ∃ u' g' brush,
    preview_array
      (Ui PyEmptyList Sunflower true false 30 4 1 1 9 5 1 None "2024.2" false [])
      0%nat = Handled u' [] g' ∧
    graphics_scene u' = [Ellipse (5 `div` 2 * 10) (5 `div` 2 * 10) 8 8 brush].
Proof.
  destruct (sunflower_preview_is_one_ellipse
              (Ui PyEmptyList Sunflower true false 30 4 1 1 9 5 1 None "2024.2"
                 false [])
              0%nat sunflower_window_in_range eq_refl)
    as (u' & g' & brush & Hrun & Hscene & _).
  by exists u', g', brush.
Defined.

Lemma generate_array_sunflower_type_error_witness :
  generate_array
    (Ui PyEmptyList Sunflower true false 30 4 1 1 9 5 1 None "2024.2" false [])
    0%nat
  = Failed TypeError
      (Ui PyEmptyList Sunflower true false 30 4 1 1 9 5 1 None "2024.2" false []).
Proof.
  by apply (generate_array_sunflower_type_error
              (Ui PyEmptyList Sunflower true false 30 4 1 1 9 5 1 None "2024.2"
                 false []) 0%nat).
Defined.

Lemma generate_array_computes_previewed_array_witness :
  ∃ grid g',
    generate_array initial_window 0%nat
    = Handled (with_array (NdArray grid) initial_window)
        [ComponentLine None; VersionLine "2024.1" false; ArrayLine (NdArray grid)]
        g'.
Proof.
  destruct (generate_array_computes_previewed_array initial_window 0%nat
              initial_window_in_range)
    as (grid & items & g' & _ & Hgen); [done | done |].
  by exists grid, g'.
Defined.

Lemma generate_array_reuses_previewed_array_witness :
  (widgets_in_range initial_window ∧
   preview_array initial_window 0%nat
   = Handled
       (with_scene [Ellipse 0 0 8 8 Red]
          (with_array (NdArray [ [Active] ]) initial_window))
       [] 0%nat) ∧
  generate_array
    (Ui (NdArray [ [Active] ]) Sunflower true true 80 7 3 3 40 9 2 None "2025.1"
       true [])
    5%nat
  = Handled
      (Ui (NdArray [ [Active] ]) Sunflower true true 80 7 3 3 40 9 2 None
         "2025.1" true [])
      [ComponentLine None; VersionLine "2025.1" true;
       ArrayLine (NdArray [ [Active] ])]
      5%nat.
Proof.
  split; [split; [apply initial_window_in_range | reflexivity] |].
  apply (generate_array_reuses_previewed_array initial_window
           (with_scene [Ellipse 0 0 8 8 Red]
              (with_array (NdArray [ [Active] ]) initial_window))
           (Ui (NdArray [ [Active] ]) Sunflower true true 80 7 3 3 40 9 2 None
              "2025.1" true [])
           0%nat 0%nat 5%nat []);
    [apply initial_window_in_range | reflexivity | reflexivity].
Defined.

Lemma generate_array_after_update_inputs_witness :
  ∃ grid g',
    generate_array
      (update_inputs
         (Ui (NdArray [ [Passive] ]) Hexagonal false false 0 7 1 1 1 1 1 None
            "2024.1" false []))
      0%nat
    = Handled
        (with_array (NdArray grid)
           (update_inputs
              (Ui (NdArray [ [Passive] ]) Hexagonal false false 0 7 1 1 1 1 1 None
                 "2024.1" false [])))
        [ComponentLine None; VersionLine "2024.1" false; ArrayLine (NdArray grid)]
        g' ∧
    has_shape grid 3 3.
Proof.
  apply (generate_array_after_update_inputs
           (Ui (NdArray [ [Passive] ]) Hexagonal false false 0 7 1 1 1 1 1 None
              "2024.1" false []) 0%nat);
    [unfold widgets_in_range; simpl; lia | done].
Defined.

Lemma preview_array_without_randomize_witness :
  ∃ u',
    preview_array
      (Ui PyEmptyList Hexagonal false false 40 2 1 1 1 1 1 None "2024.1" false [])
      0%nat = Handled u' [] 0%nat ∧
    preview_array u' 7%nat = Handled u' [] 7%nat.
Proof.
  destruct (preview_array_without_randomize
              (Ui PyEmptyList Hexagonal false false 40 2 1 1 1 1 1 None "2024.1"
                 false [])
              0%nat 7%nat)
    as (u' & Hfirst & _ & Hsecond);
    [unfold widgets_in_range; simpl; lia | reflexivity |].
  by exists u'.
Defined.

Lemma generate_array_second_click_witness :
  generate_array (with_array (NdArray [ [Active] ]) initial_window) 3%nat
  = Handled (with_array (NdArray [ [Active] ]) initial_window)
      [ComponentLine None; VersionLine "2024.1" false;
       ArrayLine (NdArray [ [Active] ])]
      3%nat.
Proof.
  apply (generate_array_second_click initial_window
           (with_array (NdArray [ [Active] ]) initial_window)
           0%nat 0%nat 3%nat
           [ComponentLine None; VersionLine "2024.1" false;
            ArrayLine (NdArray [ [Active] ])]);
    [apply initial_window_in_range | reflexivity | reflexivity].
Defined.

Lemma circular_randomized_draw_order_witness :
  0 ≤ 3 ∧
  ∃ grid,
    create_circular_array 3 1 true (1 / 4) true 0%nat
    = Ok (grid,
          after_draws (inside_count (circle_inside 3 1) (positions 3 3)) 0%nat) ∧
    cell_at grid 0 1 =
    Some (if circle_inside 3 1 (0, 1) then
            if Rltb
                 (nth_draw
                    (inside_before (circle_inside 3 1) (positions 3 3) (0, 1))
                    0%nat) (1 / 4)
            then demoted true else Active
          else Empty).
Proof.
  split; [lia |].
  destruct (circular_randomized_draw_order 3 1 (1 / 4) true 0%nat)
    as (grid & Hrun & Hcells); [lia |].
  exists grid. split; [done |]. apply Hcells; lia.
Defined.

Lemma octagonal_randomized_draw_order_witness :
  0 ≤ 5 ∧
  ∃ grid,
    create_octagonal_array 5 1 true (1 / 4) false 0%nat
    = Ok (grid,
          after_draws (inside_count (octagon_inside 5 1) (positions 5 5)) 0%nat).
Proof.
  split; [lia |].
  destruct (octagonal_randomized_draw_order 5 1 (1 / 4) false 0%nat)
    as (grid & Hrun & _); [lia |].
  by exists grid.
Defined.

(** ** The handlers on small inputs *)

Example draw_cells_2x2 :
  draw_cells [ [Active; Empty]; [Passive; Active] ] (2, 2) []
  = Ok [Ellipse 0 0 8 8 Red; Ellipse 0 10 8 8 Blue; Ellipse 10 10 8 8 Red].
Proof. reflexivity. Qed.

Example preview_initial_window :
  preview_array initial_window 0%nat
  = Handled
      (with_scene [Ellipse 0 0 8 8 Red]
         (with_array (NdArray [ [Active] ]) initial_window))
      [] 0%nat.
Proof. reflexivity. Qed.

Example preview_hexagon_radius_1 :
  preview_array
    (Ui PyEmptyList Hexagonal false false 0 1 1 1 1 1 1 None "2024.1" false [])
    0%nat
  = Handled
      (Ui (NdArray [ [Empty; Active; Active];
                     [Active; Active; Active];
                     [Active; Active; Empty] ])
         Hexagonal false false 0 1 1 1 1 1 1 None "2024.1" false
         [Ellipse 10 0 8 8 Red; Ellipse 20 0 8 8 Red;
          Ellipse 0 10 8 8 Red; Ellipse 10 10 8 8 Red; Ellipse 20 10 8 8 Red;
          Ellipse 0 20 8 8 Red; Ellipse 10 20 8 8 Red])
      [] 0%nat.
Proof. reflexivity. Qed.
